(** * Careify document pipeline: a shallow embedding and its properties

    The development follows the backend services of the repository:
    the checklist service, the classification and extraction services,
    the application repository (reference numbers) and the document
    service (case status derivation).

    Modelling conventions.
    - A JavaScript [number] that holds a confidence or a weight is the
      rational ([Q]) that the double stands for.  The sums, products and
      quotients of [calculateOverallCompleteness] and of
      [aggregateClassifications] are rounded to binary64 as IEEE 754 rounds
      them ([Js.double], [Js.add], [Js.mul], [Js.div]); the points of
      [checkCompleteness] are exact rationals.  Comparisons and
      [Math.round] are exact on doubles.  Counts, scores stored in INTEGER
      columns and time values (milliseconds since the epoch) are integers
      ([Z]).
    - A JavaScript object used as a record is a [Record]; an object or a
      [Map] iterated in insertion order is an association list; the
      applications and sequences tables, read by key only, are [gmap]s, and
      the tables whose rows are read in order are lists of rows.
    - [new Date()] is an explicit argument [now]; what the host's [Date]
      does with strings and calendar months is the class [DateHost].
    - Code that may throw returns in [Exc]; the pipeline, which writes to
      the database before it throws, runs in the monad [Step].  Blob
      storage, the classifier and the model call are parameters. *)

From Stdlib Require Import ZArith QArith Qround Qpower Lia Lqa.
From Stdlib Require Import Ascii String DecimalString DecimalPos DecimalN DecimalZ.
From Stdlib Require Import Sorted Permutation.
From stdpp Require Import base decidable option list gmap strings.

Local Open Scope string_scope.
Local Open Scope list_scope.
Local Open Scope Z_scope.

(* ===================================================================== *)
(** ** JavaScript numbers and strings                                     *)
(* ===================================================================== *)

Module Js.

(** [a < b] on numbers. *)
Definition lt (a b : Q) : bool := negb (Qle_bool b a).

(** [a > b] on numbers. *)
Definition gt (a b : Q) : bool := lt b a.

(** [a >= b] on numbers. *)
Definition ge (a b : Q) : bool := Qle_bool b a.

(** [Math.min], [Math.max]. *)
Definition min (a b : Q) : Q := if Qle_bool a b then a else b.
Definition max (a b : Q) : Q := if Qle_bool a b then b else a.

(** [Math.round]: nearest integer, halves towards plus infinity. *)
Definition round (x : Q) : Z := Qfloor (x + (1 # 2)).

(** The nearest integer, a tie going to the even one. *)
Definition roundTiesToEven (x : Q) : Z :=
  let f := Qfloor x in
  match Qcompare (x - inject_Z f) (1 # 2) with
  | Lt => f
  | Gt => f + 1
  | Eq => if Z.even f then f else f + 1
  end.

(** The exponent [e] with [2^e <= x < 2^(e+1)], for a positive [x]. *)
Definition exponentOf (x : Q) : Z :=
  let e := Z.log2 (Qnum x) - Z.log2 (Zpos (Qden x)) in
  if Qle_bool (2 ^ e) x then e else e - 1.

(** A positive real rounded to binary64: 53 significant bits, and a unit
    in the last place that is no smaller than [2^-1074] (gradual
    underflow). *)
Definition doublePositive (x : Q) : Q :=
  let p := Z.max (exponentOf x - 52) (-1074) in
  (inject_Z (roundTiesToEven (x / 2 ^ p)) * 2 ^ p)%Q.

(** The double nearest to a real, ties to even, in lowest terms.  (The
    numbers below stay far from [2^1024], where a double overflows, and
    the sign of a zero is not kept: no operation below tells [-0] from
    [0].) *)
Definition double (x : Q) : Q :=
  let x := Qred x in
  match Qcompare x 0 with
  | Eq => 0%Q
  | Gt => Qred (doublePositive x)
  | Lt => Qred (- doublePositive (- x))
  end.

(** [a + b], [a * b] and [a / b] on doubles: the exact result, rounded. *)
Definition add (a b : Q) : Q := double (a + b).
Definition mul (a b : Q) : Q := double (a * b).
Definition div (a b : Q) : Q := double (a / b).

(** [String(n)] for an integer-valued number. *)
Definition toString (n : Z) : string := NilZero.string_of_int (Z.to_int n).

(** [s.padStart(n, c)]. *)
Definition padStart (n : nat) (c : ascii) (s : string) : string :=
  String.concat "" (repeat (String c "") (n - String.length s)) +:+ s.

(** The double-quote character as a one-character string. *)
Definition dquote : string := String (ascii_of_nat 34) EmptyString.

(** [xs.length] as a number. *)
Definition length {A} (xs : list A) : Z := Z.of_nat (List.length xs).

(** Own-property lookup [obj[key]] on an object kept in entry order. *)
Fixpoint get {A} (key : string) (obj : list (string * A)) : option A :=
  match obj with
  | [] => None
  | (k, v) :: rest => if String.eqb k key then Some v else get key rest
  end.

End Js.

(** A confidence as JavaScript holds it: a finite number or NaN. *)
Inductive Num :=
  | Fin (q : Q)
  | NaN.

Module Num.

Definition add (a b : Num) : Num :=
  match a, b with
  | Fin x, Fin y => Fin (Js.add x y)
  | _, _ => NaN
  end.

(** [a > b]: false as soon as one side is NaN. *)
Definition gt (a b : Num) : bool :=
  match a, b with
  | Fin x, Fin y => Js.gt x y
  | _, _ => false
  end.

Definition min (a b : Num) : Num :=
  match a, b with
  | Fin x, Fin y => Fin (Js.min x y)
  | _, _ => NaN
  end.

(** [sum / n] for a finite sum and a length [n]; [0 / 0] is NaN.  (A
    non-zero sum over an empty list does not arise.) *)
Definition divLength (sum : Num) (n : Z) : Num :=
  match sum with
  | Fin x => if n =? 0 then NaN else Fin (Js.div x (inject_Z n))
  | NaN => NaN
  end.

End Num.

(* ===================================================================== *)
(** ** The host's Date                                                    *)
(* ===================================================================== *)

(** A time value is a number of milliseconds since the epoch.
    [Date_parse s] is the time value of [new Date(s)], [None] for an
    Invalid Date (whose comparisons are all false).  [Date_minusMonths t k]
    is the time value of a date [d] with time value [t] after
    [d.setMonth(d.getMonth() - k)]. *)
Class DateHost := {
  Date_parse : string -> option Z;
  Date_minusMonths : Z -> Z -> Z
}.

Module UTC.

Definition msPerDay : Z := 86400000.

(** Day number of a proleptic Gregorian date ([m] from 1 to 12). *)
Definition days_from_civil (y m d : Z) : Z :=
  let y' := if m <=? 2 then y - 1 else y in
  let era := y' / 400 in
  let yoe := y' - era * 400 in
  let mp := (m + 9) mod 12 in
  let doy := (153 * mp + 2) / 5 + d - 1 in
  let doe := yoe * 365 + yoe / 4 - yoe / 100 + doy in
  era * 146097 + doe - 719468.

(** Year, month (1 to 12) and day of a day number. *)
Definition civil_from_days (z : Z) : Z * Z * Z :=
  let z' := z + 719468 in
  let era := z' / 146097 in
  let doe := z' - era * 146097 in
  let yoe := (doe - doe / 1460 + doe / 36524 - doe / 146096) / 365 in
  let doy := doe - (365 * yoe + yoe / 4 - yoe / 100) in
  let mp := (5 * doy + 2) / 153 in
  let d := doy - (153 * mp + 2) / 5 + 1 in
  let m := if mp <? 10 then mp + 3 else mp - 9 in
  let y := yoe + era * 400 in
  (if m <=? 2 then y + 1 else y, m, d).

(** MakeDay(year, month, date) with a month index that may lie outside
    0..11; the day of the month carries over into the next month. *)
Definition makeDay (year month0 date : Z) : Z :=
  let ym := year + month0 / 12 in
  let mn := month0 mod 12 in
  days_from_civil ym (mn + 1) 1 + date - 1.

Definition minusMonths (t k : Z) : Z :=
  let day := t / msPerDay in
  let timeInDay := t mod msPerDay in
  let '(y, m, d) := civil_from_days day in
  makeDay y (m - 1 - k) d * msPerDay + timeInDay.

Definition digit (c : ascii) : option Z :=
  let n := Z.of_nat (nat_of_ascii c) in
  if (48 <=? n) && (n <=? 57) then Some (n - 48) else None.

Fixpoint digits (acc : Z) (cs : list ascii) : option Z :=
  match cs with
  | [] => Some acc
  | c :: rest =>
      match digit c with
      | Some n => digits (10 * acc + n) rest
      | None => None
      end
  end.

Definition isLeap (y : Z) : bool :=
  ((y mod 4 =? 0) && negb (y mod 100 =? 0)) || (y mod 400 =? 0).

Definition daysInMonth (y m : Z) : Z :=
  if m =? 2 then (if isLeap y then 29 else 28)
  else if (m =? 4) || (m =? 6) || (m =? 9) || (m =? 11) then 30 else 31.

(** The date-only ISO form [YYYY-MM-DD], read as midnight UTC.  Every
    other string is an Invalid Date for this host. *)
Definition parse (s : string) : option Z :=
  match list_ascii_of_string s with
  | [y1; y2; y3; y4; "-"%char; m1; m2; "-"%char; d1; d2] =>
      match digits 0 [y1; y2; y3; y4], digits 0 [m1; m2], digits 0 [d1; d2] with
      | Some y, Some m, Some d =>
          if (1 <=? m) && (m <=? 12) && (1 <=? d) && (d <=? daysInMonth y m)
          then Some (days_from_civil y m d * msPerDay)
          else None
      | _, _, _ => None
      end
  | _ => None
  end.

(** A host whose local time zone is UTC and whose string parser accepts
    the date-only ISO form that the extraction prompt asks the model for. *)
Definition host : DateHost :=
  {| Date_parse := parse; Date_minusMonths := minusMonths |}.

End UTC.

(* ===================================================================== *)
(** ** Backend types (types/index.ts)                                     *)
(* ===================================================================== *)

Inductive DocumentCategory :=
  | identity | income | bank_statement | welfare_benefit | medical
  | tenancy | proof_of_address | other | unknown.

Global Instance DocumentCategory_eq_dec : EqDecision DocumentCategory.
Proof. solve_decision. Defined.

Inductive DocumentProcessingStatus :=
  | uploaded | classifying | classified | extracting | extracted
  | validation_failed | completed | error.

Global Instance DocumentProcessingStatus_eq_dec : EqDecision DocumentProcessingStatus.
Proof. solve_decision. Defined.

Inductive ApplicationStatus :=
  | draft | documents_pending | documents_processing | documents_review
  | eligibility_check | approved | declined.

(** [ExtractedField.value]: string | number | boolean | null.  [VOther]
    stands for a JSON array or object that the model put there. *)
Inductive FieldValue :=
  | VNull
  | VString (s : string)
  | VNumber (n : Q)
  | VBoolean (b : bool)
  | VOther.

Record ExtractedField := {
  value : FieldValue;
  confidence : Q;
  source : option string;
  fieldIssues : option (list string)
}.

Record ExtractedDocumentData := {
  documentType : DocumentCategory;
  extractedConfidence : Num;
  extractedAt : string;
  fields : list (string * ExtractedField)
}.

(** The columns of a document that the services below read. *)
Record Document := {
  id : string;
  applicationId : string;
  docCluid : string;
  originalFileName : string;
  s3Key : string;
  category : DocumentCategory;
  classificationConfidence : Q;
  processingStatus : DocumentProcessingStatus;
  extractedData : option ExtractedDocumentData;
  extractionVersion : Z;
  completenessScore : Z;
  completenessIssues : list string
}.

(** The category as the string that the code and the database hold. *)
Definition categoryName (c : DocumentCategory) : string :=
  match c with
  | identity => "identity"
  | income => "income"
  | bank_statement => "bank_statement"
  | welfare_benefit => "welfare_benefit"
  | medical => "medical"
  | tenancy => "tenancy"
  | proof_of_address => "proof_of_address"
  | other => "other"
  | unknown => "unknown"
  end.

Record HouseholdMember := {
  memberName : string;
  requiresSupport : option bool
}.

Record ApplicantData := {
  applicantName : string;
  householdMembers : option (list HouseholdMember)
}.

Inductive ItemStatus := Missing | Pending | Verified | Issues.

Global Instance ItemStatus_eq_dec : EqDecision ItemStatus.
Proof. solve_decision. Defined.

Record ChecklistItem := {
  required : bool;
  status : ItemStatus;
  documentIds : list string;
  issues : option (list string)
}.

Record DocumentChecklistStatus := {
  cl_identity : ChecklistItem;
  cl_income : ChecklistItem;
  cl_bankStatements : ChecklistItem;
  cl_proofOfAddress : ChecklistItem;
  cl_welfareBenefit : option ChecklistItem;
  cl_medicalEvidence : option ChecklistItem;
  cl_tenancyAgreement : option ChecklistItem
}.

(** [Object.entries(checklistStatus)]. *)
Definition Object_entries (s : DocumentChecklistStatus)
  : list (string * option ChecklistItem) :=
  [ ("identity", Some (cl_identity s));
    ("income", Some (cl_income s));
    ("bankStatements", Some (cl_bankStatements s));
    ("proofOfAddress", Some (cl_proofOfAddress s));
    ("welfareBenefit", cl_welfareBenefit s);
    ("medicalEvidence", cl_medicalEvidence s);
    ("tenancyAgreement", cl_tenancyAgreement s) ].

(* ===================================================================== *)
(** ** Checklist service (checklist.service.ts)                           *)
(* ===================================================================== *)

Record IdentityRequirements := {
  id_required : bool;
  id_minDocuments : Z;
  id_validityCheck : option bool
}.

Record IncomeRequirements := {
  inc_required : bool;
  inc_minDocuments : Z;
  inc_minMonthsCoverage : option Z
}.

Record BankStatementRequirements := {
  bank_required : bool;
  bank_minMonthsCoverage : Z
}.

Record ProofOfAddressRequirements := {
  poa_required : bool;
  poa_maxAgeMonths : Z
}.

Record ConditionalRequirements := {
  cond_required : bool;
  cond_conditional : option string
}.

Record ChecklistRequirements := {
  req_identity : IdentityRequirements;
  req_income : IncomeRequirements;
  req_bankStatements : BankStatementRequirements;
  req_proofOfAddress : ProofOfAddressRequirements;
  req_welfareBenefit : ConditionalRequirements;
  req_medicalEvidence : ConditionalRequirements;
  req_tenancyAgreement : ConditionalRequirements
}.

Definition DEFAULT_REQUIREMENTS : ChecklistRequirements := {|
  req_identity :=
    {| id_required := true; id_minDocuments := 1; id_validityCheck := Some true |};
  req_income :=
    {| inc_required := true; inc_minDocuments := 1; inc_minMonthsCoverage := Some 3 |};
  req_bankStatements := {| bank_required := true; bank_minMonthsCoverage := 3 |};
  req_proofOfAddress := {| poa_required := true; poa_maxAgeMonths := 3 |};
  req_welfareBenefit :=
    {| cond_required := false; cond_conditional := Some "If receiving benefits" |};
  req_medicalEvidence :=
    {| cond_required := false; cond_conditional := Some "If medical/disability needs" |};
  req_tenancyAgreement :=
    {| cond_required := false; cond_conditional := Some "If currently renting" |}
|}.

(** [issues.length > 0 ? issues : undefined] *)
Definition issuesOrUndefined (issues : list string) : option (list string) :=
  match issues with [] => None | _ => Some issues end.

(** [issues.length > 0 ? 'pending' : 'verified'] *)
Definition pendingOrVerified (issues : list string) : ItemStatus :=
  match issues with [] => Verified | _ => Pending end.

(** [doc.extractedData?.fields?.<name>], then the test
    [f.value && typeof f.value === 'string'] on its value: the string that
    is handed to [new Date], if any. *)
Definition dateString (name : string) (doc : Document) : option string :=
  match extractedData doc with
  | None => None
  | Some data =>
      match Js.get name (fields data) with
      | Some f =>
          match value f with
          | VString s => if String.eqb s "" then None else Some s
          | _ => None
          end
      | None => None
      end
  end.

Section ChecklistService.

Context {host : DateHost}.
Variable requirements : ChecklistRequirements.

(** The current time, [new Date()]; one reading serves a whole
    evaluation. *)
Variable now : Z.

(** The loop of [groupDocumentsByCategory]: [groups[c]] is created on the
    first document of category [c] and every document is pushed on the
    group of its category.  A category without a group reads as the
    empty list (the [|| []] of the caller). *)
Definition groupDocumentsByCategory (documents : list Document)
  : DocumentCategory -> list Document :=
  fold_left
    (fun groups doc c =>
       if decide (c = category doc) then groups c ++ [doc] else groups c)
    documents (fun _ => []).

(** [expiryDate < new Date()] for the parsed expiry date of a document. *)
Definition hasExpired (doc : Document) : bool :=
  match dateString "expiryDate" doc with
  | Some s =>
      match Date_parse s with
      | Some t => t <? now
      | None => false
      end
  | None => false
  end.

(** One iteration of the loop of [evaluateIdentityDocuments] over the
    pair [(issues, validDocs)]. *)
Definition identityStep (acc : list string * list Document) (doc : Document)
  : list string * list Document :=
  let '(issues, validDocs) := acc in
  let req := req_identity requirements in
  if bool_decide (processingStatus doc = error)
     || bool_decide (processingStatus doc = validation_failed)
  then (issues ++ [originalFileName doc +:+ ": Processing failed"], validDocs)
  else
    let issues1 :=
      if Js.lt (classificationConfidence doc) (7 # 10)
      then issues ++ [originalFileName doc +:+ ": Low classification confidence"]
      else issues in
    if match id_validityCheck req with Some true => hasExpired doc | _ => false end
    then (issues1 ++ [originalFileName doc +:+ ": Document has expired"], validDocs)
    else
      let issues2 :=
        if completenessScore doc <? 70
        then issues1 ++ [originalFileName doc +:+ ": Incomplete data extraction ("
                         +:+ Js.toString (completenessScore doc) +:+ "%)"]
        else issues1 in
      (issues2, validDocs ++ [doc]).

Definition evaluateIdentityDocuments (documents : list Document) : ChecklistItem :=
  let req := req_identity requirements in
  match documents with
  | [] =>
      {| required := id_required req; status := Missing; documentIds := [];
         issues := Some ["No identity document uploaded"] |}
  | _ =>
      let '(issues, validDocs) := fold_left identityStep documents ([], []) in
      if Js.length validDocs <? id_minDocuments req
      then
        {| required := id_required req; status := Issues;
           documentIds := map id documents;
           issues := Some (match issues with
                           | [] => ["Valid identity document required"]
                           | _ => issues
                           end) |}
      else
        {| required := id_required req; status := pendingOrVerified issues;
           documentIds := map id documents;
           issues := issuesOrUndefined issues |}
  end.

(** The issues pushed by a loop of the form
    [for (doc of documents) if (doc.completenessScore < t) issues.push(...)]. *)
Definition lowScoreIssues (threshold : Z) (suffix : string)
    (documents : list Document) (issues : list string) : list string :=
  fold_left
    (fun issues doc =>
       if completenessScore doc <? threshold
       then issues ++ [originalFileName doc +:+ suffix]
       else issues)
    documents issues.

Definition evaluateIncomeDocuments (documents : list Document) : ChecklistItem :=
  let req := req_income requirements in
  match documents with
  | [] =>
      {| required := inc_required req; status := Missing; documentIds := [];
         issues := Some ["No income documents uploaded"] |}
  | _ =>
      let issues0 :=
        if Js.length documents <? inc_minDocuments req
        then ["Need at least " +:+ Js.toString (inc_minDocuments req)
              +:+ " income document(s)"]
        else [] in
      let issues1 :=
        lowScoreIssues 70 ": Missing key income information" documents issues0 in
      let issues2 :=
        match inc_minMonthsCoverage req with
        | Some months =>
            if negb (months =? 0) && (0 <? Js.length documents)
               && (Js.length documents <? months)
            then issues1 ++ ["Recommend " +:+ Js.toString months
                             +:+ " months of payslips for income verification"]
            else issues1
        | None => issues1
        end in
      {| required := inc_required req; status := pendingOrVerified issues2;
         documentIds := map id documents; issues := issuesOrUndefined issues2 |}
  end.

Definition evaluateBankStatements (documents : list Document) : ChecklistItem :=
  let req := req_bankStatements requirements in
  match documents with
  | [] =>
      {| required := bank_required req; status := Missing; documentIds := [];
         issues := Some ["Bank statements for the last "
                         +:+ Js.toString (bank_minMonthsCoverage req)
                         +:+ " months required"] |}
  | _ =>
      let issues0 :=
        if Js.length documents <? bank_minMonthsCoverage req
        then [Js.toString (bank_minMonthsCoverage req)
              +:+ " months of statements recommended, only "
              +:+ Js.toString (Js.length documents) +:+ " provided"]
        else [] in
      let issues1 :=
        lowScoreIssues 60 ": Key statement details missing" documents issues0 in
      {| required := bank_required req; status := pendingOrVerified issues1;
         documentIds := map id documents; issues := issuesOrUndefined issues1 |}
  end.

(** [docDate < maxAge] where [maxAge] is now minus [maxAgeMonths] months. *)
Definition isTooOld (doc : Document) : bool :=
  match dateString "documentDate" doc with
  | Some s =>
      match Date_parse s with
      | Some t =>
          t <? Date_minusMonths now (poa_maxAgeMonths (req_proofOfAddress requirements))
      | None => false
      end
  | None => false
  end.

Definition evaluateProofOfAddress (documents : list Document) : ChecklistItem :=
  let req := req_proofOfAddress requirements in
  match documents with
  | [] =>
      {| required := poa_required req; status := Missing; documentIds := [];
         issues := Some ["Proof of current address required (utility bill, council tax, etc.)"] |}
  | _ =>
      let issues :=
        fold_left
          (fun issues doc =>
             if isTooOld doc
             then issues ++ [originalFileName doc +:+ ": Document is older than "
                             +:+ Js.toString (poa_maxAgeMonths req) +:+ " months"]
             else issues)
          documents [] in
      {| required := poa_required req; status := pendingOrVerified issues;
         documentIds := map id documents; issues := issuesOrUndefined issues |}
  end.

Definition evaluateWelfareBenefit (documents : list Document)
    (applicantData : option ApplicantData) : ChecklistItem :=
  let req := req_welfareBenefit requirements in
  let isRequired := cond_required req in
  match documents with
  | [] =>
      {| required := isRequired; status := Missing; documentIds := [];
         issues := if isRequired then Some ["Benefits documentation required"] else None |}
  | _ =>
      let issues := lowScoreIssues 70 ": Missing benefit details" documents [] in
      {| required := isRequired; status := pendingOrVerified issues;
         documentIds := map id documents; issues := issuesOrUndefined issues |}
  end.

(** [applicantData?.householdMembers?.some((m) => m.requiresSupport) || false] *)
Definition needsMedicalEvidence (applicantData : option ApplicantData) : bool :=
  match applicantData with
  | Some a =>
      match householdMembers a with
      | Some members =>
          existsb (fun m => match requiresSupport m with Some true => true | _ => false end)
                  members
      | None => false
      end
  | None => false
  end.

Definition evaluateMedicalEvidence (documents : list Document)
    (applicantData : option ApplicantData) : ChecklistItem :=
  let req := req_medicalEvidence requirements in
  let isRequired := cond_required req || needsMedicalEvidence applicantData in
  match documents with
  | [] =>
      {| required := isRequired; status := Missing; documentIds := [];
         issues := if isRequired
                   then Some ["Medical evidence required for support needs assessment"]
                   else None |}
  | _ =>
      {| required := isRequired; status := Verified;
         documentIds := map id documents; issues := None |}
  end.

Definition evaluateTenancy (documents : list Document)
    (applicantData : option ApplicantData) : ChecklistItem :=
  let req := req_tenancyAgreement requirements in
  match documents with
  | [] =>
      {| required := cond_required req; status := Missing; documentIds := [];
         issues := if cond_required req
                   then Some ["Current tenancy agreement required"] else None |}
  | _ =>
      let issues := lowScoreIssues 60 ": Missing tenancy details" documents [] in
      {| required := cond_required req; status := pendingOrVerified issues;
         documentIds := map id documents; issues := issuesOrUndefined issues |}
  end.

Definition evaluateChecklist (documents : list Document)
    (applicantData : option ApplicantData) : DocumentChecklistStatus :=
  let documentsByCategory := groupDocumentsByCategory documents in
  {| cl_identity := evaluateIdentityDocuments (documentsByCategory identity);
     cl_income := evaluateIncomeDocuments (documentsByCategory income);
     cl_bankStatements := evaluateBankStatements (documentsByCategory bank_statement);
     cl_proofOfAddress := evaluateProofOfAddress (documentsByCategory proof_of_address);
     cl_welfareBenefit :=
       Some (evaluateWelfareBenefit (documentsByCategory welfare_benefit) applicantData);
     cl_medicalEvidence :=
       Some (evaluateMedicalEvidence (documentsByCategory medical) applicantData);
     cl_tenancyAgreement :=
       Some (evaluateTenancy (documentsByCategory tenancy) applicantData) |}.

End ChecklistService.

(** One iteration of the loop of [calculateOverallCompleteness] over
    [(totalWeight, achievedWeight)]. *)
Definition completenessStep (acc : Q * Q) (entry : string * option ChecklistItem)
  : Q * Q :=
  let '(totalWeight, achievedWeight) := acc in
  match snd entry with
  | None => acc
  | Some item =>
      let weight : Q := (if required item then 2 else 1)%Q in
      if negb (required item) && bool_decide (status item = Missing)
      then acc
      else
        let totalWeight := Js.add totalWeight weight in
        match status item with
        | Verified => (totalWeight, Js.add achievedWeight weight)
        | Pending => (totalWeight, Js.add achievedWeight (Js.mul weight (1 # 2)))
        | Issues => (totalWeight, Js.add achievedWeight (Js.mul weight (1 # 4)))
        | Missing => (totalWeight, achievedWeight)
        end
  end.

(** The body of [calculateOverallCompleteness] on the entries of a status. *)
Definition completenessOfEntries (items : list (string * option ChecklistItem)) : Z :=
  let '(totalWeight, achievedWeight) := fold_left completenessStep items (0%Q, 0%Q) in
  if Js.gt totalWeight 0%Q
  then Js.round (Js.mul (Js.div achievedWeight totalWeight) 100)
  else 0.

Definition calculateOverallCompleteness (checklistStatus : DocumentChecklistStatus) : Z :=
  completenessOfEntries (Object_entries checklistStatus).

Definition categoryNames : list (string * string) :=
  [ ("identity", "Identity document (passport or driving licence)");
    ("income", "Proof of income (payslips or employment letter)");
    ("bankStatements", "Bank statements (last 3 months)");
    ("proofOfAddress", "Proof of current address");
    ("welfareBenefit", "Benefits letter (if applicable)");
    ("medicalEvidence", "Medical evidence (if applicable)");
    ("tenancyAgreement", "Current tenancy agreement (if renting)") ].

Definition getMissingDocuments (checklistStatus : DocumentChecklistStatus) : list string :=
  fold_left
    (fun missing entry =>
       match snd entry with
       | Some item =>
           if required item && bool_decide (status item = Missing)
           then missing ++ [match Js.get (fst entry) categoryNames with
                            | Some name => if String.eqb name "" then fst entry else name
                            | None => fst entry
                            end]
           else missing
       | None => missing
       end)
    (Object_entries checklistStatus) [].

(** [getItemsNeedingReview]: an item is listed when it is pending or has
    issues and carries an issue list ([item.issues] is truthy as soon as it
    is defined, an empty array included). *)
Definition getItemsNeedingReview (checklistStatus : DocumentChecklistStatus)
  : list (string * list string) :=
  fold_left
    (fun needsReview entry =>
       match snd entry with
       | Some item =>
           match issues item with
           | Some own =>
               if bool_decide (status item = Issues)
                  || bool_decide (status item = Pending)
               then needsReview ++ [(fst entry, own)]
               else needsReview
           | None => needsReview
           end
       | None => needsReview
       end)
    (Object_entries checklistStatus) [].

(* ===================================================================== *)
(** ** Exceptions                                                         *)
(* ===================================================================== *)

(** What a [catch] clause receives: an [Error] with its message, or some
    other thrown value. *)
Inductive Thrown :=
  | ThrownError (message : string)
  | ThrownOther.

(** A computation that returns normally ([inr]) or throws ([inl]). *)
Definition Exc (A : Type) : Type := Thrown + A.

Definition throw {A} (e : Thrown) : Exc A := inl e.

Definition bindExc {A B} (m : Exc A) (k : A -> Exc B) : Exc B :=
  match m with
  | inl e => inl e
  | inr a => k a
  end.

Notation "'let*' x ':=' m 'in' k" := (bindExc m (fun x => k))
  (at level 10, x name, m at level 100, k at level 200).

(** [try { body } catch (error) { handler(error) }] around a body whose
    normal result is returned. *)
Definition tryCatch {A} (body : Exc A) (handler : Thrown -> A) : A :=
  match body with
  | inl e => handler e
  | inr a => a
  end.

(** [error instanceof Error ? error.message : 'Unknown error'] *)
Definition errorMessage (e : Thrown) : string :=
  match e with
  | ThrownError message => message
  | ThrownOther => "Unknown error"
  end.

(* ===================================================================== *)
(** ** Extraction service (extraction.service.ts)                         *)
(* ===================================================================== *)

Inductive Severity := SevError | SevWarning | SevInfo.

Record ExtractionIssue := {
  issueField : string;
  severity : Severity;
  issueMessage : string;
  suggestion : option string
}.

Record ExtractionResult := {
  success : bool;
  resultDocumentType : DocumentCategory;
  resultFields : list (string * ExtractedField);
  resultCompletenessScore : Z;
  resultIssues : list ExtractionIssue
}.

(** A raw value that is neither null nor an object with a [value]
    property. *)
Inductive Scalar :=
  | SString (s : string)
  | SNumber (n : Q)
  | SBoolean (b : bool)
  | SOther.

Definition scalarValue (s : Scalar) : FieldValue :=
  match s with
  | SString s => VString s
  | SNumber n => VNumber n
  | SBoolean b => VBoolean b
  | SOther => VOther
  end.

(** One property value of the parsed model response, seen through the cast
    [value as ExtractedField]: [rawConfidence] is [None] when the property
    is absent or null, a number otherwise. *)
Inductive RawValue :=
  | RawNull
  | RawField (rawValue : FieldValue) (rawConfidence : option Q)
             (rawSource : option string) (rawIssues : option (list string))
  | RawScalar (s : Scalar).

(** [c || 0.5] on an optional number. *)
Definition orDefault (c : option Q) (d : Q) : Q :=
  match c with
  | Some q => if Qeq_bool q 0 then d else q
  | None => d
  end.

(** The body of the loop of [processExtractedFields] for one property. *)
Definition processExtractedField (raw : RawValue) : ExtractedField :=
  match raw with
  | RawNull =>
      {| value := VNull; confidence := 0; source := None; fieldIssues := None |}
  | RawField v c s i =>
      {| value := v;
         confidence := Js.max 0 (Js.min 1 (orDefault c (5 # 10)));
         source := s;
         fieldIssues := i |}
  | RawScalar s =>
      {| value := scalarValue s; confidence := 7 # 10;
         source := None; fieldIssues := None |}
  end.

(** [fields[key] = v] on an object kept in entry order. *)
Fixpoint setProperty {A} (key : string) (v : A) (obj : list (string * A))
  : list (string * A) :=
  match obj with
  | [] => [(key, v)]
  | (k, x) :: rest =>
      if String.eqb k key then (k, v) :: rest else (k, x) :: setProperty key v rest
  end.

Definition processExtractedFields (rawExtraction : list (string * RawValue))
    (category : DocumentCategory) : list (string * ExtractedField) :=
  fold_left
    (fun fields entry => setProperty (fst entry) (processExtractedField (snd entry)) fields)
    rawExtraction [].

Definition REQUIRED_FIELDS (category : DocumentCategory) : list string :=
  match category with
  | identity => ["fullName"; "dateOfBirth"; "documentNumber"; "expiryDate"]
  | income => ["employerName"; "employeeName"; "grossPay"; "netPay"; "payDate"]
  | bank_statement => ["bankName"; "accountHolder"; "statementPeriodStart"; "closingBalance"]
  | welfare_benefit =>
      ["benefitType"; "recipientName"; "awardAmount"; "letterDate"; "issuingBody"]
  | medical => ["issuerName"; "patientName"; "letterDate"]
  | tenancy => ["tenantName"; "propertyAddress"; "landlordName"]
  | proof_of_address => ["recipientName"; "address"; "documentDate"; "issuer"]
  | other => ["documentDescription"]
  | unknown => ["qualityIssues"]
  end.

Definition isUpper (c : ascii) : bool :=
  let n := nat_of_ascii c in (65 <=? n)%nat && (n <=? 90)%nat.

Definition isLower (c : ascii) : bool :=
  let n := nat_of_ascii c in (97 <=? n)%nat && (n <=? 122)%nat.

Definition toUpper (c : ascii) : ascii :=
  if isLower c then ascii_of_nat (nat_of_ascii c - 32) else c.

Definition isSpace (c : ascii) : bool :=
  let n := nat_of_ascii c in
  (n =? 32)%nat || ((9 <=? n)%nat && (n <=? 13)%nat).

Fixpoint trimStart (s : string) : string :=
  match s with
  | String c rest => if isSpace c then trimStart rest else s
  | EmptyString => EmptyString
  end.

Fixpoint trimEnd (s : string) : string :=
  match s with
  | String c rest =>
      match trimEnd rest with
      | EmptyString => if isSpace c then EmptyString else String c EmptyString
      | rest' => String c rest'
      end
  | EmptyString => EmptyString
  end.

(** [.replace(/([A-Z])/g, ' $1').replace(/_/g, ' ')] on ASCII strings. *)
Fixpoint spaceOut (s : string) : string :=
  match s with
  | String c rest =>
      if isUpper c then String " " (String c (spaceOut rest))
      else if Ascii.eqb c "_" then String " " (spaceOut rest)
      else String c (spaceOut rest)
  | EmptyString => EmptyString
  end.

Definition formatFieldName (fieldName : string) : string :=
  let s := spaceOut fieldName in
  let s := match s with
           | String c rest => String (toUpper c) rest
           | EmptyString => EmptyString
           end in
  trimEnd (trimStart s).

Definition fieldSuggestions (category : DocumentCategory) : list (string * string) :=
  match category with
  | identity =>
      [ ("fullName", "Check the main page of the identity document");
        ("dateOfBirth", "Usually found near the photo");
        ("documentNumber", "Located at the top or bottom of the document");
        ("expiryDate", "Check the document validity section") ]
  | income =>
      [ ("employerName", "Should be at the top of the payslip");
        ("grossPay", "Look for " +:+ Js.dquote +:+ "Gross Pay" +:+ Js.dquote
                     +:+ " or " +:+ Js.dquote +:+ "Total Earnings" +:+ Js.dquote);
        ("netPay", "Look for " +:+ Js.dquote +:+ "Net Pay" +:+ Js.dquote
                   +:+ " or " +:+ Js.dquote +:+ "Take Home Pay" +:+ Js.dquote) ]
  | bank_statement =>
      [ ("bankName", "Usually in the header/logo area");
        ("closingBalance", "Found at the end of the statement") ]
  | welfare_benefit =>
      [ ("awardAmount", "Look for the payment amount section");
        ("benefitType", "Usually stated at the top of the letter") ]
  | _ => []
  end.

Definition getFieldSuggestion (fieldName : string) (category : DocumentCategory)
  : string :=
  match Js.get fieldName (fieldSuggestions category) with
  | Some s => s
  | None => "Please upload a clearer image of this section"
  end.

(** [!field || field.value === null || field.value === ''] *)
Definition isMissing (field : option ExtractedField) : bool :=
  match field with
  | None => true
  | Some f =>
      match value f with
      | VNull => true
      | VString s => String.eqb s ""
      | _ => false
      end
  end.

Section ExtractionService.

(** [config.documents.extractionThreshold] *)
Variable extractionThreshold : Q.

(** One iteration of the loop over the required fields, on the pair
    [(issues, filledRequired)]. *)
Definition requiredFieldStep (fields : list (string * ExtractedField))
    (category : DocumentCategory)
    (acc : list ExtractionIssue * Q) (fieldName : string)
  : list ExtractionIssue * Q :=
  let '(issues, filledRequired) := acc in
  let field := Js.get fieldName fields in
  if isMissing field then
    (issues ++ [{| issueField := fieldName; severity := SevError;
                   issueMessage := "Required field " +:+ Js.dquote
                                   +:+ formatFieldName fieldName
                                   +:+ Js.dquote +:+ " is missing";
                   suggestion := Some (getFieldSuggestion fieldName category) |}],
     filledRequired)
  else
    match field with
    | Some f =>
        if Js.lt (confidence f) extractionThreshold then
          (issues ++ [{| issueField := fieldName; severity := SevWarning;
                         issueMessage :=
                           "Field " +:+ Js.dquote +:+ formatFieldName fieldName
                           +:+ Js.dquote +:+ " has low confidence ("
                           +:+ Js.toString (Js.round (confidence f * 100)) +:+ "%)";
                         suggestion := Some "Please verify this value manually" |}],
           (filledRequired + (1 # 2))%Q)
        else (issues, (filledRequired + 1)%Q)
    | None => acc
    end.

(** One iteration of the loop over the entries of [fields]: the issues
    that a field carries become warnings. *)
Definition fieldIssuesStep (issues : list ExtractionIssue)
    (entry : string * ExtractedField) : list ExtractionIssue :=
  match fieldIssues (snd entry) with
  | Some own =>
      issues ++ map (fun issue =>
                       {| issueField := fst entry; severity := SevWarning;
                          issueMessage := issue; suggestion := None |}) own
  | None => issues
  end.

Definition checkCompleteness (fields : list (string * ExtractedField))
    (requiredFields : list string) (category : DocumentCategory)
  : Z * list ExtractionIssue :=
  let totalRequired := Js.length requiredFields in
  let '(issues, filledRequired) :=
    fold_left (requiredFieldStep fields category) requiredFields ([], 0%Q) in
  let issues := fold_left fieldIssuesStep fields issues in
  let completenessScore :=
    if 0 <? totalRequired
    then Js.round ((filledRequired / inject_Z totalRequired) * 100)%Q
    else 100 in
  (completenessScore, issues).

(** [JSON.parse(content)] followed by [Object.entries] of the parsed
    value, either of which may throw. *)
Variable parseExtraction : string -> Exc (list (string * RawValue)).

(** [extractDocument] for a given outcome of the awaited model call:
    the call throws, or it resolves with
    [response.choices[0]?.message?.content]. *)
Definition extractDocument (modelCall : Exc (option string))
    (category : DocumentCategory) : ExtractionResult :=
  let requiredFields := REQUIRED_FIELDS category in
  tryCatch
    (let* content := modelCall in
     let* content :=
       match content with
       | Some c =>
           if String.eqb c ""
           then throw (ThrownError "No response from extraction model")
           else inr c
       | None => throw (ThrownError "No response from extraction model")
       end in
     let* rawExtraction := parseExtraction content in
     let fields := processExtractedFields rawExtraction category in
     let '(completenessScore, issues) :=
       checkCompleteness fields requiredFields category in
     inr {| success := true; resultDocumentType := category;
            resultFields := fields;
            resultCompletenessScore := completenessScore;
            resultIssues := issues |})
    (fun error =>
       {| success := false; resultDocumentType := category;
          resultFields := [];
          resultCompletenessScore := 0;
          resultIssues :=
            [{| issueField := "_general"; severity := SevError;
                issueMessage := "Extraction failed: " +:+ errorMessage error;
                suggestion := None |}] |}).

End ExtractionService.

(* ===================================================================== *)
(** ** Classification service (classification.service.ts)                 *)
(* ===================================================================== *)

Record ClassificationResult := {
  resultCategory : DocumentCategory;
  resultConfidence : Num;
  subtype : option string;
  reasoning : string;
  alternativeCategories : option (list (DocumentCategory * Num))
}.

(** [Map.prototype.get] and [Map.prototype.set] on a map kept in insertion
    order: setting an existing key keeps its position. *)
Fixpoint Map_get (k : DocumentCategory) (m : list (DocumentCategory * Num))
  : option Num :=
  match m with
  | [] => None
  | (k', v) :: rest => if decide (k' = k) then Some v else Map_get k rest
  end.

Fixpoint Map_set (k : DocumentCategory) (v : Num) (m : list (DocumentCategory * Num))
  : list (DocumentCategory * Num) :=
  match m with
  | [] => [(k, v)]
  | (k', v') :: rest =>
      if decide (k' = k) then (k, v) :: rest else (k', v') :: Map_set k v rest
  end.

(** [categoryScores.get(c) || 0]: an absent score and a NaN score read
    as 0. *)
Definition scoreOrZero (s : option Num) : Num :=
  match s with
  | Some (Fin q) => Fin q
  | Some NaN => Fin 0
  | None => Fin 0
  end.

(** The first loop of [aggregateClassifications]. *)
Definition categoryScoresOf (results : list ClassificationResult)
  : list (DocumentCategory * Num) :=
  fold_left
    (fun categoryScores result =>
       let currentScore := scoreOrZero (Map_get (resultCategory result) categoryScores) in
       Map_set (resultCategory result)
               (Num.add currentScore (resultConfidence result)) categoryScores)
    results [].

(** The second loop: the pair [(bestCategory, bestScore)]. *)
Definition bestOf (categoryScores : list (DocumentCategory * Num))
  : DocumentCategory * Num :=
  fold_left
    (fun best entry =>
       if Num.gt (snd entry) (snd best) then (fst entry, snd entry) else best)
    categoryScores (unknown, Fin 0).

(** [Array.prototype.sort] with a comparator, as a stable insertion sort:
    [positive a b] says that the comparator is positive on [(a, b)], so
    that [b] has to come before [a]. *)
Section Sort.
Context {A : Type} (positive : A -> A -> bool).

Fixpoint insertSorted (x : A) (sorted : list A) : list A :=
  match sorted with
  | [] => [x]
  | y :: rest => if positive x y then y :: insertSorted x rest else x :: sorted
  end.

Definition sortBy (xs : list A) : list A := foldr insertSorted [] xs.
End Sort.

(** [(a, b) => b.confidence - a.confidence] is positive. *)
Definition byConfidenceDesc (a b : ClassificationResult) : bool :=
  Num.gt (resultConfidence b) (resultConfidence a).

Definition byAltConfidenceDesc (a b : DocumentCategory * Num) : bool :=
  Num.gt (snd b) (snd a).

Definition getAlternativeCategories (categoryScores : list (DocumentCategory * Num))
    (bestCategory : DocumentCategory) : list (DocumentCategory * Num) :=
  let alternatives :=
    fold_left
      (fun alternatives entry =>
         if negb (bool_decide (fst entry = bestCategory))
            && Num.gt (snd entry) (Fin (Js.double (3 # 10)))
         then alternatives ++ [(fst entry, Num.min (snd entry) (Fin 1))]
         else alternatives)
      categoryScores [] in
  take 2 (sortBy byAltConfidenceDesc alternatives).

Definition aggregateClassifications (results : list ClassificationResult)
  : ClassificationResult :=
  let categoryScores := categoryScoresOf results in
  let bestCategory := fst (bestOf categoryScores) in
  let relevantResults :=
    filter (fun r => resultCategory r = bestCategory) results in
  let avgConfidence :=
    Num.divLength
      (fold_left (fun sum r => Num.add sum (resultConfidence r)) relevantResults (Fin 0))
      (Js.length relevantResults) in
  let bestResult := head (sortBy byConfidenceDesc relevantResults) in
  {| resultCategory := bestCategory;
     resultConfidence := avgConfidence;
     subtype := match bestResult with Some r => subtype r | None => None end;
     reasoning :=
       "Aggregated from " +:+ Js.toString (Js.length results) +:+ " pages. "
       +:+ match bestResult with Some r => reasoning r | None => "" end;
     alternativeCategories :=
       Some (getAlternativeCategories categoryScores bestCategory) |}.

(** The classification of one page is what the model call and
    [validateClassificationResult] yield for it. *)
Section ClassifyPdf.

Variable classifyDocument : string -> string -> ClassificationResult.



End ClassifyPdf.


(** The categories that [validateClassificationResult] accepts. *)
Definition validCategories : list DocumentCategory :=
  [identity; income; bank_statement; welfare_benefit; medical; tenancy;
   proof_of_address; other; unknown].

(** [validCategories.includes(name)], together with the category that the
    name denotes. *)
Definition categoryOfName (name : string) : option DocumentCategory :=
  find (fun c => String.eqb (categoryName c) name) validCategories.

(** The numbers that [ToNumber] can give. *)
Inductive JsNumber :=
  | Finite (q : Q)
  | PlusInfinity
  | MinusInfinity
  | NotANumber.

(** A property of the parsed reply that the interface declares a number.
    The cast checks nothing, so that the property is a JSON number, null,
    not there at all, or any other JSON value: a string, a boolean, an array
    or an object, given here by the number that [ToNumber] makes of it
    (0.9 of "0.9", 1 of true, 0 of the empty string, an infinity of
    "Infinity", NaN of "high" and of an object). *)
Inductive RawNumber :=
  | RawNum (q : Q)
  | RawNullNumber
  | RawAbsent
  | RawOtherValue (coerced : JsNumber).

(** What [Math.min] makes of such a property: null counts as 0, undefined
    as NaN. *)
Definition toNumber (n : RawNumber) : JsNumber :=
  match n with
  | RawNum q => Finite q
  | RawNullNumber => Finite 0
  | RawAbsent => NotANumber
  | RawOtherValue coerced => coerced
  end.

(** [Math.max(0, Math.min(1, x))]; NaN stays NaN. *)
Definition clampUnit (x : JsNumber) : Num :=
  match x with
  | Finite q => Fin (Js.max 0 (Js.min 1 q))
  | PlusInfinity => Fin 1
  | MinusInfinity => Fin 0
  | NotANumber => NaN
  end.

(** The parsed reply of the classification model, seen through the cast
    [as ClassificationResult]: the strings and the array of alternatives
    have the JSON types of the interface or are missing, the confidences
    are any JSON value; the values are whatever the model wrote. *)
Record RawAlternative := {
  rawAltCategory : option string;
  rawAltConfidence : RawNumber
}.

Record RawClassification := {
  rawCategory : option string;
  rawConfidence : RawNumber;
  rawSubtype : option string;
  rawReasoning : option string;
  rawAlternatives : option (list RawAlternative)
}.

(** The category that a name stands for once it has passed
    [validCategories.includes]. *)
Definition acceptedCategory (name : option string) : option DocumentCategory :=
  match name with
  | Some n => categoryOfName n
  | None => None
  end.

Definition validateClassificationResult (result : RawClassification)
  : ClassificationResult :=
  {| resultCategory :=
       match acceptedCategory (rawCategory result) with
       | Some c => c
       | None => unknown
       end;
     resultConfidence := clampUnit (toNumber (rawConfidence result));
     subtype := rawSubtype result;
     reasoning :=
       match rawReasoning result with
       | Some text => if String.eqb text "" then "No reasoning provided" else text
       | None => "No reasoning provided"
       end;
     alternativeCategories :=
       match rawAlternatives result with
       | Some alternatives =>
           (* .filter(valid category).map(clamped confidence) *)
           Some (omap (fun alt =>
                         match acceptedCategory (rawAltCategory alt) with
                         | Some c => Some (c, clampUnit (toNumber (rawAltConfidence alt)))
                         | None => None
                         end) alternatives)
       | None => None
       end |}.

Section ClassificationService.

(** [JSON.parse(content)] and the reading of the reply's properties, which
    throw on a reply that is not JSON or not an object of the expected
    shape. *)
Variable parseClassification : string -> Exc RawClassification.

(** [classifyDocument] for a given outcome of the awaited model call: the
    call throws, or it resolves with
    [response.choices[0]?.message?.content]. *)
Definition classifyDocument (modelCall : Exc (option string)) : ClassificationResult :=
  tryCatch
    (let* content := modelCall in
     let* content :=
       match content with
       | Some c =>
           if String.eqb c ""
           then throw (ThrownError "No response from classification model")
           else inr c
       | None => throw (ThrownError "No response from classification model")
       end in
     let* result := parseClassification content in
     inr (validateClassificationResult result))
    (fun error =>
       {| resultCategory := unknown; resultConfidence := Fin 0; subtype := None;
          reasoning := "Classification failed: " +:+ errorMessage error;
          alternativeCategories := None |}).

End ClassificationService.

(* ===================================================================== *)
(** ** Storage service (storage.service.ts)                               *)
(* ===================================================================== *)

Definition isDigit (c : ascii) : bool :=
  let n := nat_of_ascii c in (48 <=? n)%nat && (n <=? 57)%nat.

Definition toLower (c : ascii) : ascii :=
  if isUpper c then ascii_of_nat (nat_of_ascii c + 32) else c.

(** The character class [a-zA-Z0-9._-]. *)
Definition isSafe (c : ascii) : bool :=
  isLower c || isUpper c || isDigit c
  || Ascii.eqb c "." || Ascii.eqb c "_" || Ascii.eqb c "-".

(** [.replace(/[^a-zA-Z0-9._-]/g, '_')], unit by unit.  A character
    outside ASCII, however many units it takes, becomes a run of
    underscores, which the next step collapses. *)
Fixpoint replaceUnsafe (s : string) : string :=
  match s with
  | String c rest => String (if isSafe c then c else "_"%char) (replaceUnsafe rest)
  | EmptyString => EmptyString
  end.

(** [.replace(/_+/g, '_')]: every run of underscores becomes one. *)
Fixpoint collapseUnderscores (s : string) : string :=
  match s with
  | String c rest =>
      let rest' := collapseUnderscores rest in
      if Ascii.eqb c "_" then
        match rest' with
        | String c' _ => if Ascii.eqb c' "_" then rest' else String c rest'
        | EmptyString => String c rest'
        end
      else String c rest'
  | EmptyString => EmptyString
  end.

(** [.toLowerCase()] on a string that holds ASCII only by now. *)
Fixpoint toLowerCase (s : string) : string :=
  match s with
  | String c rest => String (toLower c) (toLowerCase rest)
  | EmptyString => EmptyString
  end.

(** [sanitizeFileName], the same in the storage and the document
    service. *)
Definition sanitizeFileName (fileName : string) : string :=
  toLowerCase (collapseUnderscores (replaceUnsafe fileName)).

Definition generateDocumentKey (clientId application_id fileName : string)
    (version : Z) : string :=
  clientId +:+ "/" +:+ application_id +:+ "/documents/v" +:+ Js.toString version
  +:+ "/" +:+ sanitizeFileName fileName.

Definition generateExtractionKey (clientId application_id documentId : string)
    (version : Z) : string :=
  clientId +:+ "/" +:+ application_id +:+ "/extractions/" +:+ documentId
  +:+ "/v" +:+ Js.toString version +:+ ".json".

(** [sourceKey.split('/').pop()]: what follows the last slash. *)
Fixpoint splitPop (current s : string) : string :=
  match s with
  | String c rest =>
      if Ascii.eqb c "/" then splitPop "" rest
      else splitPop (current +:+ String c "") rest
  | EmptyString => current
  end.

Section StorageService.

(** The copy of an object from a source key to a new key. *)
Variable copyObject : string -> string -> Exc unit.

Definition createDocumentVersion (clientId application_id sourceKey : string)
    (newVersion : Z) : Exc string :=
  let fileName :=
    match splitPop "" sourceKey with
    | EmptyString => "document"
    | name => name
    end in
  let newKey := generateDocumentKey clientId application_id fileName newVersion in
  let* _ := copyObject sourceKey newKey in
  inr newKey.

End StorageService.

(* ===================================================================== *)
(** ** Repositories (database/repositories.ts)                            *)
(* ===================================================================== *)

Record Application := {
  appId : string;
  cluid : string;
  referenceNumber : string;
  appStatus : ApplicationStatus;
  applicantData : ApplicantData;
  documentChecklistStatus : option DocumentChecklistStatus
}.

Record ExtractionVersion := {
  evDocumentId : string;
  evVersion : Z;
  evExtractedData : ExtractedDocumentData;
  modelVersion : string;
  promptVersion : string
}.

Inductive LogStatus := LogStarted | LogCompleted | LogFailed.

(** A row of the processing log, without its duration and timestamp. *)
Record LogEntry := {
  logDocumentId : string;
  logApplicationId : string;
  action : string;
  logStatus : LogStatus;
  details : option string;
  logErrorMessage : option string
}.

(** The tables that the services below touch.  [documents] keeps its rows
    in the order in which [findByApplicationId] returns them;
    [documentVersions] holds, per row, the document id and the storage key
    of that version. *)
Record Database := {
  applications : gmap string Application;
  documents : list Document;
  documentVersions : list (string * string);
  extractionVersions : list ExtractionVersion;
  processingLog : list LogEntry;
  sequences : gmap string Z
}.

Definition withApplications (rows : gmap string Application) (db : Database)
  : Database :=
  {| applications := rows; documents := documents db;
     documentVersions := documentVersions db;
     extractionVersions := extractionVersions db;
     processingLog := processingLog db; sequences := sequences db |}.

Definition withDocuments (rows : list Document) (db : Database) : Database :=
  {| applications := applications db; documents := rows;
     documentVersions := documentVersions db;
     extractionVersions := extractionVersions db;
     processingLog := processingLog db; sequences := sequences db |}.

Definition withSequences (rows : gmap string Z) (db : Database) : Database :=
  {| applications := applications db; documents := documents db;
     documentVersions := documentVersions db;
     extractionVersions := extractionVersions db;
     processingLog := processingLog db; sequences := rows |}.

Module ApplicationRepository.

(** The transaction [getNextSequence]: the UPDATE changes a row when the
    sequence exists, and the SELECT reads the new value back; otherwise
    the INSERT creates the sequence at 1. *)
Definition getNextSequence (sequenceName : string) (seqs : gmap string Z)
  : gmap string Z * Z :=
  match seqs !! sequenceName with
  | Some current => (<[sequenceName := current + 1]> seqs, current + 1)
  | None => (<[sequenceName := 1]> seqs, 1)
  end.

(** [generateReferenceNumber] in the year [year] that the clock shows. *)
Definition generateReferenceNumber (year : Z) (seqs : gmap string Z)
  : gmap string Z * string :=
  let sequenceName := "ref_number_" +:+ Js.toString year in
  let '(seqs', sequenceNumber) := getNextSequence sequenceName seqs in
  (seqs',
   "SH-" +:+ Js.toString year +:+ "-"
   +:+ Js.padStart 4 "0" (Js.toString sequenceNumber)).

(** [create] with the fresh identifier [uuid] and the clock's year.  The
    INSERT throws when the primary key or the unique reference number is
    already taken; the sequence has advanced by then. *)
Definition create (uuid : string) (year : Z) (clientId : string)
    (data : ApplicantData) (db : Database) : Database * Exc Application :=
  let '(seqs', reference) := generateReferenceNumber year (sequences db) in
  let db1 := withSequences seqs' db in
  let taken (a : Application) : bool := String.eqb (referenceNumber a) reference in
  match applications db1 !! uuid with
  | Some _ => (db1, throw (ThrownError "UNIQUE constraint failed: applications.id"))
  | None =>
      if existsb taken (map snd (map_to_list (applications db1)))
      then (db1, throw (ThrownError
                          "UNIQUE constraint failed: applications.reference_number"))
      else
        let application :=
          {| appId := uuid; cluid := clientId; referenceNumber := reference;
             appStatus := draft; applicantData := data;
             documentChecklistStatus := None |} in
        (withApplications (<[uuid := application]> (applications db1)) db1,
         inr application)
  end.

Definition findById (applicationId : string) (db : Database) : option Application :=
  applications db !! applicationId.

Definition updateStatus (applicationId : string) (s : ApplicationStatus)
    (db : Database) : Database :=
  withApplications
    (alter (fun a => {| appId := appId a; cluid := cluid a;
                        referenceNumber := referenceNumber a;
                        appStatus := s;
                        applicantData := applicantData a;
                        documentChecklistStatus := documentChecklistStatus a |})
           applicationId (applications db))
    db.

Definition updateChecklistStatus (applicationId : string)
    (checklistStatus : DocumentChecklistStatus) (db : Database) : Database :=
  withApplications
    (alter (fun a => {| appId := appId a; cluid := cluid a;
                        referenceNumber := referenceNumber a;
                        appStatus := appStatus a;
                        applicantData := applicantData a;
                        documentChecklistStatus := Some checklistStatus |})
           applicationId (applications db))
    db.

End ApplicationRepository.

(** What the REAL column [classification_confidence] holds for a
    confidence: a NaN is stored as NULL, which reads back as null and
    compares like 0. *)
Definition storedConfidence (c : Num) : Q :=
  match c with
  | Fin q => q
  | NaN => 0
  end.

Module DocumentRepository.

Definition findById (documentId : string) (db : Database) : option Document :=
  find (fun d => String.eqb (id d) documentId) (documents db).

Definition findByApplicationId (application_id : string) (db : Database)
  : list Document :=
  List.filter (fun d => String.eqb (applicationId d) application_id)
              (documents db).

(** [UPDATE documents SET ... WHERE id = ?] *)
Definition updateWhereId (documentId : string) (set : Document -> Document)
    (db : Database) : Database :=
  withDocuments
    (map (fun d => if String.eqb (id d) documentId then set d else d) (documents db))
    db.

Definition setProcessingStatus (s : DocumentProcessingStatus) (d : Document)
  : Document :=
  {| id := id d; applicationId := applicationId d; docCluid := docCluid d;
     originalFileName := originalFileName d; s3Key := s3Key d;
     category := category d;
     classificationConfidence := classificationConfidence d;
     processingStatus := s;
     extractedData := extractedData d;
     extractionVersion := extractionVersion d;
     completenessScore := completenessScore d;
     completenessIssues := completenessIssues d |}.

Definition updateProcessingStatus (documentId : string)
    (s : DocumentProcessingStatus) (db : Database) : Database :=
  updateWhereId documentId (setProcessingStatus s) db.

Definition updateClassification (documentId : string) (c : DocumentCategory)
    (confidence : Num) (db : Database) : Database :=
  updateWhereId documentId
    (fun d =>
       {| id := id d; applicationId := applicationId d; docCluid := docCluid d;
          originalFileName := originalFileName d; s3Key := s3Key d;
          category := c;
          classificationConfidence := storedConfidence confidence;
          processingStatus := classified;
          extractedData := extractedData d;
          extractionVersion := extractionVersion d;
          completenessScore := completenessScore d;
          completenessIssues := completenessIssues d |})
    db.

Definition updateExtraction (documentId : string) (data : ExtractedDocumentData)
    (score : Z) (issues : list string) (db : Database) : Database :=
  let newVersion :=
    match findById documentId db with
    | Some doc => extractionVersion doc + 1
    | None => 1
    end in
  updateWhereId documentId
    (fun d =>
       {| id := id d; applicationId := applicationId d; docCluid := docCluid d;
          originalFileName := originalFileName d; s3Key := s3Key d;
          category := category d;
          classificationConfidence := classificationConfidence d;
          processingStatus := extracted;
          extractedData := Some data;
          extractionVersion := newVersion;
          completenessScore := score;
          completenessIssues := issues |})
    db.

(** [DELETE FROM documents WHERE id = ?]; the rows that reference the
    document cascade. *)
Definition delete (documentId : string) (db : Database) : Database :=
  {| applications := applications db;
     documents :=
       List.filter (fun d => negb (String.eqb (id d) documentId)) (documents db);
     documentVersions :=
       List.filter (fun v => negb (String.eqb (fst v) documentId))
                   (documentVersions db);
     extractionVersions :=
       List.filter (fun v => negb (String.eqb (evDocumentId v) documentId))
                   (extractionVersions db);
     processingLog :=
       List.filter (fun e => negb (String.eqb (logDocumentId e) documentId))
                   (processingLog db);
     sequences := sequences db |}.

End DocumentRepository.

Module ExtractionVersionRepository.

(** The INSERT throws when the document already has a row of that
    version. *)
Definition create (row : ExtractionVersion) (db : Database) : Database * Exc unit :=
  if existsb (fun v => String.eqb (evDocumentId v) (evDocumentId row)
                       && (evVersion v =? evVersion row))
             (extractionVersions db)
  then (db, throw (ThrownError
                     "UNIQUE constraint failed: extraction_versions.document_id, extraction_versions.version"))
  else
    ({| applications := applications db; documents := documents db;
        documentVersions := documentVersions db;
        extractionVersions := extractionVersions db ++ [row];
        processingLog := processingLog db; sequences := sequences db |},
     inr tt).

(** [ORDER BY version DESC]: the row with the smaller version goes behind.
    The unique index on the document and the version leaves no ties. *)
Definition byVersionDesc (a b : ExtractionVersion) : bool :=
  evVersion a <? evVersion b.

Definition findByDocumentId (documentId : string) (db : Database)
  : list ExtractionVersion :=
  sortBy byVersionDesc
         (List.filter (fun v => String.eqb (evDocumentId v) documentId)
                      (extractionVersions db)).

(** [... ORDER BY version DESC LIMIT 1] *)
Definition getLatestVersion (documentId : string) (db : Database)
  : option ExtractionVersion :=
  head (findByDocumentId documentId db).

End ExtractionVersionRepository.

Module ProcessingLogRepository.

Definition log (entry : LogEntry) (db : Database) : Database :=
  {| applications := applications db; documents := documents db;
     documentVersions := documentVersions db;
     extractionVersions := extractionVersions db;
     processingLog := processingLog db ++ [entry];
     sequences := sequences db |}.

End ProcessingLogRepository.

(* ===================================================================== *)
(** ** Document service (document.service.ts)                             *)
(* ===================================================================== *)

Record ProcessingResult := {
  processed : bool;
  processedDocumentId : string;
  classification : option ClassificationResult;
  extraction : option ExtractionResult;
  checklistStatus : option DocumentChecklistStatus;
  errors : option (list string)
}.

(** A step of the pipeline: it runs on the database and on the local
    [errors] array, and returns or throws; what it wrote before throwing
    stays written. *)
Definition Step (A : Type) : Type :=
  Database * list string -> (Database * list string) * Exc A.

Definition stepReturn {A} (a : A) : Step A := fun st => (st, inr a).

Definition stepBind {A B} (m : Step A) (k : A -> Step B) : Step B :=
  fun st =>
    match m st with
    | (st', inr a) => k a st'
    | (st', inl e) => (st', inl e)
    end.

Notation "'let!' x ':=' m 'in' k" := (stepBind m (fun x => k))
  (at level 10, x name, m at level 100, k at level 200).

(** A statement that writes to the database. *)
Definition write (f : Database -> Database) : Step unit :=
  fun st => ((f (fst st), snd st), inr tt).

(** An expression that reads the database. *)
Definition read {A} (f : Database -> A) : Step A :=
  fun st => (st, inr (f (fst st))).

(** A repository call that writes and may throw. *)
Definition attempt {A} (f : Database -> Database * Exc A) : Step A :=
  fun st => let '(db, r) := f (fst st) in ((db, snd st), r).

(** An awaited call to a collaborator. *)
Definition await {A} (r : Exc A) : Step A := fun st => (st, r).

(** [errors.push(message)] *)
Definition pushError (message : string) : Step unit :=
  fun st => ((fst st, snd st ++ [message]), inr tt).

(** The summary of [getApplicationDocumentSummary], its nested objects
    flattened. *)
Record ApplicationDocumentSummary := {
  summaryApplication : Application;
  summaryDocuments : list Document;
  summaryChecklist : DocumentChecklistStatus;
  totalDocuments : Z;
  completenessPercentage : Z;
  missingDocuments : list string;
  itemsNeedingReview : list (string * list string);
  countUploaded : Z;
  countProcessing : Z;
  countCompleted : Z;
  countErrors : Z
}.

(** What a controller sends: [{ success: true, data }], or a status code
    with [{ success: false, error: { code, message } }]. *)
Inductive ApiResponse (A : Type) :=
  | ApiSuccess (data : A)
  | ApiError (statusCode : Z) (code message : string).

Arguments ApiSuccess {A} data.
Arguments ApiError {A} statusCode code message.

Section DocumentService.

Context {host : DateHost}.

(** [new Date()] at the time of the call. *)
Variable now : Z.

(** The case status that [updateApplicationChecklist] writes for a
    checklist. *)
Definition statusFor (checklistStatus : DocumentChecklistStatus) : ApplicationStatus :=
  let completeness := calculateOverallCompleteness checklistStatus in
  let missingDocs := getMissingDocuments checklistStatus in
  if 0 <? Js.length missingDocs then documents_pending
  else if completeness <? 100 then documents_review
  else eligibility_check.

(** The exported [checklistService] is built without overrides. *)
Definition updateApplicationChecklist (applicationId : string) (db : Database)
  : Database * Exc DocumentChecklistStatus :=
  match ApplicationRepository.findById applicationId db with
  | None => (db, throw (ThrownError "Application not found"))
  | Some application =>
      let documents := DocumentRepository.findByApplicationId applicationId db in
      let checklistStatus :=
        evaluateChecklist DEFAULT_REQUIREMENTS now documents
                          (Some (applicantData application)) in
      let db := ApplicationRepository.updateChecklistStatus
                  applicationId checklistStatus db in
      let db := ApplicationRepository.updateStatus
                  applicationId (statusFor checklistStatus) db in
      (db, inr checklistStatus)
  end.

(** The collaborators of the pipeline: blob storage, the classification
    service (which catches its own failures), the model call of the
    extraction service, and the configuration. *)
Variable getDocumentAsBase64 : string -> Exc (string * string).
Variable uploadExtraction :
  string -> string -> string -> ExtractedDocumentData -> Z -> Exc unit.
Variable storageDelete : string -> Exc unit.
Variable classifyDocument : string -> string -> ClassificationResult.
Variable extractionModelCall :
  string -> string -> DocumentCategory -> Exc (option string).
Variable parseExtraction : string -> Exc (list (string * RawValue)).
Variable classificationThreshold : Q.
Variable extractionThreshold : Q.
Variable openaiModel : string.

(** [new Date().toISOString()] and the text of a number in a template
    string. *)
Variable isoNow : string.
Variable numberToString : Num -> string.

(** [classification.confidence >= config.documents.classificationThreshold] *)
Definition confidentEnough (c : Num) : bool :=
  match c with
  | Fin q => Js.ge q classificationThreshold
  | NaN => false
  end.

(** Steps 1 and 2 inside the [try] block of [processDocument]: fetch the
    bytes, classify, and extract when the classification allows it. *)
Definition classifyAndExtract (documentId : string) (document : Document)
  : Step (ClassificationResult * option ExtractionResult) :=
  let! blob := await (getDocumentAsBase64 (s3Key document)) in
  let '(base64, mimeType) := blob in
  let! _ := write (DocumentRepository.updateProcessingStatus documentId classifying) in
  let classification := classifyDocument base64 mimeType in
  let! _ := write (DocumentRepository.updateClassification
                     documentId (resultCategory classification)
                     (resultConfidence classification)) in
  let! _ := write (ProcessingLogRepository.log
                     {| logDocumentId := documentId;
                        logApplicationId := applicationId document;
                        action := "classification"; logStatus := LogCompleted;
                        details :=
                          Some ("Category: "
                                +:+ categoryName (resultCategory classification)
                                +:+ ", Confidence: "
                                +:+ numberToString (resultConfidence classification));
                        logErrorMessage := None |}) in
  if negb (bool_decide (resultCategory classification = unknown))
     && confidentEnough (resultConfidence classification)
  then
    let! _ := write (DocumentRepository.updateProcessingStatus documentId extracting) in
    let extraction :=
      extractDocument extractionThreshold parseExtraction
        (extractionModelCall base64 mimeType (resultCategory classification))
        (resultCategory classification) in
    if success extraction then
      let extractedData :=
        {| documentType := resultDocumentType extraction;
           extractedConfidence := resultConfidence classification;
           extractedAt := isoNow;
           fields := resultFields extraction |} in
      let! _ := write (DocumentRepository.updateExtraction
                         documentId extractedData
                         (resultCompletenessScore extraction)
                         (map issueMessage (resultIssues extraction))) in
      let! updatedDoc := read (DocumentRepository.findById documentId) in
      let! updatedDoc :=
        match updatedDoc with
        | Some d => stepReturn d
        | None => await (throw (ThrownError "Cannot read properties of null"))
        end in
      let! _ := attempt (ExtractionVersionRepository.create
                           {| evDocumentId := documentId;
                              evVersion := extractionVersion updatedDoc;
                              evExtractedData := extractedData;
                              modelVersion := openaiModel;
                              promptVersion := "1.0" |}) in
      let! _ := await (uploadExtraction (docCluid document) (applicationId document)
                                        documentId extractedData
                                        (extractionVersion updatedDoc)) in
      let! _ := write (ProcessingLogRepository.log
                         {| logDocumentId := documentId;
                            logApplicationId := applicationId document;
                            action := "extraction"; logStatus := LogCompleted;
                            details :=
                              Some ("Completeness: "
                                    +:+ Js.toString (resultCompletenessScore extraction)
                                    +:+ "%, Issues: "
                                    +:+ Js.toString (Js.length (resultIssues extraction)));
                            logErrorMessage := None |}) in
      stepReturn (classification, Some extraction)
    else
      let! _ := pushError "Extraction failed" in
      let! _ := write (DocumentRepository.updateProcessingStatus
                         documentId validation_failed) in
      let! _ := write (ProcessingLogRepository.log
                         {| logDocumentId := documentId;
                            logApplicationId := applicationId document;
                            action := "extraction"; logStatus := LogFailed;
                            details := None;
                            logErrorMessage :=
                              Some (String.concat "; "
                                      (map issueMessage (resultIssues extraction))) |}) in
      stepReturn (classification, Some extraction)
  else
    let! _ := write (DocumentRepository.updateProcessingStatus documentId completed) in
    let! _ := write (ProcessingLogRepository.log
                       {| logDocumentId := documentId;
                          logApplicationId := applicationId document;
                          action := "extraction"; logStatus := LogCompleted;
                          details := Some "Skipped - low classification confidence or unknown category";
                          logErrorMessage := None |}) in
    stepReturn (classification, None).

(** Step 3 and the final status: refresh the checklist of the case, then
    mark the document completed unless its extraction failed. *)
Definition refreshAndComplete (documentId : string) (document : Document)
  : Step DocumentChecklistStatus :=
  let! checklist := attempt (updateApplicationChecklist (applicationId document)) in
  let! current := read (DocumentRepository.findById documentId) in
  let! _ :=
    if match current with
       | Some d => bool_decide (processingStatus d = validation_failed)
       | None => false
       end
    then stepReturn tt
    else write (DocumentRepository.updateProcessingStatus documentId completed) in
  stepReturn checklist.

(** The body of the [try] block of [processDocument]. *)
Definition processSteps (documentId : string) (document : Document)
  : Step ProcessingResult :=
  let! found := classifyAndExtract documentId document in
  let! checklist := refreshAndComplete documentId document in
  fun st =>
    (st, inr {| processed := true; processedDocumentId := documentId;
                classification := Some (fst found);
                extraction := snd found;
                checklistStatus := Some checklist;
                errors := issuesOrUndefined (snd st) |}).

(** The [catch] clause of [processDocument], entered with what the
    [try] block had written when it threw. *)
Definition processFailed (documentId : string) (document : Document)
    (caught : Thrown) (st : Database * list string) : Database * ProcessingResult :=
  let errs := snd st ++ [errorMessage caught] in
  let db := DocumentRepository.updateProcessingStatus documentId error (fst st) in
  let db := ProcessingLogRepository.log
              {| logDocumentId := documentId;
                 logApplicationId := applicationId document;
                 action := "processing"; logStatus := LogFailed;
                 details := None;
                 logErrorMessage := Some (errorMessage caught) |} db in
  (db, {| processed := false; processedDocumentId := documentId;
          classification := None; extraction := None;
          checklistStatus := None; errors := Some errs |}).

Definition processDocument (documentId : string) (db : Database)
  : Database * ProcessingResult :=
  match DocumentRepository.findById documentId db with
  | None =>
      (db, {| processed := false; processedDocumentId := documentId;
              classification := None; extraction := None;
              checklistStatus := None; errors := Some ["Document not found"] |})
  | Some document =>
      match processSteps documentId document (db, []) with
      | (st, inr result) => (fst st, result)
      | (st, inl caught) => processFailed documentId document caught st
      end
  end.

(** The loop of [deleteDocument] over the version rows. *)
Fixpoint deleteVersions (keys : list string) : Exc unit :=
  match keys with
  | [] => inr tt
  | key :: rest => let* _ := storageDelete key in deleteVersions rest
  end.

Definition deleteDocument (documentId : string) (db : Database)
  : Database * Exc unit :=
  match DocumentRepository.findById documentId db with
  | None => (db, throw (ThrownError "Document not found"))
  | Some document =>
      let versions :=
        List.filter (fun v => String.eqb (fst v) documentId) (documentVersions db) in
      match (let* _ := deleteVersions (map snd versions) in
             storageDelete (s3Key document)) with
      | inl e => (db, inl e)
      | inr _ =>
          let db := DocumentRepository.delete documentId db in
          match updateApplicationChecklist (applicationId document) db with
          | (db, inr _) => (db, inr tt)
          | (db, inl e) => (db, inl e)
          end
      end
  end.

Definition reprocessDocument (documentId : string) (db : Database)
  : Database * ProcessingResult :=
  match DocumentRepository.findById documentId db with
  | None =>
      (db, {| processed := false; processedDocumentId := documentId;
              classification := None; extraction := None;
              checklistStatus := None; errors := Some ["Document not found"] |})
  | Some _ =>
      processDocument documentId
        (DocumentRepository.updateProcessingStatus documentId uploaded db)
  end.

(** [documents.filter(p).length] *)
Definition countWhere (p : Document -> bool) (documents : list Document) : Z :=
  Js.length (List.filter p documents).

Definition getApplicationDocumentSummary (applicationId : string) (db : Database)
  : option ApplicationDocumentSummary :=
  match ApplicationRepository.findById applicationId db with
  | None => None
  | Some application =>
      let documents := DocumentRepository.findByApplicationId applicationId db in
      let checklistStatus :=
        match documentChecklistStatus application with
        | Some stored => stored
        | None =>
            evaluateChecklist DEFAULT_REQUIREMENTS now documents
                              (Some (applicantData application))
        end in
      let completeness := calculateOverallCompleteness checklistStatus in
      let missingDocs := getMissingDocuments checklistStatus in
      let needsReview := getItemsNeedingReview checklistStatus in
      Some {| summaryApplication := application;
              summaryDocuments := documents;
              summaryChecklist := checklistStatus;
              totalDocuments := Js.length documents;
              completenessPercentage := completeness;
              missingDocuments := missingDocs;
              itemsNeedingReview := needsReview;
              countUploaded :=
                countWhere (fun d => bool_decide (processingStatus d = uploaded))
                           documents;
              countProcessing :=
                countWhere (fun d => bool_decide (processingStatus d = classifying)
                                     || bool_decide (processingStatus d = extracting))
                           documents;
              countCompleted :=
                countWhere (fun d => bool_decide (processingStatus d = completed))
                           documents;
              countErrors :=
                countWhere (fun d => bool_decide (processingStatus d = error)
                                     || bool_decide (processingStatus d = validation_failed))
                           documents |}
  end.

(** [DocumentController.overrideClassification] with the request's
    [category] and [reprocess] (true unless the body says otherwise): the
    database afterwards and the response. *)
Definition overrideClassification (documentId : string) (c : DocumentCategory)
    (reprocess : bool) (db : Database) : Database * ApiResponse (option Document) :=
  match DocumentRepository.findById documentId db with
  | None => (db, ApiError 404 "NOT_FOUND" "Document not found")
  | Some _ =>
      let db := DocumentRepository.updateClassification documentId c (Fin 1) db in
      let db := if reprocess then fst (reprocessDocument documentId db) else db in
      (db, ApiSuccess (DocumentRepository.findById documentId db))
  end.

End DocumentService.

(* ===================================================================== *)
(** ** The stated properties, as definitions                              *)
(* ===================================================================== *)

(** *** Overall completeness, in the words of its description *)

Definition specWeight (item : ChecklistItem) : Q :=
  if required item then 2%Q else 1%Q.

(** Optional items that are missing are left out altogether. *)
Definition specCounted (item : ChecklistItem) : bool :=
  match required item, status item with
  | false, Missing => false
  | _, _ => true
  end.

Definition specCredit (item : ChecklistItem) : Q :=
  match status item with
  | Verified => 1
  | Pending => 1 # 2
  | Issues => 1 # 4
  | Missing => 0
  end.

Fixpoint specTotalWeight (items : list (string * option ChecklistItem)) : Q :=
  match items with
  | [] => 0
  | (_, Some item) :: rest =>
      if specCounted item then (specWeight item + specTotalWeight rest)%Q
      else specTotalWeight rest
  | (_, None) :: rest => specTotalWeight rest
  end.

Fixpoint specAchievedWeight (items : list (string * option ChecklistItem)) : Q :=
  match items with
  | [] => 0
  | (_, Some item) :: rest =>
      if specCounted item
      then (specWeight item * specCredit item + specAchievedWeight rest)%Q
      else specAchievedWeight rest
  | (_, None) :: rest => specAchievedWeight rest
  end.

Definition specCompleteness (items : list (string * option ChecklistItem)) : Z :=
  if Qeq_bool (specTotalWeight items) 0 then 0
  else Js.round (100 * specAchievedWeight items / specTotalWeight items)%Q.

Definition item (r : bool) (s : ItemStatus) : ChecklistItem :=
  {| required := r; status := s; documentIds := []; issues := None |}.

(** The same quotient as the code takes it: [achievedWeight / totalWeight]
    is rounded to a double before it is multiplied by 100, and the product
    is rounded again. *)
Definition specCompletenessInDoubles (items : list (string * option ChecklistItem)) : Z :=
  if Qeq_bool (specTotalWeight items) 0 then 0
  else Js.round (Js.mul (Js.div (specAchievedWeight items) (specTotalWeight items)) 100).

(** The weights as integers: the total weight, and the achieved weight
    counted in quarters. *)
Definition weightOf (entry : string * option ChecklistItem) : Z :=
  match snd entry with
  | Some item => if specCounted item then (if required item then 2 else 1) else 0
  | None => 0
  end.

Definition quartersOf (entry : string * option ChecklistItem) : Z :=
  match snd entry with
  | Some item =>
      if specCounted item
      then (if required item then 2 else 1)
           * match status item with
             | Verified => 4
             | Pending => 2
             | Issues => 1
             | Missing => 0
             end
      else 0
  | None => 0
  end.

Definition totalOf (items : list (string * option ChecklistItem)) : Z :=
  fold_right (fun entry t => weightOf entry + t) 0 items.

Definition achievedQuarters (items : list (string * option ChecklistItem)) : Z :=
  fold_right (fun entry a => quartersOf entry + a) 0 items.

(** The percentage that the code computes from a total weight and an
    achieved weight given in quarters. *)
Definition percentOf (t a4 : Z) : Z :=
  Js.round (Js.mul (Js.div (Qred (a4 # 4)) (inject_Z t)) 100).

(** The same percentage in exact arithmetic. *)
Definition exactPercentOf (t a4 : Z) : Z :=
  Js.round (100 * (a4 # 4) / inject_Z t)%Q.

(** The integers from [lo], [n] of them. *)
Definition rangeZ (lo : Z) (n : nat) : list Z :=
  map (fun k => lo + Z.of_nat k) (seq 0 n).

(** Equality of two rationals as fractions. *)
Definition sameFraction (x y : Q) : bool :=
  (Qnum x =? Qnum y) && Pos.eqb (Qden x) (Qden y).

(** A status with total weight 10 and achieved weight 5.75: two required
    items verified, one pending and one missing, an optional item pending,
    one with issues and one that is missing and so left out. *)
Definition unevenStatus : DocumentChecklistStatus :=
  {| cl_identity := item true Verified;
     cl_income := item true Verified;
     cl_bankStatements := item true Pending;
     cl_proofOfAddress := item true Missing;
     cl_welfareBenefit := Some (item false Pending);
     cl_medicalEvidence := Some (item false Missing);
     cl_tenancyAgreement := Some (item false Issues) |}.

(** What the table of the percentages has to show at one pair of weights:
    the range, full marks at full weight only, and agreement with the exact
    percentage except at 5.75 of 10. *)
Definition percentChecked (t a4 : Z) : bool :=
  (0 <=? percentOf t a4) && (percentOf t a4 <=? 100)
  && Bool.eqb (percentOf t a4 =? 100) (a4 =? 4 * t)
  && (if (t =? 10) && (a4 =? 23)
      then (percentOf t a4 =? 57) && (exactPercentOf t a4 =? 58)
      else percentOf t a4 =? exactPercentOf t a4).

(** The smallest positive double. *)
Definition minDouble : Q := (2 ^ (-1074))%Q.

(** *** Checklist evaluation *)

(** The items of a checklist status, in entry order. *)
Definition checklistItems (s : DocumentChecklistStatus) : list ChecklistItem :=
  omap snd (Object_entries s).

(** The status that a completeness threshold gives to a non-empty group:
    pending when some document scores below the threshold, verified
    otherwise. *)
Definition thresholdStatus (threshold : Z) (documents : list Document) : ItemStatus :=
  if existsb (fun doc => completenessScore doc <? threshold) documents
  then Pending else Verified.

Definition field (v : FieldValue) (c : Q) : ExtractedField :=
  {| value := v; confidence := c; source := None; fieldIssues := None |}.

Definition document (ident name : string) (c : DocumentCategory) (score : Z)
    (extracted : list (string * ExtractedField)) : Document :=
  {| id := ident; applicationId := "app-1"; docCluid := "client-1";
     originalFileName := name;
     s3Key := "client-1/app-1/documents/v1/" +:+ name;
     category := c; classificationConfidence := 95 # 100;
     processingStatus := completed;
     extractedData :=
       Some {| documentType := c; extractedConfidence := Fin (95 # 100);
               extractedAt := "2025-01-01T00:00:00.000Z"; fields := extracted |};
     extractionVersion := 1;
     completenessScore := score;
     completenessIssues := [] |}.

(** A passport that expires on 15 June 2025. *)
Definition passport : Document :=
  document "doc-1" "passport.png" identity 100
           [("expiryDate", field (VString "2025-06-15") (9 # 10))].

(** A medical letter from which nothing could be extracted. *)
Definition gpLetter : Document :=
  document "doc-2" "gp-letter.png" medical 0 [].

(** A document that the classifier could not place. *)
Definition leaflet : Document :=
  document "doc-3" "leaflet.png" other 100 [].

(** Midnight UTC on 1 January 2025 and on 1 January 2026. *)
Definition newYear2025 : Z := 1735689600000.
Definition newYear2026 : Z := 1767225600000.

(** A document whose category is [other] or [unknown]. *)
Definition isUnplaced (d : Document) : Prop :=
  category d = other \/ category d = unknown.

Global Instance isUnplaced_dec d : Decision (isUnplaced d).
Proof. unfold isUnplaced. apply _. Defined.

(** *** Case status and reference numbers *)

(** Some required item of the checklist is missing. *)
Definition hasRequiredMissing (s : DocumentChecklistStatus) : bool :=
  existsb (fun it => required it && bool_decide (status it = Missing))
          (checklistItems s).

(** The case status in the words of its description. *)
Definition specCaseStatus (s : DocumentChecklistStatus) : ApplicationStatus :=
  if hasRequiredMissing s then documents_pending
  else if calculateOverallCompleteness s <? 100 then documents_review
  else eligibility_check.

(** Case creations in a row, one per fresh identifier, in the year that
    the clock shows throughout. *)
Fixpoint createMany (uuids : list string) (year : Z) (clientId : string)
    (data : ApplicantData) (db : Database) : Database * list (Exc Application) :=
  match uuids with
  | [] => (db, [])
  | uuid :: rest =>
      let '(db1, created) := ApplicationRepository.create uuid year clientId data db in
      let '(db2, others) := createMany rest year clientId data db1 in
      (db2, created :: others)
  end.

(** The reference number [SH-<year>-<k>] with [k] padded to 4 digits. *)
Definition referenceFor (year : Z) (k : nat) : string :=
  "SH-" +:+ Js.toString year +:+ "-" +:+ Js.padStart 4 "0" (Js.toString (Z.of_nat k)).

(** Reading a padded sequence number back. *)
Definition readSequence (s : string) : option N :=
  option_map N.of_uint (NilEmpty.uint_of_string s).

(** *** Extraction completeness, in the words of its description *)

(** What a required field earns: full credit, partial credit with a
    warning, or nothing with an error. *)
Inductive Outcome := Full | Partial | Absent.

Definition specOutcome (threshold : Q) (fields : list (string * ExtractedField))
    (name : string) : Outcome :=
  match Js.get name fields with
  | None => Absent
  | Some f =>
      match value f with
      | VNull => Absent
      | VString s =>
          if String.eqb s "" then Absent
          else if Qle_bool threshold (confidence f) then Full else Partial
      | _ => if Qle_bool threshold (confidence f) then Full else Partial
      end
  end.

Definition specPoints (o : Outcome) : Q :=
  match o with
  | Full => 1
  | Partial => 1 # 2
  | Absent => 0
  end.

Definition specSeverity (o : Outcome) : option Severity :=
  match o with
  | Full => None
  | Partial => Some SevWarning
  | Absent => Some SevError
  end.

Fixpoint specPointsEarned (threshold : Q) (fields : list (string * ExtractedField))
    (requiredFields : list string) : Q :=
  match requiredFields with
  | [] => 0
  | name :: rest =>
      (specPoints (specOutcome threshold fields name)
       + specPointsEarned threshold fields rest)%Q
  end.

Definition specScore (threshold : Q) (fields : list (string * ExtractedField))
    (requiredFields : list string) : Z :=
  match requiredFields with
  | [] => 100
  | _ =>
      Js.round (100 * specPointsEarned threshold fields requiredFields
                / inject_Z (Js.length requiredFields))%Q
  end.

(** The field and severity of the issue that each required field raises. *)
Fixpoint specRequiredIssues (threshold : Q) (fields : list (string * ExtractedField))
    (requiredFields : list string) : list (string * Severity) :=
  match requiredFields with
  | [] => []
  | name :: rest =>
      match specSeverity (specOutcome threshold fields name) with
      | Some sev => (name, sev) :: specRequiredIssues threshold fields rest
      | None => specRequiredIssues threshold fields rest
      end
  end.

(** An identity document with two fields read with confidence, one read
    with low confidence and one not found. *)
Definition identityFields : list (string * ExtractedField) :=
  [ ("fullName", field (VString "Jane Doe") (9 # 10));
    ("dateOfBirth", field (VString "1990-04-01") (8 # 10));
    ("documentNumber", field (VString "X123") (4 # 10));
    ("expiryDate", field VNull 0) ].

(** The result of [extractDocument] on a failed model call. *)
Definition failedExtraction (category : DocumentCategory) (message : string)
  : ExtractionResult :=
  {| success := false; resultDocumentType := category; resultFields := [];
     resultCompletenessScore := 0;
     resultIssues :=
       [{| issueField := "_general"; severity := SevError;
           issueMessage := message; suggestion := None |}] |}.

(** *** Aggregation over pages, in the words of its description *)

(** The confidence of a page as a rational (a NaN page counts as 0; the
    statements below are about pages with finite confidences). *)
Definition conf (r : ClassificationResult) : Q :=
  match resultConfidence r with
  | Fin q => q
  | NaN => 0
  end.

(** A page as [validateClassificationResult] leaves it when the model
    reported a number: a double between 0 and 1. *)
Definition validPage (r : ClassificationResult) : Prop :=
  exists q, resultConfidence r = Fin q /\ (0 <= q <= 1)%Q /\ (Js.double q == q)%Q.

(** The summed confidence of a category across the pages: its confidences
    added up in page order, each sum rounded to a double. *)
Definition summedScoreFrom (c : DocumentCategory) (pages : list ClassificationResult)
    (start : Q) : Q :=
  fold_left
    (fun sum r => if decide (resultCategory r = c) then Js.add sum (conf r) else sum)
    pages start.

Definition summedScore (c : DocumentCategory) (pages : list ClassificationResult) : Q :=
  summedScoreFrom c pages 0.

(** The categories of the pages in the order of their first appearance. *)
Definition firstSeen (pages : list ClassificationResult) : list DocumentCategory :=
  fold_left
    (fun seen r =>
       if bool_decide (resultCategory r ∈ seen) then seen else seen ++ [resultCategory r])
    pages [].

(** The categories in the order of their declaration. *)
Definition declarationOrder : list DocumentCategory :=
  [identity; income; bank_statement; welfare_benefit; medical; tenancy;
   proof_of_address; other; unknown].

(** The category with the highest summed confidence, the first one in
    declaration order winning a tie. *)
Definition winnerByDeclarationOrder (pages : list ClassificationResult)
  : DocumentCategory :=
  fold_left
    (fun best c =>
       if Js.gt (summedScore c pages) (summedScore best pages) then c else best)
    declarationOrder identity.

Definition page (c : DocumentCategory) (q : Q) (kind : string) : ClassificationResult :=
  {| resultCategory := c; resultConfidence := Fin q; subtype := Some kind;
     reasoning := "Looks like a " +:+ kind; alternativeCategories := None |}.

(** The pages of the running example, with the doubles that 0.4, 0.5 and
    0.3 denote. *)
Definition benefitPages : list ClassificationResult :=
  [ page welfare_benefit (Js.double (4 # 10)) "housing_benefit_letter";
    page welfare_benefit (Js.double (5 # 10)) "universal_credit_letter";
    page income (Js.double (3 # 10)) "payslip" ].

(** Pages on which the rounding of a sum decides: 0.1 + 0.2 is a double
    above 0.3. *)
Definition roundedPages : list ClassificationResult :=
  [ page identity (Js.double (3 # 10)) "passport";
    page income (Js.double (1 # 10)) "payslip";
    page income (Js.double (2 # 10)) "employment_letter" ].

(** Two pages whose categories tie, the later-declared category first. *)
Definition tiedPages : list ClassificationResult :=
  [ page income (1 # 2) "payslip"; page identity (1 # 2) "passport" ].

(** [a] may stand before [b] in a list that descends by [key]. *)
Definition notBelow {A} (key : A -> Q) (a b : A) : Prop := (key b <= key a)%Q.

(** The confidence of an alternative as a rational. *)
Definition altConf (a : DocumentCategory * Num) : Q :=
  match snd a with
  | Fin q => q
  | NaN => 0
  end.

(** The entries that the loop of [getAlternativeCategories] collects. *)
Fixpoint alternativeCandidates (categoryScores : list (DocumentCategory * Num))
    (bestCategory : DocumentCategory) : list (DocumentCategory * Num) :=
  match categoryScores with
  | [] => []
  | (c, v) :: rest =>
      if negb (bool_decide (c = bestCategory)) && Num.gt v (Fin (Js.double (3 # 10)))
      then (c, Num.min v (Fin 1)) :: alternativeCandidates rest bestCategory
      else alternativeCandidates rest bestCategory
  end.

(** A case with a passport and an unplaced leaflet on file. *)
Definition exampleCase : Application :=
  {| appId := "app-1"; cluid := "client-1"; referenceNumber := "SH-2025-0001";
     appStatus := draft;
     applicantData := {| applicantName := "Jane Doe"; householdMembers := Some [] |};
     documentChecklistStatus := None |}.

Definition exampleDatabase : Database :=
  {| applications := {[ "app-1" := exampleCase ]};
     documents := [passport; leaflet];
     documentVersions := [("doc-1", s3Key passport); ("doc-3", s3Key leaflet)];
     extractionVersions := [];
     processingLog := [];
     sequences := {[ "ref_number_2025" := 1 ]} |}.

Definition emptyDatabase : Database :=
  {| applications := ∅; documents := []; documentVersions := [];
     extractionVersions := []; processingLog := []; sequences := ∅ |}.

(** *** The pipeline and the checklist *)

(** A processing status that the identity check reports as a failure. *)
Definition isFailed (s : DocumentProcessingStatus) : bool :=
  bool_decide (s = error) || bool_decide (s = validation_failed).

(** Two documents that the checklist cannot tell apart. *)
Definition sameForChecklist (d d' : Document) : Prop :=
  id d = id d' /\ originalFileName d = originalFileName d' /\
  category d = category d' /\
  classificationConfidence d = classificationConfidence d' /\
  extractedData d = extractedData d' /\
  completenessScore d = completenessScore d' /\
  isFailed (processingStatus d) = isFailed (processingStatus d').

(** Every row of the document has the processing status [s]. *)
Definition statusIs (documentId : string) (s : DocumentProcessingStatus)
    (db : Database) : Prop :=
  forall d, In d (documents db) -> id d = documentId -> processingStatus d = s.

(** *** The checklist, slot by slot *)

(** The category whose documents each slot of the checklist holds. *)
Definition slotCategories : list (string * DocumentCategory) :=
  [ ("identity", identity); ("income", income); ("bankStatements", bank_statement);
    ("proofOfAddress", proof_of_address); ("welfareBenefit", welfare_benefit);
    ("medicalEvidence", medical); ("tenancyAgreement", tenancy) ].

Definition underReview (it : ChecklistItem) : bool :=
  bool_decide (status it = Pending) || bool_decide (status it = Issues).



(** How the evaluators pair the status of an item with its issues. *)
Definition itemShape (it : ChecklistItem) : Prop :=
  match status it with
  | Verified => issues it = None
  | Pending | Issues => exists own, issues it = Some own /\ own <> []
  | Missing => documentIds it = []
  end.

(** What each evaluator does with its group: the ids in order, and the
    status missing exactly for the empty group. *)
Definition holdsGroup (it : ChecklistItem) (group : list Document) : Prop :=
  documentIds it = map id group /\ (status it = Missing <-> group = []).

(** An item that holds nothing back: verified, or optional and absent. *)
Definition settled (it : ChecklistItem) : Prop :=
  status it = Verified \/ (required it = false /\ status it = Missing).

(** No document of the category is on file. *)
Definition lacks (c : DocumentCategory) (documents : list Document) : bool :=
  forallb (fun d => negb (bool_decide (category d = c))) documents.

(** The name that [getMissingDocuments] reports for a slot when it is
    required and missing. *)
Definition reportedIf (it : option ChecklistItem) (name : string) : list string :=
  match it with
  | Some it => if required it && bool_decide (status it = Missing) then [name] else []
  | None => []
  end.

(** *** Pages without confidence *)

(** A page whose confidence is zero, as a failed classification has it. *)
Definition zeroPage (r : ClassificationResult) : Prop :=
  exists q, resultConfidence r = Fin q /\ (q == 0)%Q.

(** *** Extracted fields *)


(** *** File names and storage keys *)

(** A character that a sanitized file name may hold. *)
Definition isStored (c : ascii) : bool :=
  isLower c || isDigit c || Ascii.eqb c "." || Ascii.eqb c "_" || Ascii.eqb c "-".

Fixpoint allChars (p : ascii -> bool) (s : string) : bool :=
  match s with
  | String c rest => p c && allChars p rest
  | EmptyString => true
  end.

(** No underscore is followed by another one. *)
Fixpoint singleUnderscores (s : string) : bool :=
  match s with
  | String c rest =>
      match rest with
      | String c' _ => negb (Ascii.eqb c "_" && Ascii.eqb c' "_")
      | EmptyString => true
      end && singleUnderscores rest
  | EmptyString => true
  end.

(** *** What a run leaves in the row of its document *)

(** The row after [updateClassification] and a later change of status. *)
Definition classifiedAs (c : DocumentCategory) (confidence : Num)
    (s : DocumentProcessingStatus) (d : Document) : Document :=
  {| id := id d; applicationId := applicationId d; docCluid := docCluid d;
     originalFileName := originalFileName d; s3Key := s3Key d;
     category := c;
     classificationConfidence := storedConfidence confidence;
     processingStatus := s;
     extractedData := extractedData d;
     extractionVersion := extractionVersion d;
     completenessScore := completenessScore d;
     completenessIssues := completenessIssues d |}.







(** The result of a run that ended in its [catch] clause. *)
Definition failedRun (documentId : string) (message : string) : ProcessingResult :=
  {| processed := false; processedDocumentId := documentId;
     classification := None; extraction := None;
     checklistStatus := None; errors := Some [message] |}.

(** The version rows of a document do not run ahead of its row. *)
Definition versionsBounded (db : Database) : Prop :=
  forall v d,
    In v (extractionVersions db) -> In d (documents db) ->
    evDocumentId v = id d -> evVersion v <= extractionVersion d.

(** Every document belongs to a case that exists (the foreign key of the
    documents table). *)
Definition documentsHaveCases (db : Database) : Prop :=
  forall d, In d (documents db) ->
            exists application,
              ApplicationRepository.findById (applicationId d) db = Some application.

(** The integrity that the tables keep: document ids are a key, every
    document has its case, and no version row runs ahead of its
    document. *)
Definition consistent (db : Database) : Prop :=
  NoDup (map id (documents db)) /\ documentsHaveCases db /\ versionsBounded db.

(* ===================================================================== *)
(** ** Proofs                                                             *)
(* ===================================================================== *)

(** *** Binary64 rounding *)

Lemma roundTiesToEven_bounds x :
  (x - (1 # 2) <= inject_Z (Js.roundTiesToEven x) <= x + (1 # 2))%Q.
Proof.
  unfold Js.roundTiesToEven.
  pose proof (Qfloor_le x) as Hlo. pose proof (Qlt_floor x) as Hhi.
  rewrite inject_Z_plus in Hhi. change (inject_Z 1) with 1%Q in Hhi.
  destruct (Qcompare (x - inject_Z (Qfloor x)) (1 # 2)) eqn:E.
  - apply Qeq_alt in E. destruct (Z.even (Qfloor x)).
    + lra.
    + rewrite inject_Z_plus. change (inject_Z 1) with 1%Q. lra.
  - apply Qlt_alt in E. lra.
  - apply Qgt_alt in E. rewrite inject_Z_plus. change (inject_Z 1) with 1%Q. lra.
Qed.

Lemma roundTiesToEven_nonneg x : (0 <= x)%Q -> 0 <= Js.roundTiesToEven x.
Proof.
  intros Hx.
  assert (H0 : 0 <= Qfloor x).
  { change 0 with (Qfloor 0). apply Qfloor_resp_le, Hx. }
  unfold Js.roundTiesToEven.
  destruct (Qcompare _ _); [destruct (Z.even _)| |]; lia.
Qed.

Lemma roundTiesToEven_positive x : (1 <= x)%Q -> 1 <= Js.roundTiesToEven x.
Proof.
  intros Hx.
  assert (H1 : 1 <= Qfloor x).
  { change 1 with (Qfloor 1). apply Qfloor_resp_le, Hx. }
  unfold Js.roundTiesToEven.
  destruct (Qcompare _ _); [destruct (Z.even _)| |]; lia.
Qed.

Lemma two_power_pos (e : Z) : (0 < 2 ^ e)%Q.
Proof. apply Qpower_0_lt. reflexivity. Qed.

Lemma two_power_le (a b : Z) : a <= b -> (2 ^ a <= 2 ^ b)%Q.
Proof. intros H. apply Qpower_le_compat_l; [exact H|]. discriminate. Qed.

(** The exponent that [exponentOf] finds is not too large. *)
Lemma exponentOf_le x : (0 < x)%Q -> (2 ^ Js.exponentOf x <= x)%Q.
Proof.
  intros Hx. unfold Js.exponentOf.
  set (a := Z.log2 (Qnum x)). set (b := Z.log2 (Zpos (Qden x))).
  destruct (Qle_bool (2 ^ (a - b)) x) eqn:E; [apply Qle_bool_iff, E|].
  assert (Hn : 0 < Qnum x).
  { unfold Qlt in Hx. cbn in Hx. lia. }
  pose proof (Z.log2_spec (Qnum x) Hn) as [Ha _]. fold a in Ha.
  pose proof (Z.log2_spec (Zpos (Qden x)) (Pos2Z.is_pos _)) as [_ Hb]. fold b in Hb.
  assert (Ha0 : 0 <= a) by apply Z.log2_nonneg.
  assert (Hb0 : 0 <= b) by apply Z.log2_nonneg.
  replace (a - b - 1) with (a - (b + 1)) by lia.
  rewrite Qpower_minus by discriminate.
  rewrite <- (Zpower_Qpower 2 a) by exact Ha0.
  rewrite <- (Zpower_Qpower 2 (b + 1)) by lia.
  rewrite <- Z.add_1_r in Hb.
  assert (HB : 0 < 2 ^ (b + 1)) by (apply Z.pow_pos_nonneg; lia).
  assert (HA : 0 < 2 ^ a) by (apply Z.pow_pos_nonneg; lia).
  destruct x as [n d]. cbn [Qnum Qden] in *.
  apply Qle_shift_div_r.
  - change 0%Q with (inject_Z 0). rewrite <- Zlt_Qlt. exact HB.
  - unfold Qle, Qmult, inject_Z. cbn [Qnum Qden].
    rewrite !Z.mul_1_r. rewrite Pos.mul_1_r.
    apply Z.mul_le_mono_nonneg; lia.
Qed.

(** Rounding does not look at the fraction that denotes a number. *)
Lemma double_comp x y : (x == y)%Q -> Js.double x = Js.double y.
Proof.
  intros H. unfold Js.double. rewrite (Qred_complete x y H). reflexivity.
Qed.

Lemma double_of_positive x :
  (0 < x)%Q -> (Js.double x == Js.doublePositive (Qred x))%Q.
Proof.
  intros Hx. unfold Js.double.
  assert (H : (0 < Qred x)%Q) by (rewrite Qred_correct; exact Hx).
  apply Qgt_alt in H. rewrite H. apply Qred_correct.
Qed.

Lemma doublePositive_nonneg x : (0 <= x)%Q -> (0 <= Js.doublePositive x)%Q.
Proof.
  intros Hx. unfold Js.doublePositive.
  set (p := Z.max _ _).
  pose proof (two_power_pos p) as Hp.
  apply Qmult_le_0_compat; [|lra].
  change 0%Q with (inject_Z 0). rewrite <- Zle_Qle. apply roundTiesToEven_nonneg.
  apply Qle_shift_div_l; [exact Hp|lra].
Qed.

Lemma double_nonneg x : (0 <= x)%Q -> (0 <= Js.double x)%Q.
Proof.
  intros Hx. destruct (Qlt_le_dec 0 x) as [Hpos|Hle].
  - rewrite (double_of_positive x Hpos). apply doublePositive_nonneg.
    rewrite Qred_correct. exact Hx.
  - rewrite (double_comp x 0) by lra. change (Js.double 0) with 0%Q. lra.
Qed.

(** A positive double is at least [minDouble], and a real that is at least
    [minDouble] does not round to zero. *)
Lemma doublePositive_ge_min x :
  (0 < Js.doublePositive x)%Q -> (minDouble <= Js.doublePositive x)%Q.
Proof.
  unfold Js.doublePositive.
  set (p := Z.max _ _). set (m := Js.roundTiesToEven _).
  intros Hpos.
  pose proof (two_power_pos p) as Hp.
  assert (Hm : 1 <= m).
  { destruct (Z_lt_le_dec m 1) as [Hlt|Hge]; [|exact Hge]. exfalso.
    assert (Hq : (inject_Z m <= 0)%Q).
    { change 0%Q with (inject_Z 0). rewrite <- Zle_Qle. lia. }
    nra. }
  assert (Hq : (1 <= inject_Z m)%Q).
  { change 1%Q with (inject_Z 1). rewrite <- Zle_Qle. exact Hm. }
  assert (Hmin : (minDouble <= 2 ^ p)%Q) by (apply two_power_le; subst p; lia).
  nra.
Qed.

Lemma double_ge_min x : (0 < Js.double x)%Q -> (minDouble <= Js.double x)%Q.
Proof.
  intros Hpos.
  assert (Hx : (0 < x)%Q).
  { destruct (Qlt_le_dec 0 x) as [H|H]; [exact H|]. exfalso.
    destruct (Qlt_le_dec x 0) as [Hneg|Hge].
    - unfold Js.double in Hpos.
      assert (Hr : Qcompare (Qred x) 0 = Lt)
        by (apply Qlt_alt; rewrite Qred_correct; exact Hneg).
      rewrite Hr, Qred_correct in Hpos.
      pose proof (Qred_correct x) as Hq.
      pose proof (doublePositive_nonneg (- Qred x) ltac:(lra)) as Hnn. lra.
    - rewrite (double_comp x 0) in Hpos by lra.
      change (Js.double 0) with 0%Q in Hpos. lra. }
  rewrite (double_of_positive x Hx) in *. apply doublePositive_ge_min, Hpos.
Qed.

Lemma double_positive x : (minDouble <= x)%Q -> (0 < Js.double x)%Q.
Proof.
  intros Hmin.
  assert (Hpos : (0 < x)%Q).
  { pose proof (two_power_pos (-1074)). unfold minDouble in Hmin. lra. }
  rewrite (double_of_positive x Hpos).
  assert (Hx : (minDouble <= Qred x)%Q) by (rewrite Qred_correct; exact Hmin).
  assert (Hxpos : (0 < Qred x)%Q) by (rewrite Qred_correct; exact Hpos).
  generalize dependent (Qred x). clear. intros x Hx Hpos.
  unfold Js.doublePositive.
  set (p := Z.max _ _).
  pose proof (two_power_pos p) as Hp.
  assert (Hle : (2 ^ p <= x)%Q).
  { subst p. destruct (Z.max_spec (Js.exponentOf x - 52) (-1074)) as [[_ ->]|[_ ->]].
    - exact Hx.
    - eapply Qle_trans; [|apply exponentOf_le, Hpos]. apply two_power_le. lia. }
  assert (Hm : 1 <= Js.roundTiesToEven (x / 2 ^ p)).
  { apply roundTiesToEven_positive. apply Qle_shift_div_l; [exact Hp|lra]. }
  assert (Hq : (1 <= inject_Z (Js.roundTiesToEven (x / 2 ^ p)))%Q).
  { change 1%Q with (inject_Z 1). rewrite <- Zle_Qle. exact Hm. }
  nra.
Qed.

(** A sum of non-negative doubles of which one is positive is positive,
    and no smaller than [minDouble]. *)
Lemma add_ge_min a b :
  (0 <= a)%Q -> (0 <= b)%Q -> (minDouble <= a)%Q \/ (minDouble <= b)%Q ->
  (minDouble <= Js.add a b)%Q.
Proof.
  intros Ha Hb Hmin. unfold Js.add. apply double_ge_min, double_positive.
  destruct Hmin; lra.
Qed.

(** Some doubles, as the literals of the code denote them. *)
Lemma double_examples :
  (Js.double (1 # 10) == 3602879701896397 # 36028797018963968)%Q /\
  (Js.add (Js.double (1 # 10)) (Js.double (2 # 10))
   == 5404319552844596 # 18014398509481984)%Q /\
  (Js.double (3 # 10) == 5404319552844595 # 18014398509481984)%Q /\
  Js.double (1 # 2) = (1 # 2)%Q /\
  Js.double (2 ^ (-1074)) = Qred (2 ^ (-1074)) /\
  Js.double (2 ^ (-1075)) = 0%Q.
Proof. vm_compute. repeat split. Qed.

(** *** Overall completeness *)

Lemma specTotalWeight_nonneg items : (0 <= specTotalWeight items)%Q.
Proof.
  induction items as [|[k [it|]] rest IH]; simpl; try lra.
  destruct (specCounted it); [|exact IH].
  unfold specWeight. destruct (required it); lra.
Qed.

Lemma sameFraction_eq x y : sameFraction x y = true -> x = y.
Proof.
  destruct x as [a b], y as [c d]. unfold sameFraction. cbn [Qnum Qden].
  intros H. apply andb_true_iff in H as [H1 H2].
  apply Z.eqb_eq in H1. apply Pos.eqb_eq in H2. subst. reflexivity.
Qed.

Lemma rangeZ_In lo n z : lo <= z < lo + Z.of_nat n -> In z (rangeZ lo n).
Proof.
  intros H. unfold rangeZ. apply in_map_iff. exists (Z.to_nat (z - lo)).
  split; [lia|]. apply in_seq. lia.
Qed.

Lemma forallb_rangeZ (P : Z -> bool) lo n :
  forallb P (rangeZ lo n) = true -> forall z, lo <= z < lo + Z.of_nat n -> P z = true.
Proof.
  intros H z Hz. rewrite forallb_forall in H. apply H, rangeZ_In, Hz.
Qed.

(** With at most seven items the sums of the loop are exact: they are
    small multiples of a quarter. *)
Lemma totalWeight_exact (w : Z) t :
  (w = 1 \/ w = 2) -> 0 <= t <= 12 ->
  Js.add (inject_Z t) (inject_Z w) = inject_Z (t + w).
Proof.
  intros Hw Ht. apply sameFraction_eq.
  apply (forallb_rangeZ
           (fun t => sameFraction (Js.add (inject_Z t) (inject_Z w)) (inject_Z (t + w)))
           0 13); [|lia].
  destruct Hw as [-> | ->]; vm_compute; reflexivity.
Qed.

Lemma achievedWeight_exact (w : Z) (credit : Q) (k a4 : Z) :
  (w = 1 \/ w = 2) ->
  (credit = (1 # 2)%Q /\ k = 2 * w \/ credit = (1 # 4)%Q /\ k = w) ->
  0 <= a4 <= 48 ->
  Js.add (Qred (a4 # 4)) (Js.mul (inject_Z w) credit) = Qred ((a4 + k) # 4).
Proof.
  intros Hw Hc Ha. apply sameFraction_eq.
  apply (forallb_rangeZ
           (fun a4 => sameFraction (Js.add (Qred (a4 # 4)) (Js.mul (inject_Z w) credit))
                                   (Qred ((a4 + k) # 4)))
           0 49); [|lia].
  destruct Hw as [-> | ->], Hc as [[-> ->]|[-> ->]]; vm_compute; reflexivity.
Qed.

Lemma full_credit_exact (w a4 : Z) :
  (w = 1 \/ w = 2) -> 0 <= a4 <= 48 ->
  Js.add (Qred (a4 # 4)) (inject_Z w) = Qred ((a4 + 4 * w) # 4).
Proof.
  intros Hw Ha. apply sameFraction_eq.
  apply (forallb_rangeZ
           (fun a4 => sameFraction (Js.add (Qred (a4 # 4)) (inject_Z w))
                                   (Qred ((a4 + 4 * w) # 4)))
           0 49); [|lia].
  destruct Hw as [-> | ->]; vm_compute; reflexivity.
Qed.

Lemma weightOf_range entry : 0 <= weightOf entry <= 2.
Proof.
  unfold weightOf. destruct (snd entry) as [it|]; [|lia].
  destruct (specCounted it), (required it); lia.
Qed.

Lemma quartersOf_range entry : 0 <= quartersOf entry <= 4 * weightOf entry.
Proof.
  unfold quartersOf, weightOf. destruct (snd entry) as [it|]; [|lia].
  destruct (specCounted it), (required it), (status it); lia.
Qed.

Lemma completenessStep_exact entry t a4 :
  0 <= t <= 12 -> 0 <= a4 <= 48 ->
  completenessStep (inject_Z t, Qred (a4 # 4)) entry
  = (inject_Z (t + weightOf entry), Qred ((a4 + quartersOf entry) # 4)).
Proof.
  intros Ht Ha. destruct entry as [k [[r s ids iss]|]];
    unfold completenessStep, weightOf, quartersOf, specCounted;
    cbn [snd required status].
  - change 2%Q with (inject_Z 2). change 1%Q with (inject_Z 1).
    destruct r, s;
      try (rewrite bool_decide_true by reflexivity);
      try (rewrite bool_decide_false by discriminate);
      cbn [negb andb];
      rewrite ?Z.add_0_r; try reflexivity;
      try (rewrite (totalWeight_exact 2 t) by (auto; lia));
      try (rewrite (totalWeight_exact 1 t) by (auto; lia)).
    + reflexivity.
    + rewrite (achievedWeight_exact 2 (1 # 2) 4 a4) by (auto; lia). reflexivity.
    + rewrite (full_credit_exact 2 a4) by (auto; lia). reflexivity.
    + rewrite (achievedWeight_exact 2 (1 # 4) 2 a4) by (auto; lia). reflexivity.
    + rewrite (achievedWeight_exact 1 (1 # 2) 2 a4) by (auto; lia). reflexivity.
    + rewrite (full_credit_exact 1 a4) by (auto; lia). reflexivity.
    + rewrite (achievedWeight_exact 1 (1 # 4) 1 a4) by (auto; lia). reflexivity.
  - rewrite !Z.add_0_r. reflexivity.
Qed.

Lemma totalOf_range items :
  0 <= totalOf items <= 2 * Js.length items /\
  0 <= achievedQuarters items <= 4 * totalOf items.
Proof.
  unfold Js.length.
  induction items as [|entry rest IH]; cbn [totalOf achievedQuarters fold_right List.length].
  - lia.
  - fold (totalOf rest). fold (achievedQuarters rest).
    pose proof (weightOf_range entry). pose proof (quartersOf_range entry). lia.
Qed.

Lemma completenessStep_fold items :
  forall t a4,
    0 <= t -> 0 <= a4 <= 4 * t -> t + 2 * Js.length items <= 14 ->
    fold_left completenessStep items (inject_Z t, Qred (a4 # 4))
    = (inject_Z (t + totalOf items), Qred ((a4 + achievedQuarters items) # 4)).
Proof.
  unfold Js.length.
  induction items as [|entry rest IH]; intros t a4 Ht Ha Hlen;
    cbn [fold_left totalOf achievedQuarters fold_right List.length] in *.
  - rewrite !Z.add_0_r. reflexivity.
  - fold (totalOf rest). fold (achievedQuarters rest).
    rewrite completenessStep_exact by lia.
    pose proof (weightOf_range entry). pose proof (quartersOf_range entry).
    rewrite IH by lia. rewrite !Z.add_assoc. reflexivity.
Qed.

(** The integer weights are the weights of the description. *)
Lemma totalOf_spec items :
  (inject_Z (totalOf items) == specTotalWeight items)%Q /\
  (achievedQuarters items # 4 == specAchievedWeight items)%Q.
Proof.
  induction items as [|[k [it|]] rest [IHt IHa]];
    cbn [totalOf achievedQuarters fold_right specTotalWeight specAchievedWeight].
  - split; reflexivity.
  - fold (totalOf rest). fold (achievedQuarters rest).
    unfold weightOf, quartersOf. cbn [snd].
    destruct (specCounted it).
    + rewrite inject_Z_plus, <- IHt, <- IHa. unfold specWeight, specCredit.
      split.
      * destruct (required it); reflexivity.
      * destruct (required it), (status it); unfold Qeq, Qplus, Qmult;
          cbn [Qnum Qden]; lia.
    + rewrite !Z.add_0_l. split; assumption.
  - fold (totalOf rest). fold (achievedQuarters rest).
    unfold weightOf, quartersOf. cbn [snd]. rewrite !Z.add_0_l. split; assumption.
Qed.

(** The result for at most seven entries, from the integer weights. *)
Lemma completenessOfEntries_percentOf items :
  Js.length items <= 7 ->
  completenessOfEntries items
  = if 0 <? totalOf items
    then percentOf (totalOf items) (achievedQuarters items)
    else 0.
Proof.
  intros Hlen. unfold completenessOfEntries.
  change (0%Q, 0%Q) with (inject_Z 0, Qred (0 # 4)).
  rewrite completenessStep_fold by lia. rewrite !Z.add_0_l.
  unfold Js.gt, Js.lt.
  destruct (0 <? totalOf items) eqn:E.
  - apply Z.ltb_lt in E.
    assert (Hq : ~ (inject_Z (totalOf items) <= 0)%Q).
    { change 0%Q with (inject_Z 0). rewrite <- Zle_Qle. lia. }
    destruct (Qle_bool (inject_Z (totalOf items)) 0) eqn:E';
      [apply Qle_bool_iff in E'; contradiction|].
    reflexivity.
  - apply Z.ltb_ge in E.
    assert (Hq : (inject_Z (totalOf items) <= 0)%Q).
    { change 0%Q with (inject_Z 0). rewrite <- Zle_Qle. exact E. }
    apply Qle_bool_iff in Hq. rewrite Hq. reflexivity.
Qed.

(** The table of the percentage over the weights that seven items can
    reach: it stays between 0 and 100, it is 100 only at full weight, and
    it is the exact percentage except at 5.75 of 10. *)
Lemma percentOf_table t a4 :
  1 <= t <= 14 -> 0 <= a4 <= 4 * t -> percentChecked t a4 = true.
Proof.
  intros Ht Ha.
  assert (H : forallb (fun t => forallb (percentChecked t)
                                       (rangeZ 0 (Z.to_nat (4 * t + 1))))
                      (rangeZ 1 14)
              = true) by (vm_compute; reflexivity).
  pose proof (forallb_rangeZ _ 1 14 H t ltac:(lia)) as Hrow. cbv beta in Hrow.
  apply (forallb_rangeZ _ 0 _ Hrow). lia.
Qed.

(** The result for a checklist status, from its integer weights. *)
Lemma calculateOverallCompleteness_weights s :
  let t := totalOf (Object_entries s) in
  let a4 := achievedQuarters (Object_entries s) in
  0 <= t <= 14 /\ 0 <= a4 <= 4 * t /\
  calculateOverallCompleteness s = if 0 <? t then percentOf t a4 else 0.
Proof.
  cbv zeta. pose proof (totalOf_range (Object_entries s)) as [Ht Ha].
  change (Js.length (Object_entries s)) with 7 in Ht.
  split; [lia|]. split; [exact Ha|].
  apply completenessOfEntries_percentOf. unfold Js.length. cbn. lia.
Qed.

Lemma Qeq_bool_inject_Z (x : Q) (n m : Z) :
  (inject_Z n == x)%Q -> Qeq_bool x (inject_Z m) = (n =? m).
Proof.
  intros H. destruct (n =? m) eqn:E.
  - apply Z.eqb_eq in E. subst. apply Qeq_bool_iff. symmetry. exact H.
  - apply Z.eqb_neq in E. destruct (Qeq_bool x (inject_Z m)) eqn:E'; [|reflexivity].
    apply Qeq_bool_iff in E'. rewrite <- H in E'. unfold Qeq in E'. cbn in E'. lia.
Qed.

Lemma Qeq_bool_quarters (x : Q) (n m : Z) :
  (n # 4 == x)%Q -> Qeq_bool x (m # 4) = (n =? m).
Proof.
  intros H. destruct (n =? m) eqn:E.
  - apply Z.eqb_eq in E. subst. apply Qeq_bool_iff. symmetry. exact H.
  - apply Z.eqb_neq in E. destruct (Qeq_bool x (m # 4)) eqn:E'; [|reflexivity].
    apply Qeq_bool_iff in E'. rewrite <- H in E'. unfold Qeq in E'. cbn in E'. lia.
Qed.

(** C5 (as stated, refuted).  With a total weight of 10 and an achieved
    weight of 5.75 the quotient, rounded to a double, is just below 0.575;
    its product with 100 rounds to 57, where
    [round (100 * 5.75 / 10)] is 58. *)
Lemma calculateOverallCompleteness_rounds_the_quotient :
  calculateOverallCompleteness unevenStatus = 57 /\
  specCompleteness (Object_entries unevenStatus) = 58 /\
  calculateOverallCompleteness unevenStatus
  <> specCompleteness (Object_entries unevenStatus).
Proof. vm_compute. repeat split. discriminate. Qed.

(** C5 (amended).  [calculateOverallCompleteness] is [Math.round] of the
    double [(achievedWeight / totalWeight) * 100], the quotient being
    rounded to a double before it is multiplied, with weight 2 for required
    and 1 for optional items, optional missing items left out of both sums,
    full credit for verified, half for pending, a quarter for issues and
    none for a required missing item; it is 0 when the total weight is 0.
    This is [round (100 * achievedWeight / totalWeight)] for every status
    except those with an achieved weight of 5.75 in a total weight of 10,
    which give 57.  A required verified item, an optional missing item and
    a required pending item give 75. *)
Theorem calculateOverallCompleteness_formula :
  (forall checklistStatus,
     let items := Object_entries checklistStatus in
     calculateOverallCompleteness checklistStatus = specCompletenessInDoubles items /\
     calculateOverallCompleteness checklistStatus
     = if Qeq_bool (specTotalWeight items) 10
          && Qeq_bool (specAchievedWeight items) (23 # 4)
       then 57
       else specCompleteness items) /\
  completenessOfEntries
    [ ("identity", Some (item true Verified));
      ("welfareBenefit", Some (item false Missing));
      ("income", Some (item true Pending)) ] = 75.
Proof.
  split; [|vm_compute; reflexivity].
  intros s. cbv zeta.
  destruct (calculateOverallCompleteness_weights s) as (Ht & Ha & Hcalc).
  destruct (totalOf_spec (Object_entries s)) as [HT HA].
  set (t := totalOf (Object_entries s)) in *.
  set (a4 := achievedQuarters (Object_entries s)) in *.
  rewrite Hcalc.
  unfold specCompletenessInDoubles, specCompleteness.
  change 0%Q with (inject_Z 0). change 10%Q with (inject_Z 10).
  rewrite (Qeq_bool_inject_Z _ t 0 HT), (Qeq_bool_inject_Z _ t 10 HT),
          (Qeq_bool_quarters _ a4 23 HA).
  destruct (0 <? t) eqn:E.
  - apply Z.ltb_lt in E.
    assert (Hz : (t =? 0) = false) by (apply Z.eqb_neq; lia). rewrite Hz.
    pose proof (percentOf_table t a4 ltac:(lia) Ha) as Htable.
    unfold percentChecked in Htable.
    apply andb_true_iff in Htable as [_ Htable].
    split.
    + unfold percentOf, Js.mul, Js.div. f_equal. apply double_comp.
      apply Qmult_comp; [|reflexivity].
      rewrite (double_comp (Qred (a4 # 4) / inject_Z t)
                           (specAchievedWeight (Object_entries s)
                            / specTotalWeight (Object_entries s)));
        [reflexivity|].
      rewrite Qred_correct, HA, HT. reflexivity.
    + destruct ((t =? 10) && (a4 =? 23)).
      * apply andb_true_iff in Htable as [Htable _]. apply Z.eqb_eq, Htable.
      * apply Z.eqb_eq in Htable. rewrite Htable. unfold exactPercentOf, Js.round.
        apply Qfloor_comp. rewrite HA, HT. reflexivity.
  - apply Z.ltb_ge in E.
    assert (Hz : (t =? 0) = true) by (apply Z.eqb_eq; lia). rewrite Hz.
    assert (H10 : (t =? 10) = false) by (apply Z.eqb_neq; lia). rewrite H10.
    split; reflexivity.
Qed.

(** *** Grouping by category *)

Lemma groupDocumentsByCategory_filter documents c :
  groupDocumentsByCategory documents c
  = filter (fun d => category d = c) documents.
Proof.
  unfold groupDocumentsByCategory.
  enough (H : forall g,
             fold_left
               (fun groups doc c =>
                  if decide (c = category doc) then groups c ++ [doc] else groups c)
               documents g c
             = g c ++ filter (fun d => category d = c) documents)
    by (rewrite H; reflexivity).
  induction documents as [|d rest IH]; intros g.
  - simpl. rewrite filter_nil, app_nil_r. reflexivity.
  - cbn [fold_left]. rewrite IH. rewrite filter_cons.
    destruct (decide (c = category d)) as [->|Hne].
    + rewrite decide_True by reflexivity. rewrite <- app_assoc. reflexivity.
    + rewrite decide_False by congruence. reflexivity.
Qed.

Lemma fold_left_agree {A B} (f g : A -> B -> A) (l : list B) :
  (forall x, In x l -> forall a, f a x = g a x) ->
  forall a, fold_left f l a = fold_left g l a.
Proof.
  induction l as [|x rest IH]; intros H a; [reflexivity|].
  cbn [fold_left]. rewrite (H x (or_introl eq_refl)).
  apply IH. intros y Hy. apply H. right. exact Hy.
Qed.

Lemma In_group documents c d :
  In d (groupDocumentsByCategory documents c) -> In d documents /\ category d = c.
Proof.
  rewrite groupDocumentsByCategory_filter, <- !list_elem_of_In, list_elem_of_filter.
  tauto.
Qed.

(** *** The clock *)

Section Clock.
Context {host : DateHost}.
Variable requirements : ChecklistRequirements.

Lemma identityStep_agree now1 now2 doc acc :
  hasExpired now1 doc = hasExpired now2 doc ->
  identityStep requirements now1 acc doc = identityStep requirements now2 acc doc.
Proof. intros H. unfold identityStep. rewrite H. reflexivity. Qed.

Lemma evaluateIdentityDocuments_agree now1 now2 documents :
  (forall d, In d documents -> hasExpired now1 d = hasExpired now2 d) ->
  evaluateIdentityDocuments requirements now1 documents
  = evaluateIdentityDocuments requirements now2 documents.
Proof.
  intros H. unfold evaluateIdentityDocuments.
  rewrite (fold_left_agree (identityStep requirements now1)
                           (identityStep requirements now2)); [reflexivity|].
  intros d Hd acc. apply identityStep_agree, H, Hd.
Qed.

Lemma evaluateProofOfAddress_agree now1 now2 documents :
  (forall d, In d documents ->
             isTooOld requirements now1 d = isTooOld requirements now2 d) ->
  evaluateProofOfAddress requirements now1 documents
  = evaluateProofOfAddress requirements now2 documents.
Proof.
  intros H. unfold evaluateProofOfAddress.
  destruct documents as [|d0 rest]; [reflexivity|].
  erewrite fold_left_agree; [reflexivity|].
  intros d Hd acc. cbv beta. rewrite (H d Hd). reflexivity.
Qed.

End Clock.

(** C1 (as stated, refuted).  The same passport and the same applicant data
    give a verified identity item on 1 January 2025 and an identity item with
    issues on 1 January 2026: the result depends on the clock. *)
Lemma evaluateChecklist_depends_on_clock :
  evaluateChecklist (host := UTC.host) DEFAULT_REQUIREMENTS newYear2025 [passport] None
  <> evaluateChecklist (host := UTC.host) DEFAULT_REQUIREMENTS newYear2026 [passport] None.
Proof.
  intros H.
  apply (f_equal (fun s => status (cl_identity s))) in H.
  vm_compute in H. discriminate H.
Qed.

(** C1 (amended).  [evaluateChecklist] is a function of the documents, the
    applicant data and the current time, and the current time enters only
    through the expiry test of identity documents and the age test of
    proof-of-address documents: two evaluations at times on which these tests
    agree return the same status, and so do any two evaluations when no
    identity document carries an expiry date string and no proof-of-address
    document a document date string. *)
Theorem evaluateChecklist_clock_only_in_date_tests
    {host : DateHost} (requirements : ChecklistRequirements)
    (now1 now2 : Z) (documents : list Document) (applicant : option ApplicantData) :
  ((forall d, In d documents -> category d = identity ->
              hasExpired now1 d = hasExpired now2 d) ->
   (forall d, In d documents -> category d = proof_of_address ->
              isTooOld requirements now1 d = isTooOld requirements now2 d) ->
   evaluateChecklist requirements now1 documents applicant
   = evaluateChecklist requirements now2 documents applicant) /\
  ((forall d, In d documents -> category d = identity ->
              dateString "expiryDate" d = None) ->
   (forall d, In d documents -> category d = proof_of_address ->
              dateString "documentDate" d = None) ->
   evaluateChecklist requirements now1 documents applicant
   = evaluateChecklist requirements now2 documents applicant).
Proof.
  assert (Hagree :
            (forall d, In d documents -> category d = identity ->
                       hasExpired now1 d = hasExpired now2 d) ->
            (forall d, In d documents -> category d = proof_of_address ->
                       isTooOld requirements now1 d = isTooOld requirements now2 d) ->
            evaluateChecklist requirements now1 documents applicant
            = evaluateChecklist requirements now2 documents applicant).
  { intros Hid Hpoa. unfold evaluateChecklist.
    rewrite (evaluateIdentityDocuments_agree requirements now1 now2).
    - rewrite (evaluateProofOfAddress_agree requirements now1 now2); [reflexivity|].
      intros d Hd. apply In_group in Hd as [Hd Hc]. apply Hpoa; assumption.
    - intros d Hd. apply In_group in Hd as [Hd Hc]. apply Hid; assumption. }
  split; [exact Hagree|].
  intros Hid Hpoa. apply Hagree.
  - intros d Hd Hc. unfold hasExpired. rewrite (Hid d Hd Hc). reflexivity.
  - intros d Hd Hc. unfold isTooOld. rewrite (Hpoa d Hd Hc). reflexivity.
Qed.

Lemma evaluateChecklist_clock_only_in_date_tests_witness :
  evaluateChecklist (host := UTC.host) DEFAULT_REQUIREMENTS newYear2025
                    [passport; gpLetter] None
  = evaluateChecklist (host := UTC.host) DEFAULT_REQUIREMENTS (newYear2025 + 1)
                      [passport; gpLetter] None
  /\ evaluateChecklist (host := UTC.host) DEFAULT_REQUIREMENTS newYear2025
                       [gpLetter; leaflet] None
     = evaluateChecklist (host := UTC.host) DEFAULT_REQUIREMENTS newYear2026
                         [gpLetter; leaflet] None.
Proof.
  split.
  - apply (proj1 (evaluateChecklist_clock_only_in_date_tests
                    (host := UTC.host) _ _ _ _ _)).
    + intros d [<-|[<-|[]]] _; reflexivity.
    + intros d [<-|[<-|[]]] Hc; vm_compute in Hc; discriminate Hc.
  - apply (proj2 (evaluateChecklist_clock_only_in_date_tests
                    (host := UTC.host) _ _ _ _ _)).
    + intros d [<-|[<-|[]]] Hc; vm_compute in Hc; discriminate Hc.
    + intros d [<-|[<-|[]]] Hc; vm_compute in Hc; discriminate Hc.
Defined.

(** *** Conditionally required slots *)

Lemma lowScoreIssues_spec threshold suffix documents :
  forall issues,
    lowScoreIssues threshold suffix documents issues
    = issues ++ map (fun doc => originalFileName doc +:+ suffix)
                    (List.filter (fun doc => completenessScore doc <? threshold) documents).
Proof.
  unfold lowScoreIssues.
  induction documents as [|d rest IH]; intros issues; cbn [fold_left List.filter].
  - simpl. rewrite app_nil_r. reflexivity.
  - rewrite IH. destruct (completenessScore d <? threshold).
    + rewrite <- app_assoc. reflexivity.
    + reflexivity.
Qed.

Lemma pendingOrVerified_thresholdStatus threshold suffix documents :
  pendingOrVerified (lowScoreIssues threshold suffix documents [])
  = thresholdStatus threshold documents.
Proof.
  rewrite lowScoreIssues_spec. cbn [app]. unfold thresholdStatus.
  induction documents as [|d rest IH]; [reflexivity|].
  cbn [existsb List.filter].
  destruct (completenessScore d <? threshold); [reflexivity|exact IH].
Qed.

Lemma needsMedicalEvidence_true applicant :
  needsMedicalEvidence applicant = true <->
  exists a members m,
    applicant = Some a /\ householdMembers a = Some members /\
    In m members /\ requiresSupport m = Some true.
Proof.
  unfold needsMedicalEvidence. split.
  - destruct applicant as [a|]; [|discriminate].
    destruct (householdMembers a) as [members|] eqn:Hm; [|discriminate].
    intros H. apply existsb_exists in H as [m [Hin Hs]].
    exists a, members, m. repeat split; try assumption.
    destruct (requiresSupport m) as [[|]|]; try discriminate. reflexivity.
  - intros (a & members & m & -> & Hm & Hin & Hs). rewrite Hm.
    apply existsb_exists. exists m. split; [exact Hin|]. rewrite Hs. reflexivity.
Qed.

(** C7 (as stated, refuted).  A medical letter with completeness score 0 is
    below both thresholds of the welfare and tenancy slots, yet the medical
    slot is verified. *)
Lemma medicalEvidence_ignores_completeness :
  status (evaluateMedicalEvidence DEFAULT_REQUIREMENTS [gpLetter] None)
  <> thresholdStatus 70 [gpLetter]
  /\ status (evaluateMedicalEvidence DEFAULT_REQUIREMENTS [gpLetter] None)
     <> thresholdStatus 60 [gpLetter].
Proof. split; vm_compute; discriminate. Qed.

(** C7 (amended).  The medicalEvidence item is required iff the policy
    requires it or some household member requires support; without
    documents it is missing, with an issue list exactly when it is required;
    with at least one document it is verified whatever the completeness
    scores, while welfareBenefit and tenancyAgreement are pending when some
    document scores below 70 (resp. 60) and verified otherwise. *)
Theorem conditional_slots (requirements : ChecklistRequirements)
    (documents : list Document) (applicant : option ApplicantData) :
  let medicalItem := evaluateMedicalEvidence requirements documents applicant in
  (required medicalItem = true <->
     cond_required (req_medicalEvidence requirements) = true \/
     exists a members m,
       applicant = Some a /\ householdMembers a = Some members /\
       In m members /\ requiresSupport m = Some true) /\
  (documents = [] ->
     status medicalItem = Missing /\ documentIds medicalItem = [] /\
     issues medicalItem
     = if required medicalItem
       then Some ["Medical evidence required for support needs assessment"]
       else None) /\
  (documents <> [] ->
     status medicalItem = Verified /\
     documentIds medicalItem = map id documents /\
     issues medicalItem = None /\
     status (evaluateWelfareBenefit requirements documents applicant)
     = thresholdStatus 70 documents /\
     status (evaluateTenancy requirements documents applicant)
     = thresholdStatus 60 documents).
Proof.
  cbv zeta. split; [|split].
  - rewrite <- needsMedicalEvidence_true.
    unfold evaluateMedicalEvidence.
    destruct documents; cbn [required]; apply orb_true_iff.
  - intros ->. cbn. auto.
  - intros Hne. destruct documents as [|d rest]; [contradiction|].
    unfold evaluateMedicalEvidence, evaluateWelfareBenefit, evaluateTenancy.
    cbn [status documentIds issues].
    rewrite !pendingOrVerified_thresholdStatus. auto.
Qed.

Lemma conditional_slots_witness :
  status (evaluateMedicalEvidence DEFAULT_REQUIREMENTS [] None) = Missing /\
  status (evaluateMedicalEvidence DEFAULT_REQUIREMENTS [gpLetter] None) = Verified /\
  status (evaluateWelfareBenefit DEFAULT_REQUIREMENTS [gpLetter] None) = Pending.
Proof.
  destruct (conditional_slots DEFAULT_REQUIREMENTS [] None) as (_ & Hnone & _).
  destruct (conditional_slots DEFAULT_REQUIREMENTS [gpLetter] None) as (_ & _ & Hsome).
  split; [apply Hnone; reflexivity|].
  destruct Hsome as (Hm & _ & _ & Hw & _); [discriminate|].
  split; [exact Hm|exact Hw].
Defined.

(** *** Documents without a checklist slot *)

Lemma group_ignores_unplaced documents c :
  c <> other -> c <> unknown ->
  groupDocumentsByCategory (filter (fun d => ~ isUnplaced d) documents) c
  = groupDocumentsByCategory documents c.
Proof.
  intros Ho Hu. rewrite !groupDocumentsByCategory_filter, list_filter_filter.
  apply list_filter_iff. intros d. unfold isUnplaced. split.
  - tauto.
  - intros <-. tauto.
Qed.

Section DocumentIds.
Context {host : DateHost}.
Variable requirements : ChecklistRequirements.
Variable now : Z.

Lemma documentIds_identity documents i :
  In i (documentIds (evaluateIdentityDocuments requirements now documents)) ->
  In i (map id documents).
Proof.
  unfold evaluateIdentityDocuments. destruct documents as [|d rest]; [intros []|].
  destruct (fold_left _ _ _) as [iss valid].
  destruct (_ <? _); cbn [documentIds]; auto.
Qed.

Lemma documentIds_income documents i :
  In i (documentIds (evaluateIncomeDocuments requirements documents)) ->
  In i (map id documents).
Proof. unfold evaluateIncomeDocuments. destruct documents; [intros []|auto]. Qed.

Lemma documentIds_bank documents i :
  In i (documentIds (evaluateBankStatements requirements documents)) ->
  In i (map id documents).
Proof. unfold evaluateBankStatements. destruct documents; [intros []|auto]. Qed.

Lemma documentIds_address documents i :
  In i (documentIds (evaluateProofOfAddress requirements now documents)) ->
  In i (map id documents).
Proof. unfold evaluateProofOfAddress. destruct documents; [intros []|auto]. Qed.

Lemma documentIds_welfare documents applicant i :
  In i (documentIds (evaluateWelfareBenefit requirements documents applicant)) ->
  In i (map id documents).
Proof. unfold evaluateWelfareBenefit. destruct documents; [intros []|auto]. Qed.

Lemma documentIds_medical documents applicant i :
  In i (documentIds (evaluateMedicalEvidence requirements documents applicant)) ->
  In i (map id documents).
Proof. unfold evaluateMedicalEvidence. destruct documents; [intros []|auto]. Qed.

Lemma documentIds_tenancy documents applicant i :
  In i (documentIds (evaluateTenancy requirements documents applicant)) ->
  In i (map id documents).
Proof. unfold evaluateTenancy. destruct documents; [intros []|auto]. Qed.

Lemma group_id_placed documents c i :
  c <> other -> c <> unknown ->
  In i (map id (groupDocumentsByCategory documents c)) ->
  exists d, In d documents /\ id d = i /\ ~ isUnplaced d.
Proof.
  intros Ho Hu Hi. apply in_map_iff in Hi as [d [Hid Hd]].
  apply In_group in Hd as [Hd Hc]. exists d. repeat split; try assumption.
  unfold isUnplaced. rewrite Hc. tauto.
Qed.

Lemma checklist_ids_placed documents applicant it i :
  In it (checklistItems (evaluateChecklist requirements now documents applicant)) ->
  In i (documentIds it) ->
  exists d, In d documents /\ id d = i /\ ~ isUnplaced d.
Proof.
  unfold checklistItems, evaluateChecklist. cbn.
  intros [<-|[<-|[<-|[<-|[<-|[<-|[<-|[]]]]]]]] Hi.
  - apply documentIds_identity in Hi. eapply group_id_placed; [| |exact Hi]; discriminate.
  - apply documentIds_income in Hi. eapply group_id_placed; [| |exact Hi]; discriminate.
  - apply documentIds_bank in Hi. eapply group_id_placed; [| |exact Hi]; discriminate.
  - apply documentIds_address in Hi. eapply group_id_placed; [| |exact Hi]; discriminate.
  - apply documentIds_welfare in Hi. eapply group_id_placed; [| |exact Hi]; discriminate.
  - apply documentIds_medical in Hi. eapply group_id_placed; [| |exact Hi]; discriminate.
  - apply documentIds_tenancy in Hi. eapply group_id_placed; [| |exact Hi]; discriminate.
Qed.

End DocumentIds.

Lemma NoDup_map_id_inj (documents : list Document) d d' :
  NoDup (map id documents) -> In d documents -> In d' documents ->
  id d = id d' -> d = d'.
Proof.
  induction documents as [|x rest IH]; intros Hnd Hd Hd' Heq; [destruct Hd|].
  cbn [map] in Hnd. apply NoDup_cons in Hnd as [Hx Hnd].
  rewrite list_elem_of_In in Hx.
  destruct Hd as [<-|Hd], Hd' as [<-|Hd'].
  - reflexivity.
  - exfalso. apply Hx. rewrite Heq. apply in_map, Hd'.
  - exfalso. apply Hx. rewrite <- Heq. apply in_map, Hd.
  - apply IH; assumption.
Qed.

(** C10.  Documents of category [other] or [unknown] have no effect on the
    checklist: the evaluation with them equals the evaluation without them
    (and any two document lists that agree on the remaining documents are
    evaluated alike); every id in an item's [documentIds] is the id of an
    input document of another category, so that, ids being unique, no item
    lists the id of an [other] or [unknown] document. *)
Theorem unplaced_documents_have_no_effect
    {host : DateHost} (requirements : ChecklistRequirements) (now : Z)
    (documents : list Document) (applicant : option ApplicantData) :
  let placed := filter (fun d => ~ isUnplaced d) in
  let result := evaluateChecklist requirements now documents applicant in
  evaluateChecklist requirements now (placed documents) applicant = result /\
  (forall documents',
     placed documents' = placed documents ->
     evaluateChecklist requirements now documents' applicant = result) /\
  (forall it i,
     In it (checklistItems result) -> In i (documentIds it) ->
     exists d, In d documents /\ id d = i /\ ~ isUnplaced d) /\
  (NoDup (map id documents) ->
   forall d it,
     In d documents -> isUnplaced d ->
     In it (checklistItems result) -> ~ In (id d) (documentIds it)).
Proof.
  cbv zeta.
  assert (Hfilter : forall docs,
            evaluateChecklist requirements now
              (filter (fun d => ~ isUnplaced d) docs) applicant
            = evaluateChecklist requirements now docs applicant).
  { intros docs. unfold evaluateChecklist.
    rewrite !group_ignores_unplaced by discriminate. reflexivity. }
  split; [apply Hfilter|]. split; [|split].
  - intros documents' Heq. rewrite <- (Hfilter documents'), Heq. apply Hfilter.
  - intros it i. apply checklist_ids_placed.
  - intros Hnd d it Hd Hun Hit Hi.
    destruct (checklist_ids_placed requirements now documents applicant it (id d) Hit Hi)
      as (d' & Hd' & Heq & Hplaced).
    apply Hplaced.
    rewrite (NoDup_map_id_inj documents d' d Hnd Hd' Hd Heq). exact Hun.
Qed.

Lemma unplaced_documents_have_no_effect_witness :
  evaluateChecklist (host := UTC.host) DEFAULT_REQUIREMENTS newYear2025
                    [leaflet; passport] None
  = evaluateChecklist (host := UTC.host) DEFAULT_REQUIREMENTS newYear2025
                      [passport; leaflet; leaflet] None
  /\ forall it,
       In it (checklistItems
                (evaluateChecklist (host := UTC.host) DEFAULT_REQUIREMENTS newYear2025
                                   [leaflet; passport] None)) ->
       ~ In "doc-3" (documentIds it).
Proof.
  destruct (unplaced_documents_have_no_effect (host := UTC.host)
              DEFAULT_REQUIREMENTS newYear2025 [passport; leaflet; leaflet] None)
    as (_ & Hsame & _ & _).
  destruct (unplaced_documents_have_no_effect (host := UTC.host)
              DEFAULT_REQUIREMENTS newYear2025 [leaflet; passport] None)
    as (_ & _ & _ & Hids).
  split.
  - apply Hsame. reflexivity.
  - intros it Hit.
    assert (Hnd : NoDup (map id [leaflet; passport])).
    { apply (bool_decide_unpack _). vm_compute. exact I. }
    apply (Hids Hnd leaflet it).
    + left. reflexivity.
    + left. reflexivity.
    + exact Hit.
Defined.

(** *** Case status *)

Lemma getMissingDocuments_nonempty s :
  (0 <? Js.length (getMissingDocuments s)) = hasRequiredMissing s.
Proof.
  unfold getMissingDocuments, hasRequiredMissing, checklistItems.
  generalize (Object_entries s). intros entries.
  enough (H : forall acc,
             (0 <? Js.length
                     (fold_left
                        (fun missing entry =>
                           match snd entry with
                           | Some item =>
                               if required item && bool_decide (status item = Missing)
                               then missing ++
                                    [match Js.get (fst entry) categoryNames with
                                     | Some name =>
                                         if String.eqb name "" then fst entry else name
                                     | None => fst entry
                                     end]
                               else missing
                           | None => missing
                           end) entries acc))
             = (0 <? Js.length acc)
               || existsb (fun it => required it && bool_decide (status it = Missing))
                          (omap snd entries))
    by (rewrite H; reflexivity).
  induction entries as [|[k [it|]] rest IH]; intros acc.
  - simpl. rewrite orb_false_r. reflexivity.
  - change (omap snd ((k, Some it) :: rest)) with (it :: omap snd rest).
    cbn [fold_left snd fst]. rewrite IH. cbn [existsb].
    destruct (required it && bool_decide (status it = Missing)).
    + unfold Js.length. rewrite length_app. cbn [List.length].
      replace (0 <? Z.of_nat (List.length acc + 1)%nat) with true
        by (symmetry; apply Z.ltb_lt; lia).
      cbn [orb]. rewrite orb_true_r. reflexivity.
    + reflexivity.
  - change (omap snd ((k, None) :: rest)) with (omap snd rest).
    cbn [fold_left snd fst]. apply IH.
Qed.

Lemma statusFor_spec s : statusFor s = specCaseStatus s.
Proof.
  unfold statusFor, specCaseStatus.
  rewrite getMissingDocuments_nonempty. reflexivity.
Qed.

Lemma find_after_delete {A} (f : A -> bool) (l : list A) :
  find f (List.filter (fun x => negb (f x)) l) = None.
Proof.
  induction l as [|x rest IH]; [reflexivity|].
  cbn [List.filter]. destruct (f x) eqn:E; cbn [negb]; [exact IH|].
  cbn [find]. rewrite E. exact IH.
Qed.

Section Refresh.
Context {host : DateHost}.
Variable now : Z.

Lemma updateApplicationChecklist_spec applicationId db application :
  ApplicationRepository.findById applicationId db = Some application ->
  let checklist :=
    evaluateChecklist DEFAULT_REQUIREMENTS now
      (DocumentRepository.findByApplicationId applicationId db)
      (Some (applicantData application)) in
  exists db' application',
    updateApplicationChecklist now applicationId db = (db', inr checklist) /\
    documents db' = documents db /\
    ApplicationRepository.findById applicationId db' = Some application' /\
    applicantData application' = applicantData application /\
    documentChecklistStatus application' = Some checklist /\
    appStatus application' = specCaseStatus checklist.
Proof.
  intros Hfind. cbv zeta. unfold updateApplicationChecklist. rewrite Hfind.
  eexists _, _. split; [reflexivity|]. split; [reflexivity|].
  unfold ApplicationRepository.findById in *.
  unfold ApplicationRepository.updateStatus,
         ApplicationRepository.updateChecklistStatus, withApplications.
  cbn [applications].
  rewrite !lookup_alter_eq, Hfind. cbn.
  split; [reflexivity|]. split; [reflexivity|]. split; [reflexivity|].
  apply statusFor_spec.
Qed.

Lemma updateApplicationChecklist_returns applicationId db db' checklist :
  updateApplicationChecklist now applicationId db = (db', inr checklist) ->
  exists application application',
    ApplicationRepository.findById applicationId db = Some application /\
    checklist = evaluateChecklist DEFAULT_REQUIREMENTS now
                  (DocumentRepository.findByApplicationId applicationId db)
                  (Some (applicantData application)) /\
    documents db' = documents db /\
    ApplicationRepository.findById applicationId db' = Some application' /\
    applicantData application' = applicantData application /\
    documentChecklistStatus application' = Some checklist /\
    appStatus application' = specCaseStatus checklist.
Proof.
  intros Hrun.
  destruct (ApplicationRepository.findById applicationId db) as [application|] eqn:Hfind.
  - destruct (updateApplicationChecklist_spec applicationId db application Hfind)
      as (db2 & application' & Hrun' & Hrest).
    rewrite Hrun' in Hrun. injection Hrun as <- <-.
    exists application, application'. split; [reflexivity|]. split; [reflexivity|].
    exact Hrest.
  - unfold updateApplicationChecklist in Hrun. rewrite Hfind in Hrun.
    discriminate Hrun.
Qed.

End Refresh.

(** *** Documents that the checklist cannot tell apart *)

Lemma sameForChecklist_dateString name d d' :
  sameForChecklist d d' -> dateString name d = dateString name d'.
Proof. intros (_ & _ & _ & _ & He & _). unfold dateString. rewrite He. reflexivity. Qed.

Lemma sameForChecklist_ids l l' :
  Forall2 sameForChecklist l l' -> map id l = map id l'.
Proof.
  induction 1 as [|d d' l l' (Hid & _) _ IH]; [reflexivity|].
  cbn [map]. rewrite Hid, IH. reflexivity.
Qed.

Lemma fold_left_same {A} (f : A -> Document -> A) l l' :
  (forall a d d', sameForChecklist d d' -> f a d = f a d') ->
  Forall2 sameForChecklist l l' ->
  forall a, fold_left f l a = fold_left f l' a.
Proof.
  intros Hf. induction 1 as [|d d' l l' Hd _ IH]; intros a; [reflexivity|].
  cbn [fold_left]. rewrite (Hf a d d' Hd). apply IH.
Qed.

Section Indistinguishable.
Context {host : DateHost}.
Variable requirements : ChecklistRequirements.
Variable now : Z.

Lemma identityStep_same d d' issues valid valid' :
  sameForChecklist d d' -> List.length valid = List.length valid' ->
  fst (identityStep requirements now (issues, valid) d)
  = fst (identityStep requirements now (issues, valid') d') /\
  List.length (snd (identityStep requirements now (issues, valid) d))
  = List.length (snd (identityStep requirements now (issues, valid') d')).
Proof.
  intros Hsame Hlen.
  pose proof (sameForChecklist_dateString "expiryDate" d d' Hsame) as Hdate.
  destruct Hsame as (_ & Hname & _ & Hconf & _ & Hscore & Hfailed).
  unfold identityStep, hasExpired. unfold isFailed in Hfailed.
  rewrite Hfailed, Hname, Hconf, Hscore, Hdate.
  destruct (bool_decide (processingStatus d' = error)
            || bool_decide (processingStatus d' = validation_failed));
    [cbn [fst snd]; auto|].
  destruct (match id_validityCheck (req_identity requirements) with
            | Some true => _
            | _ => false
            end); cbn [fst snd]; [auto|].
  rewrite !length_app, Hlen. auto.
Qed.

Lemma identity_fold_same l l' :
  Forall2 sameForChecklist l l' ->
  forall issues valid valid',
    List.length valid = List.length valid' ->
    fst (fold_left (identityStep requirements now) l (issues, valid))
    = fst (fold_left (identityStep requirements now) l' (issues, valid')) /\
    List.length (snd (fold_left (identityStep requirements now) l (issues, valid)))
    = List.length (snd (fold_left (identityStep requirements now) l' (issues, valid'))).
Proof.
  induction 1 as [|d d' l l' Hd _ IH]; intros issues valid valid' Hlen.
  - cbn. auto.
  - cbn [fold_left].
    destruct (identityStep_same d d' issues valid valid' Hd Hlen) as [Hi Hv].
    destruct (identityStep requirements now (issues, valid) d) as [i1 v1].
    destruct (identityStep requirements now (issues, valid') d') as [i2 v2].
    cbn [fst snd] in Hi, Hv. subst i2. apply IH, Hv.
Qed.

Lemma evaluateIdentityDocuments_same l l' :
  Forall2 sameForChecklist l l' ->
  evaluateIdentityDocuments requirements now l
  = evaluateIdentityDocuments requirements now l'.
Proof.
  intros Hsame. unfold evaluateIdentityDocuments.
  pose proof (sameForChecklist_ids l l' Hsame) as Hids.
  destruct (identity_fold_same l l' Hsame [] [] [] eq_refl) as [Hi Hv].
  destruct Hsame as [|d d' l l' Hd Hrest]; [reflexivity|].
  destruct (fold_left (identityStep requirements now) (d :: l) ([], [])) as [i1 v1].
  destruct (fold_left (identityStep requirements now) (d' :: l') ([], [])) as [i2 v2].
  cbn [fst snd] in Hi, Hv. subst i2. unfold Js.length. rewrite Hv, Hids. reflexivity.
Qed.

Lemma lowScoreIssues_same threshold suffix l l' issues :
  Forall2 sameForChecklist l l' ->
  lowScoreIssues threshold suffix l issues
  = lowScoreIssues threshold suffix l' issues.
Proof.
  intros Hsame. unfold lowScoreIssues. apply fold_left_same; [|exact Hsame].
  intros a d d' (_ & Hname & _ & _ & _ & Hscore & _). rewrite Hname, Hscore. reflexivity.
Qed.

Lemma length_same l l' :
  Forall2 sameForChecklist l l' -> Js.length l = Js.length l'.
Proof. intros H. unfold Js.length. rewrite (Forall2_length _ _ _ H). reflexivity. Qed.

Lemma evaluateIncomeDocuments_same l l' :
  Forall2 sameForChecklist l l' ->
  evaluateIncomeDocuments requirements l = evaluateIncomeDocuments requirements l'.
Proof.
  intros Hsame. unfold evaluateIncomeDocuments.
  rewrite (sameForChecklist_ids l l' Hsame), (length_same l l' Hsame).
  rewrite (lowScoreIssues_same _ _ l l' _ Hsame).
  destruct Hsame; reflexivity.
Qed.

Lemma evaluateBankStatements_same l l' :
  Forall2 sameForChecklist l l' ->
  evaluateBankStatements requirements l = evaluateBankStatements requirements l'.
Proof.
  intros Hsame. unfold evaluateBankStatements.
  rewrite (sameForChecklist_ids l l' Hsame), (length_same l l' Hsame).
  rewrite (lowScoreIssues_same _ _ l l' _ Hsame).
  destruct Hsame; reflexivity.
Qed.

Lemma evaluateProofOfAddress_same l l' :
  Forall2 sameForChecklist l l' ->
  evaluateProofOfAddress requirements now l = evaluateProofOfAddress requirements now l'.
Proof.
  intros Hsame. unfold evaluateProofOfAddress.
  rewrite (sameForChecklist_ids l l' Hsame).
  rewrite (fold_left_same _ l l'); [destruct Hsame; reflexivity| |exact Hsame].
  intros a d d' Hd. unfold isTooOld.
  rewrite (sameForChecklist_dateString "documentDate" d d' Hd).
  destruct Hd as (_ & -> & _). reflexivity.
Qed.

Lemma evaluateWelfareBenefit_same l l' applicant :
  Forall2 sameForChecklist l l' ->
  evaluateWelfareBenefit requirements l applicant
  = evaluateWelfareBenefit requirements l' applicant.
Proof.
  intros Hsame. unfold evaluateWelfareBenefit.
  rewrite (sameForChecklist_ids l l' Hsame), (lowScoreIssues_same _ _ l l' _ Hsame).
  destruct Hsame; reflexivity.
Qed.

Lemma evaluateMedicalEvidence_same l l' applicant :
  Forall2 sameForChecklist l l' ->
  evaluateMedicalEvidence requirements l applicant
  = evaluateMedicalEvidence requirements l' applicant.
Proof.
  intros Hsame. unfold evaluateMedicalEvidence.
  rewrite (sameForChecklist_ids l l' Hsame). destruct Hsame; reflexivity.
Qed.

Lemma evaluateTenancy_same l l' applicant :
  Forall2 sameForChecklist l l' ->
  evaluateTenancy requirements l applicant = evaluateTenancy requirements l' applicant.
Proof.
  intros Hsame. unfold evaluateTenancy.
  rewrite (sameForChecklist_ids l l' Hsame), (lowScoreIssues_same _ _ l l' _ Hsame).
  destruct Hsame; reflexivity.
Qed.

Lemma group_same l l' c :
  Forall2 sameForChecklist l l' ->
  Forall2 sameForChecklist (groupDocumentsByCategory l c) (groupDocumentsByCategory l' c).
Proof.
  rewrite !groupDocumentsByCategory_filter.
  induction 1 as [|d d' l l' Hd _ IH]; [constructor|].
  rewrite !filter_cons.
  assert (Hc : category d = category d') by (destruct Hd as (_ & _ & Hc & _); exact Hc).
  destruct (decide (category d = c)) as [H|H].
  - rewrite decide_True by congruence. constructor; assumption.
  - rewrite decide_False by congruence. exact IH.
Qed.

Lemma evaluateChecklist_same l l' applicant :
  Forall2 sameForChecklist l l' ->
  evaluateChecklist requirements now l applicant
  = evaluateChecklist requirements now l' applicant.
Proof.
  intros Hsame. unfold evaluateChecklist.
  rewrite (evaluateIdentityDocuments_same _ _ (group_same l l' identity Hsame)).
  rewrite (evaluateIncomeDocuments_same _ _ (group_same l l' income Hsame)).
  rewrite (evaluateBankStatements_same _ _ (group_same l l' bank_statement Hsame)).
  rewrite (evaluateProofOfAddress_same _ _ (group_same l l' proof_of_address Hsame)).
  rewrite (evaluateWelfareBenefit_same _ _ applicant
             (group_same l l' welfare_benefit Hsame)).
  rewrite (evaluateMedicalEvidence_same _ _ applicant (group_same l l' medical Hsame)).
  rewrite (evaluateTenancy_same _ _ applicant (group_same l l' tenancy Hsame)).
  reflexivity.
Qed.

End Indistinguishable.

(** *** The pipeline *)

Lemma sameForChecklist_refl d : sameForChecklist d d.
Proof. repeat split. Qed.

Lemma statusIs_updateWhereId documentId s set db :
  (forall d, processingStatus (set d) = s) ->
  statusIs documentId s (DocumentRepository.updateWhereId documentId set db).
Proof.
  intros Hset d Hd Hid.
  unfold DocumentRepository.updateWhereId, withDocuments in Hd. cbn [documents] in Hd.
  apply in_map_iff in Hd as (d0 & <- & _).
  destruct (String.eqb (id d0) documentId) eqn:E; [apply Hset|].
  apply String.eqb_neq in E. contradiction.
Qed.

Lemma statusIs_documents documentId s db db' :
  documents db' = documents db -> statusIs documentId s db -> statusIs documentId s db'.
Proof. intros Heq H d Hd. apply H. rewrite <- Heq. exact Hd. Qed.

Lemma ExtractionVersionRepository_create_documents row db db' r :
  ExtractionVersionRepository.create row db = (db', r) -> documents db' = documents db.
Proof.
  unfold ExtractionVersionRepository.create.
  destruct (existsb _ _); intros [= <- _]; reflexivity.
Qed.

Lemma filter_map_same (keep : Document -> bool) (f : Document -> Document) l :
  (forall d, In d l -> sameForChecklist (f d) d /\ keep (f d) = keep d) ->
  Forall2 sameForChecklist (List.filter keep (map f l)) (List.filter keep l).
Proof.
  induction l as [|d rest IH]; intros H; [constructor|].
  cbn [map List.filter].
  destruct (H d (or_introl eq_refl)) as [Hsame Hkeep]. rewrite Hkeep.
  assert (Hrest : Forall2 sameForChecklist (List.filter keep (map f rest))
                          (List.filter keep rest))
    by (apply IH; intros x Hx; apply H; right; exact Hx).
  destruct (keep d); [constructor; assumption|exact Hrest].
Qed.

Section Pipeline.
Context {host : DateHost}.
Variable now : Z.
Variable getDocumentAsBase64 : string -> Exc (string * string).
Variable uploadExtraction :
  string -> string -> string -> ExtractedDocumentData -> Z -> Exc unit.
Variable classifyDocument : string -> string -> ClassificationResult.
Variable extractionModelCall :
  string -> string -> DocumentCategory -> Exc (option string).
Variable parseExtraction : string -> Exc (list (string * RawValue)).
Variable classificationThreshold : Q.
Variable extractionThreshold : Q.
Variable openaiModel : string.
Variable isoNow : string.
Variable numberToString : Num -> string.

(** After steps 1 and 2 the document is extracted, has failed validation
    or was completed without extraction. *)
Lemma classifyAndExtract_settles documentId document st st' found :
  classifyAndExtract getDocumentAsBase64 uploadExtraction classifyDocument
                     extractionModelCall parseExtraction classificationThreshold
                     extractionThreshold openaiModel isoNow numberToString
                     documentId document st
  = (st', inr found) ->
  exists s,
    (s = extracted \/ s = validation_failed \/ s = completed) /\
    statusIs documentId s (fst st').
Proof.
  unfold classifyAndExtract, stepBind, await, write, read, attempt, stepReturn, pushError.
  destruct (getDocumentAsBase64 (s3Key document)) as [e|[base64 mimeType]];
    [discriminate|].
  cbn [fst snd].
  destruct (negb (bool_decide (resultCategory (classifyDocument base64 mimeType) = unknown))
            && confidentEnough classificationThreshold
                 (resultConfidence (classifyDocument base64 mimeType))).
  - destruct (success _).
    + cbn [fst snd].
      destruct (DocumentRepository.findById documentId _) as [updatedDoc|];
        [|discriminate].
      destruct (ExtractionVersionRepository.create _ _) as [db1 [e|[]]] eqn:Hcreate;
        [discriminate|].
      destruct (uploadExtraction _ _ _ _ _) as [e|[]]; [discriminate|].
      cbn [fst snd]. intros [= <- _]. exists extracted. split; [auto|].
      cbn [fst]. apply (statusIs_documents _ _ db1); [reflexivity|].
      apply ExtractionVersionRepository_create_documents in Hcreate.
      apply (statusIs_documents _ _ _ _ Hcreate).
      apply statusIs_updateWhereId. reflexivity.
    + cbn [fst snd]. intros [= <- _]. exists validation_failed. split; [auto|].
      cbn [fst].
      match goal with
      | |- statusIs _ _ (ProcessingLogRepository.log _ ?db) =>
          apply (statusIs_documents _ _ db); [reflexivity|]
      end.
      apply statusIs_updateWhereId. reflexivity.
  - cbn [fst snd]. intros [= <- _]. exists completed. split; [auto|].
    cbn [fst].
    match goal with
    | |- statusIs _ _ (ProcessingLogRepository.log _ ?db) =>
        apply (statusIs_documents _ _ db); [reflexivity|]
    end.
    apply statusIs_updateWhereId. reflexivity.
Qed.

(** Step 3 and the final status leave the case with the status that the
    rule gives to the checklist of its documents as they are afterwards. *)
Lemma refreshAndComplete_spec documentId document s st st' checklist :
  (s = extracted \/ s = validation_failed \/ s = completed) ->
  statusIs documentId s (fst st) ->
  refreshAndComplete now documentId document st = (st', inr checklist) ->
  exists application',
    ApplicationRepository.findById (applicationId document) (fst st') = Some application' /\
    documentChecklistStatus application' = Some checklist /\
    appStatus application' = specCaseStatus checklist /\
    checklist = evaluateChecklist DEFAULT_REQUIREMENTS now
                  (DocumentRepository.findByApplicationId (applicationId document) (fst st'))
                  (Some (applicantData application')).
Proof.
  intros Hs Hstatus.
  unfold refreshAndComplete, stepBind, attempt, read, write, stepReturn.
  destruct (updateApplicationChecklist now (applicationId document) (fst st))
    as [db2 [e|cl]] eqn:Hup; [discriminate|].
  apply updateApplicationChecklist_returns in Hup
    as (application & application' & _ & Hcl & Hdocs & Hfind & Hdata & Hstored & Hst).
  cbn [fst snd].
  assert (Hstatus2 : statusIs documentId s db2)
    by (apply (statusIs_documents _ _ _ _ Hdocs), Hstatus).
  assert (Hsame2 : DocumentRepository.findByApplicationId (applicationId document) db2
                   = DocumentRepository.findByApplicationId (applicationId document) (fst st))
    by (unfold DocumentRepository.findByApplicationId; rewrite Hdocs; reflexivity).
  destruct (DocumentRepository.findById documentId db2) as [current|] eqn:Hcurrent.
  - destruct (bool_decide (processingStatus current = validation_failed)) eqn:Hvf.
    + cbn [fst snd]. intros [= <- <-]. cbn [fst]. exists application'.
      rewrite Hsame2, Hdata. auto.
    + cbn [fst snd]. intros [= <- <-]. cbn [fst]. exists application'.
      split; [exact Hfind|]. split; [exact Hstored|]. split; [exact Hst|].
      rewrite Hcl, Hdata, <- Hsame2.
      symmetry. apply evaluateChecklist_same.
      unfold DocumentRepository.findByApplicationId,
             DocumentRepository.updateProcessingStatus,
             DocumentRepository.updateWhereId, withDocuments.
      cbn [documents]. apply filter_map_same. intros d Hd.
      destruct (String.eqb (id d) documentId) eqn:E;
        [|split; [apply sameForChecklist_refl|reflexivity]].
      apply String.eqb_eq in E. split; [|reflexivity].
      unfold DocumentRepository.findById in Hcurrent.
      apply find_some in Hcurrent as [Hin Hid]. apply String.eqb_eq in Hid.
      apply bool_decide_eq_false in Hvf.
      rewrite (Hstatus2 current Hin Hid) in Hvf.
      unfold sameForChecklist, DocumentRepository.setProcessingStatus.
      cbn [id originalFileName category classificationConfidence extractedData
           completenessScore processingStatus].
      repeat split. rewrite (Hstatus2 d Hd E).
      destruct Hs as [-> | [-> | ->]]; [reflexivity|contradiction|reflexivity].
  - cbn [fst snd]. intros [= <- <-]. cbn [fst]. exists application'.
    split; [exact Hfind|]. split; [exact Hstored|]. split; [exact Hst|].
    rewrite Hcl, Hdata, <- Hsame2.
    symmetry. apply evaluateChecklist_same.
    unfold DocumentRepository.findByApplicationId,
           DocumentRepository.updateProcessingStatus,
           DocumentRepository.updateWhereId, withDocuments.
    cbn [documents]. apply filter_map_same. intros d Hd.
    destruct (String.eqb (id d) documentId) eqn:E;
      [|split; [apply sameForChecklist_refl|reflexivity]].
    exfalso. unfold DocumentRepository.findById in Hcurrent.
    apply (find_none _ _ Hcurrent) in Hd. congruence.
Qed.

Lemma processDocument_spec documentId db db' result :
  processDocument now getDocumentAsBase64 uploadExtraction classifyDocument
                  extractionModelCall parseExtraction classificationThreshold
                  extractionThreshold openaiModel isoNow numberToString
                  documentId db
  = (db', result) ->
  processed result = true ->
  exists document application' checklist,
    DocumentRepository.findById documentId db = Some document /\
    checklistStatus result = Some checklist /\
    ApplicationRepository.findById (applicationId document) db' = Some application' /\
    documentChecklistStatus application' = Some checklist /\
    appStatus application' = specCaseStatus checklist /\
    checklist = evaluateChecklist DEFAULT_REQUIREMENTS now
                  (DocumentRepository.findByApplicationId (applicationId document) db')
                  (Some (applicantData application')).
Proof.
  unfold processDocument.
  destruct (DocumentRepository.findById documentId db) as [document|];
    [|intros [= <- <-]; discriminate].
  destruct (processSteps _ _ _ _ _ _ _ _ _ _ _ _ _ _) as [st [caught|res]] eqn:Hsteps.
  - unfold processFailed. intros [= <- <-]. discriminate.
  - intros [= <- <-] _. unfold processSteps, stepBind in Hsteps.
    destruct (classifyAndExtract _ _ _ _ _ _ _ _ _ _ _ _ _) as [st1 [e|found]] eqn:HA;
      [discriminate|].
    destruct (refreshAndComplete _ _ _ _) as [st2 [e|checklist]] eqn:HB;
      [discriminate|].
    injection Hsteps as <- <-.
    destruct (classifyAndExtract_settles _ _ _ _ _ HA) as (s & Hs & Hstatus).
    destruct (refreshAndComplete_spec _ _ _ _ _ _ Hs Hstatus HB)
      as (application' & Hfind & Hstored & Hst & Hcl).
    exists document, application', checklist. cbn [checklistStatus fst].
    repeat split; assumption.
Qed.

End Pipeline.

Lemma deleteVersions_cases (storageDelete : string -> Exc unit) (keys : list string) :
  match deleteVersions storageDelete keys with
  | inr _ => forall key, In key keys -> storageDelete key = inr tt
  | inl e => exists key, In key keys /\ storageDelete key = inl e
  end.
Proof.
  induction keys as [|key rest IH]; [intros key []|].
  cbn [deleteVersions bindExc]. destruct (storageDelete key) as [e|[]] eqn:Hkey.
  - exists key. split; [left; reflexivity|exact Hkey].
  - destruct (deleteVersions storageDelete rest) as [e|u].
    + destruct IH as (k & Hin & Hk). exists k. split; [right; exact Hin|exact Hk].
    + intros k [<-|Hin]; [exact Hkey|apply IH, Hin].
Qed.

(** The objects that [deleteDocument] asks the storage to delete: those of
    the version rows of the document, then its current object. *)
Lemma deleteDocument_storage (storageDelete : string -> Exc unit)
    (documentId : string) (document : Document) (db : Database) :
  let keys :=
    map snd (List.filter (fun v => String.eqb (fst v) documentId) (documentVersions db))
    ++ [s3Key document] in
  match (let* _ := deleteVersions storageDelete
                     (map snd (List.filter (fun v => String.eqb (fst v) documentId)
                                           (documentVersions db))) in
         storageDelete (s3Key document)) with
  | inr _ => forall key, In key keys -> storageDelete key = inr tt
  | inl e => exists key, In key keys /\ storageDelete key = inl e
  end.
Proof.
  cbv zeta.
  pose proof (deleteVersions_cases storageDelete
                (map snd (List.filter (fun v => String.eqb (fst v) documentId)
                                      (documentVersions db)))) as Hloop.
  unfold bindExc.
  destruct (deleteVersions storageDelete _) as [e|u].
  - destruct Hloop as (key & Hin & Hkey). exists key.
    split; [apply in_or_app; left; exact Hin|exact Hkey].
  - destruct (storageDelete (s3Key document)) as [e|[]] eqn:Hcurrent.
    + exists (s3Key document).
      split; [apply in_or_app; right; left; reflexivity|exact Hcurrent].
    + intros key Hin. apply in_app_or in Hin as [Hin|[<-|[]]];
        [apply Hloop, Hin|exact Hcurrent].
Qed.

(** C6 (as stated, refuted).  A run whose document cannot be fetched from
    the storage ends in the [catch] clause: it reports failure and leaves
    the case as it was, here in status draft, while the rule gives
    documents_pending to the checklist of the documents of the case. *)
Lemma failed_run_leaves_the_case_status :
  let run :=
    processDocument (host := UTC.host) newYear2025
      (fun _ => throw (ThrownError "NoSuchKey"))
      (fun _ _ _ _ _ => inr tt)
      (fun _ _ => page identity (95 # 100) "passport")
      (fun _ _ _ => throw (ThrownError "Request timed out"))
      (fun _ => throw (ThrownError "Unexpected token"))
      (7 # 10) (6 # 10) "gpt-4o" "2025-01-01T00:00:00.000Z" (fun _ => "0.95")
      "doc-1" exampleDatabase in
  processed (snd run) = false /\
  exists application',
    ApplicationRepository.findById "app-1" (fst run) = Some application' /\
    appStatus application' = draft /\
    documentChecklistStatus application' = None /\
    specCaseStatus
      (evaluateChecklist (host := UTC.host) DEFAULT_REQUIREMENTS newYear2025
         (DocumentRepository.findByApplicationId "app-1" (fst run))
         (Some (applicantData application')))
    = documents_pending.
Proof.
  cbv zeta. split; [vm_compute; reflexivity|].
  exists exampleCase. split; [vm_compute; reflexivity|].
  split; [reflexivity|]. split; [reflexivity|]. vm_compute. reflexivity.
Qed.

(** C6 (amended).  Whenever [updateApplicationChecklist] returns, after a
    pipeline run that reaches its checklist step (one that does not end in
    the [catch] clause), and after a document deletion that returns, the
    case carries the checklist evaluated afresh on its documents and the
    status that the rule derives from it: documents_pending if some required
    item is missing, else documents_review if the overall completeness is
    below 100, else eligibility_check.  The evaluated documents are those of
    the case as the run leaves them; after a deletion they no longer contain
    the deleted one.  A deletion returns exactly when the document exists,
    the storage deletes the objects of its version rows and its current
    object, and the refresh of the checklist on the table without the
    document returns. *)
Theorem case_status_follows_checklist
    {host : DateHost} (now : Z)
    (getDocumentAsBase64 : string -> Exc (string * string))
    (uploadExtraction :
       string -> string -> string -> ExtractedDocumentData -> Z -> Exc unit)
    (storageDelete : string -> Exc unit)
    (classifyDocument : string -> string -> ClassificationResult)
    (extractionModelCall : string -> string -> DocumentCategory -> Exc (option string))
    (parseExtraction : string -> Exc (list (string * RawValue)))
    (classificationThreshold extractionThreshold : Q)
    (openaiModel isoNow : string) (numberToString : Num -> string)
    (db : Database) :
  (forall applicationId db' checklist,
     updateApplicationChecklist now applicationId db = (db', inr checklist) ->
     exists application application',
       ApplicationRepository.findById applicationId db = Some application /\
       checklist = evaluateChecklist DEFAULT_REQUIREMENTS now
                     (DocumentRepository.findByApplicationId applicationId db)
                     (Some (applicantData application)) /\
       DocumentRepository.findByApplicationId applicationId db'
       = DocumentRepository.findByApplicationId applicationId db /\
       ApplicationRepository.findById applicationId db' = Some application' /\
       applicantData application' = applicantData application /\
       documentChecklistStatus application' = Some checklist /\
       appStatus application' = specCaseStatus checklist) /\
  (forall documentId db' result,
     processDocument now getDocumentAsBase64 uploadExtraction classifyDocument
                     extractionModelCall parseExtraction classificationThreshold
                     extractionThreshold openaiModel isoNow numberToString
                     documentId db
     = (db', result) ->
     processed result = true ->
     exists document application' checklist,
       DocumentRepository.findById documentId db = Some document /\
       checklistStatus result = Some checklist /\
       ApplicationRepository.findById (applicationId document) db' = Some application' /\
       documentChecklistStatus application' = Some checklist /\
       appStatus application' = specCaseStatus checklist /\
       checklist = evaluateChecklist DEFAULT_REQUIREMENTS now
                     (DocumentRepository.findByApplicationId (applicationId document) db')
                     (Some (applicantData application'))) /\
  (forall documentId db',
     deleteDocument now storageDelete documentId db = (db', inr tt) ->
     exists document application' checklist,
       DocumentRepository.findById documentId db = Some document /\
       DocumentRepository.findById documentId db' = None /\
       ApplicationRepository.findById (applicationId document) db' = Some application' /\
       documentChecklistStatus application' = Some checklist /\
       appStatus application' = specCaseStatus checklist /\
       checklist = evaluateChecklist DEFAULT_REQUIREMENTS now
                     (DocumentRepository.findByApplicationId (applicationId document) db')
                     (Some (applicantData application'))) /\
  (forall documentId,
     (exists db', deleteDocument now storageDelete documentId db = (db', inr tt)) <->
     (exists document,
        DocumentRepository.findById documentId db = Some document /\
        (forall key,
           In key (map snd (List.filter (fun v => String.eqb (fst v) documentId)
                                        (documentVersions db))
                   ++ [s3Key document]) ->
           storageDelete key = inr tt) /\
        exists db' checklist,
          updateApplicationChecklist now (applicationId document)
                                     (DocumentRepository.delete documentId db)
          = (db', inr checklist))).
Proof.
  split; [|split; [|split]].
  - intros applicationId db' checklist Hrun.
    apply updateApplicationChecklist_returns in Hrun
      as (application & application' & Hfind & Hcl & Hdocs & Hfind' & Hdata & Hstored & Hst).
    exists application, application'. repeat split; try assumption.
    unfold DocumentRepository.findByApplicationId. rewrite Hdocs. reflexivity.
  - intros documentId db' result. apply processDocument_spec.
  - intros documentId db' Hdel. unfold deleteDocument in Hdel.
    destruct (DocumentRepository.findById documentId db) as [document|] eqn:Hdoc;
      [|discriminate Hdel].
    destruct (bindExc _ _) as [e|u]; [discriminate Hdel|].
    destruct (updateApplicationChecklist now (applicationId document)
                (DocumentRepository.delete documentId db))
      as [db2 [e|cl]] eqn:Hup; [discriminate Hdel|].
    injection Hdel as <-.
    apply updateApplicationChecklist_returns in Hup
      as (application & application' & _ & Hcl & Hdocs & Hfind & Hdata & Hstored & Hst).
    exists document, application', cl.
    split; [reflexivity|]. split.
    { unfold DocumentRepository.findById. rewrite Hdocs.
      apply find_after_delete. }
    split; [exact Hfind|]. split; [exact Hstored|]. split; [exact Hst|].
    rewrite Hcl, Hdata.
    unfold DocumentRepository.findByApplicationId. rewrite Hdocs. reflexivity.
  - intros documentId. unfold deleteDocument.
    destruct (DocumentRepository.findById documentId db) as [document|] eqn:Hdoc.
    + pose proof (deleteDocument_storage storageDelete documentId document db) as Hkeys.
      cbv zeta in Hkeys.
      destruct (bindExc _ _) as [e|u].
      * split; [intros (db' & H); discriminate H|].
        intros (document' & [= <-] & Hall & _).
        destruct Hkeys as (key & Hin & Hkey). rewrite (Hall key Hin) in Hkey.
        discriminate Hkey.
      * destruct (updateApplicationChecklist now (applicationId document)
                    (DocumentRepository.delete documentId db))
          as [db2 [e|cl]] eqn:Hup.
        -- split; [intros (db' & H); discriminate H|].
           intros (document' & [= <-] & _ & db' & cl & H). rewrite Hup in H. discriminate H.
        -- split; [|intros _; exists db2; reflexivity].
           intros _. exists document. split; [reflexivity|].
           split; [exact Hkeys|]. exists db2, cl. exact Hup.
    + split; [intros (db' & H); discriminate H|].
      intros (document & H & _). discriminate H.
Qed.

Lemma case_status_follows_checklist_witness :
  let run :=
    processDocument (host := UTC.host) newYear2025
      (fun _ => inr ("aGVsbG8=", "image/png"))
      (fun _ _ _ _ _ => inr tt)
      (fun _ _ => page identity (95 # 100) "passport")
      (fun _ _ _ => throw (ThrownError "Request timed out"))
      (fun _ => throw (ThrownError "Unexpected token"))
      (7 # 10) (6 # 10) "gpt-4o" "2025-01-01T00:00:00.000Z" (fun _ => "0.95")
      "doc-1" exampleDatabase in
  let refresh :=
    updateApplicationChecklist (host := UTC.host) newYear2025 "app-1" exampleDatabase in
  let deletion :=
    deleteDocument (host := UTC.host) newYear2025 (fun _ => inr tt) "doc-1"
                   exampleDatabase in
  (exists checklist application',
     snd refresh = inr checklist /\
     ApplicationRepository.findById "app-1" (fst refresh) = Some application' /\
     appStatus application' = documents_pending) /\
  (processed (snd run) = true /\
   exists application',
     ApplicationRepository.findById "app-1" (fst run) = Some application' /\
     appStatus application' = documents_pending) /\
  (snd deletion = inr tt /\
   DocumentRepository.findById "doc-1" (fst deletion) = None /\
   exists application',
     ApplicationRepository.findById "app-1" (fst deletion) = Some application' /\
     appStatus application' = documents_pending).
Proof.
  cbv zeta.
  set (run := processDocument _ _ _ _ _ _ _ _ _ _ _ _ _).
  set (refresh := updateApplicationChecklist _ _ _).
  set (deletion := deleteDocument _ _ _ _).
  destruct (case_status_follows_checklist (host := UTC.host) newYear2025
              (fun _ => inr ("aGVsbG8=", "image/png"))
              (fun _ _ _ _ _ => inr tt)
              (fun _ => inr tt)
              (fun _ _ => page identity (95 # 100) "passport")
              (fun _ _ _ => throw (ThrownError "Request timed out"))
              (fun _ => throw (ThrownError "Unexpected token"))
              (7 # 10) (6 # 10) "gpt-4o" "2025-01-01T00:00:00.000Z" (fun _ => "0.95")
              exampleDatabase) as (Hrefresh & Hrun & Hdelete & Hreturns).
  split; [|split].
  - destruct (Hrefresh "app-1" (fst refresh)
                (evaluateChecklist (host := UTC.host) DEFAULT_REQUIREMENTS newYear2025
                   [passport; leaflet] (Some (applicantData exampleCase))))
      as (application & application' & Happ & Hcl & _ & Hfind & _ & _ & Hst);
      [reflexivity|].
    eexists _, application'. split; [reflexivity|]. split; [exact Hfind|].
    rewrite Hst. vm_compute. reflexivity.
  - assert (Hok : processed (snd run) = true) by reflexivity.
    split; [exact Hok|].
    destruct (Hrun "doc-1" (fst run) (snd run)) as
      (document & application' & checklist & Hdoc & _ & Hfind & _ & Hst & Hcl).
    + subst run. apply surjective_pairing.
    + exact Hok.
    + injection Hdoc as <-. exists application'. split; [exact Hfind|].
      rewrite Hst, Hcl.
      assert (Hdata : applicantData application' = applicantData exampleCase).
      { clear - Hfind. vm_compute in Hfind. injection Hfind as <-. reflexivity. }
      rewrite Hdata. vm_compute. reflexivity.
  - assert (Hok : snd deletion = inr tt).
    { destruct (proj2 (Hreturns "doc-1")) as (db' & Hdb').
      - exists passport. split; [reflexivity|]. split; [reflexivity|].
        eexists _, _. reflexivity.
      - subst deletion. rewrite Hdb'. reflexivity. }
    split; [exact Hok|].
    destruct (Hdelete "doc-1" (fst deletion)) as
      (document & application' & checklist & Hdoc & Hgone & Hfind & _ & Hst & Hcl).
    + rewrite <- Hok. subst deletion. apply surjective_pairing.
    + split; [exact Hgone|].
      injection Hdoc as <-. exists application'. split; [exact Hfind|].
      rewrite Hst, Hcl.
      assert (Hdata : applicantData application' = applicantData exampleCase).
      { clear - Hfind. vm_compute in Hfind. injection Hfind as <-. reflexivity. }
      rewrite Hdata. vm_compute. reflexivity.
Defined.

(** *** Reference numbers *)

Lemma append_cancel_l (p a b : string) : p +:+ a = p +:+ b -> a = b.
Proof.
  induction p as [|c p IH]; cbn [String.append]; intros H; [exact H|].
  injection H as H. apply IH, H.
Qed.

Lemma zeros_succ (k : nat) :
  String.concat "" (repeat (String "0" "") (S k))
  = String "0" (String.concat "" (repeat (String "0" "") k)).
Proof. destruct k; reflexivity. Qed.

Lemma padding_read (k : nat) (s : string) :
  NilEmpty.uint_of_string
    (String.concat "" (repeat (String "0" "") k) +:+ s)
  = option_map (Nat.iter k Decimal.D0) (NilEmpty.uint_of_string s).
Proof.
  induction k as [|k IH].
  - change (String.concat "" (repeat (String "0" "") 0) +:+ s) with s.
    destruct (NilEmpty.uint_of_string s); reflexivity.
  - rewrite zeros_succ.
    change (String "0" ?x +:+ s) with (String "0" (x +:+ s)).
    cbn [NilEmpty.uint_of_string String.append]. rewrite IH.
    destruct (NilEmpty.uint_of_string s); reflexivity.
Qed.

Lemma of_uint_leading_zeros (k : nat) d :
  N.of_uint (Nat.iter k Decimal.D0 d) = N.of_uint d.
Proof. induction k as [|k IH]; [reflexivity|]. cbn [Nat.iter]. exact IH. Qed.

Lemma readSequence_padStart (p : positive) :
  readSequence (Js.padStart 4 "0" (Js.toString (Z.pos p))) = Some (N.pos p).
Proof.
  unfold readSequence, Js.padStart, Js.toString.
  rewrite padding_read.
  cbn [Z.to_int NilZero.string_of_int].
  unfold NilZero.string_of_uint.
  pose proof (DecimalPos.Unsigned.to_uint_nonnil p) as Hnn.
  destruct (Pos.to_uint p) eqn:E; try contradiction;
    rewrite <- E, NilEmpty.usu; cbn [option_map];
    rewrite of_uint_leading_zeros;
    exact (f_equal Some (DecimalPos.Unsigned.of_to p)).
Qed.

Lemma referenceFor_inj year (j k : nat) :
  (0 < j)%nat -> (0 < k)%nat -> referenceFor year j = referenceFor year k -> j = k.
Proof.
  intros Hj Hk H. unfold referenceFor in H.
  do 3 apply append_cancel_l in H.
  apply (f_equal readSequence) in H.
  destruct j as [|j]; [lia|]. destruct k as [|k]; [lia|].
  change (Z.of_nat (S j)) with (Z.pos (Pos.of_succ_nat j)) in H.
  change (Z.of_nat (S k)) with (Z.pos (Pos.of_succ_nat k)) in H.
  rewrite !readSequence_padStart in H.
  injection H as H. apply SuccNat2Pos.inj in H. congruence.
Qed.

Lemma NoDup_map_on {A B} (f : A -> B) (l : list A) :
  (forall x y, In x l -> In y l -> f x = f y -> x = y) ->
  NoDup l -> NoDup (map f l).
Proof.
  induction l as [|x rest IH]; intros Hinj Hnd; cbn [map].
  - apply NoDup_nil_2.
  - apply NoDup_cons in Hnd as [Hx Hnd]. apply NoDup_cons. split.
    + rewrite list_elem_of_In, in_map_iff. intros (y & Heq & Hy).
      apply Hx. rewrite list_elem_of_In.
      rewrite (Hinj x y); [exact Hy|left; reflexivity|right; exact Hy|congruence].
    + apply IH; [|exact Hnd].
      intros a b Ha Hb. apply Hinj; right; assumption.
Qed.

Lemma generateReferenceNumber_next (year : Z) (seqs : gmap string Z) (v : nat) :
  seqs !! ("ref_number_" +:+ Js.toString year)
  = (if v is O then None else Some (Z.of_nat v)) ->
  exists seqs1,
    ApplicationRepository.generateReferenceNumber year seqs
    = (seqs1, referenceFor year (S v)) /\
    seqs1 !! ("ref_number_" +:+ Js.toString year) = Some (Z.of_nat (S v)).
Proof.
  intros Hv.
  unfold ApplicationRepository.generateReferenceNumber,
         ApplicationRepository.getNextSequence, referenceFor.
  rewrite Hv. destruct v as [|v].
  - eexists. split; [reflexivity|]. apply lookup_insert_eq.
  - replace (Z.of_nat (S v) + 1) with (Z.of_nat (S (S v))) by lia.
    eexists. split; [reflexivity|]. apply lookup_insert_eq.
Qed.

Lemma createMany_from (year : Z) (clientId : string) (data : ApplicantData)
    (uuids : list string) :
  forall (db : Database) (v : nat),
    sequences db !! ("ref_number_" +:+ Js.toString year)
    = (if v is O then None else Some (Z.of_nat v)) ->
    (forall u a k, applications db !! u = Some a -> (v < k)%nat ->
                   referenceNumber a <> referenceFor year k) ->
    NoDup uuids ->
    (forall u, u ∈ uuids -> applications db !! u = None) ->
    exists cases,
      snd (createMany uuids year clientId data db) = map inr cases /\
      map referenceNumber cases
      = map (referenceFor year) (seq (S v) (List.length uuids)) /\
      sequences (fst (createMany uuids year clientId data db))
        !! ("ref_number_" +:+ Js.toString year)
      = (if (v + List.length uuids)%nat is O then None
         else Some (Z.of_nat (v + List.length uuids))).
Proof.
  induction uuids as [|uuid rest IH]; intros db v Hv Hrefs Hnd Hfresh.
  - exists []. cbn [createMany fst snd map seq List.length].
    rewrite Nat.add_0_r. auto.
  - cbn [createMany]. unfold ApplicationRepository.create.
    destruct (generateReferenceNumber_next year (sequences db) v Hv)
      as (seqs1 & Hgen & Hlook).
    rewrite Hgen.
    change (applications (withSequences seqs1 db)) with (applications db).
    rewrite (Hfresh uuid) by apply list_elem_of_here.
    assert (Hfree :
              existsb (fun a => String.eqb (referenceNumber a) (referenceFor year (S v)))
                      (map snd (map_to_list (applications db))) = false).
    { apply not_true_iff_false. intros Htaken.
      apply existsb_exists in Htaken as (a & Hin & Heq).
      apply in_map_iff in Hin as ([u a'] & Hsnd & Hin). cbn [snd] in Hsnd. subst a'.
      apply list_elem_of_In, elem_of_map_to_list in Hin.
      apply String.eqb_eq in Heq.
      apply (Hrefs u a (S v) Hin); [lia|exact Heq]. }
    rewrite Hfree.
    set (created := {| appId := uuid; cluid := clientId;
                       referenceNumber := referenceFor year (S v);
                       appStatus := draft; applicantData := data;
                       documentChecklistStatus := None |}).
    set (db1 := withApplications (<[uuid := created]> (applications db))
                                 (withSequences seqs1 db)).
    apply NoDup_cons in Hnd as [Hnew Hnd].
    destruct (IH db1 (S v)) as (cases & Hres & Hnums & Hfinal).
    + exact Hlook.
    + intros u a k Ha Hk.
      change (applications db1) with (<[uuid := created]> (applications db)) in Ha.
      destruct (decide (uuid = u)) as [<-|Hne].
      * rewrite lookup_insert_eq in Ha. injection Ha as <-. cbn [referenceNumber created].
        intros Heq. apply referenceFor_inj in Heq; lia.
      * rewrite lookup_insert_ne in Ha by exact Hne.
        apply (Hrefs u a k Ha). lia.
    + exact Hnd.
    + intros u Hu.
      change (applications db1) with (<[uuid := created]> (applications db)).
      rewrite lookup_insert_ne by (intros ->; contradiction).
      apply Hfresh, list_elem_of_further, Hu.
    + destruct (createMany rest year clientId data db1) as [db2 others].
      cbn [fst snd] in *. exists (created :: cases).
      split; [rewrite Hres; reflexivity|]. split.
      * cbn [map List.length seq]. rewrite Hnums. reflexivity.
      * rewrite Hfinal. cbn [List.length].
        replace (v + S (List.length rest))%nat with (S v + List.length rest)%nat by lia.
        reflexivity.
Qed.

(** C9.  Starting without a counter for the year (and without a case that
    carries a reference number of that year), creations in a row, one per
    fresh identifier, all succeed and the cases they create carry exactly
    the reference numbers of the sequence numbers 1 to [n] in this order
    (each [SH-<year>-] followed by the number padded to 4 digits), which are
    pairwise distinct; the counter is set to 1 by the first use and grows by
    1 with every later one, so that it ends at [n]. *)
Theorem reference_numbers_sequential (year : Z) (clientId : string)
    (data : ApplicantData) (uuids : list string) (db : Database) :
  sequences db !! ("ref_number_" +:+ Js.toString year) = None ->
  (forall u a k, applications db !! u = Some a ->
                 referenceNumber a <> referenceFor year k) ->
  NoDup uuids ->
  (forall u, u ∈ uuids -> applications db !! u = None) ->
  let n := List.length uuids in
  let run := createMany uuids year clientId data db in
  (exists cases,
     snd run = map inr cases /\
     map referenceNumber cases = map (referenceFor year) (seq 1 n)) /\
  NoDup (map (referenceFor year) (seq 1 n)) /\
  ((0 < n)%nat ->
   sequences (fst run) !! ("ref_number_" +:+ Js.toString year) = Some (Z.of_nat n)) /\
  ApplicationRepository.getNextSequence ("ref_number_" +:+ Js.toString year) (sequences db)
  = (<[("ref_number_" +:+ Js.toString year) := 1]> (sequences db), 1) /\
  (forall seqs current,
     seqs !! ("ref_number_" +:+ Js.toString year) = Some current ->
     ApplicationRepository.getNextSequence ("ref_number_" +:+ Js.toString year) seqs
     = (<[("ref_number_" +:+ Js.toString year) := current + 1]> seqs, current + 1)) /\
  (forall k, 1 <= k <= 9999 ->
             String.length (Js.padStart 4 "0" (Js.toString k)) = 4%nat) /\
  referenceFor 2025 1 = "SH-2025-0001" /\
  referenceFor 2025 42 = "SH-2025-0042".
Proof.
  intros Hnone Hrefs Hnd Hfresh. cbv zeta.
  destruct (createMany_from year clientId data uuids db 0 Hnone
              (fun u a k Ha _ => Hrefs u a k Ha) Hnd Hfresh)
    as (cases & Hres & Hnums & Hfinal).
  split; [exists cases; auto|]. split; [|split; [|split; [|split; [|split]]]].
  - apply NoDup_map_on.
    + intros j k Hj Hk. apply in_seq in Hj, Hk.
      apply referenceFor_inj; lia.
    + apply NoDup_ListNoDup, seq_NoDup.
  - intros Hn. rewrite Hfinal. cbn [Nat.add].
    destruct (List.length uuids); [lia|reflexivity].
  - unfold ApplicationRepository.getNextSequence. rewrite Hnone. reflexivity.
  - intros seqs current Hcur.
    unfold ApplicationRepository.getNextSequence. rewrite Hcur. reflexivity.
  - intros k Hk.
    assert (Hall : forallb (fun k => Nat.eqb (String.length
                               (Js.padStart 4 "0" (Js.toString (Z.of_nat k)))) 4)
                           (seq 1 (Z.to_nat 9999)) = true) by (vm_compute; reflexivity).
    rewrite forallb_forall in Hall.
    rewrite <- (Z2Nat.id k) by lia.
    apply Nat.eqb_eq, Hall, in_seq. lia.
  - split; reflexivity.
Qed.

Lemma reference_numbers_sequential_witness :
  exists cases,
    snd (createMany ["id-a"; "id-b"; "id-c"] 2025 "client-1"
                    (applicantData exampleCase)
                    emptyDatabase)
    = map inr cases /\
    map referenceNumber cases = ["SH-2025-0001"; "SH-2025-0002"; "SH-2025-0003"].
Proof.
  destruct (reference_numbers_sequential 2025 "client-1" (applicantData exampleCase)
              ["id-a"; "id-b"; "id-c"]
              emptyDatabase) as [Hcases _].
  - apply lookup_empty.
  - intros u a k Ha. change (applications emptyDatabase) with (∅ : gmap string Application) in Ha.
    rewrite lookup_empty in Ha. discriminate Ha.
  - apply (bool_decide_unpack _). vm_compute. exact I.
  - intros u _. apply lookup_empty.
  - exact Hcases.
Defined.

(** *** Field normalization *)

Lemma clamp_in_range (q : Q) : (0 <= Js.max 0 (Js.min 1 q) <= 1)%Q.
Proof.
  unfold Js.max, Js.min.
  destruct (Qle_bool 1 q) eqn:E1.
  - change (Qle_bool 0 1) with true. cbv iota. lra.
  - destruct (Qle_bool 0 q) eqn:E0.
    + apply Qle_bool_iff in E0. split; [exact E0|].
      destruct (Qlt_le_dec q 1) as [H|H]; [lra|].
      apply Qle_bool_iff in H. congruence.
    + lra.
Qed.

(** C4.  [processExtractedField] maps null to value null with confidence 0,
    a scalar to itself with confidence 0.7, and an object with a value to
    that value with a confidence between 0 and 1, which is 0.5 when it
    reports none; but a reported confidence of 0 does not stay 0: it becomes
    0.5 as well. *)
Theorem processExtractedField_zero_confidence :
  processExtractedField RawNull = field VNull 0 /\
  (forall s, processExtractedField (RawScalar s) = field (scalarValue s) (7 # 10)) /\
  (forall v c s i,
     value (processExtractedField (RawField v c s i)) = v /\
     (0 <= confidence (processExtractedField (RawField v c s i)) <= 1)%Q) /\
  (forall v s i,
     processExtractedField (RawField v None s i)
     = {| value := v; confidence := 5 # 10; source := s; fieldIssues := i |}) /\
  (forall v s i,
     processExtractedField (RawField v (Some 0%Q) s i)
     = {| value := v; confidence := 5 # 10; source := s; fieldIssues := i |}) /\
  processExtractedFields
    [("fullName", RawField (VString "Jane Doe") (Some 0%Q) None None)] identity
  = [("fullName", field (VString "Jane Doe") (5 # 10))].
Proof.
  split; [reflexivity|]. split; [reflexivity|]. split; [|repeat split].
  intros v c s i. split; [reflexivity|]. apply clamp_in_range.
Qed.

(** *** Extraction completeness *)

Section Completeness.
Variable threshold : Q.
Variable fields : list (string * ExtractedField).
Variable category : DocumentCategory.

Lemma requiredFieldStep_outcome issues filled name :
  exists extra,
    fst (requiredFieldStep threshold fields category (issues, filled) name)
    = issues ++ extra /\
    (snd (requiredFieldStep threshold fields category (issues, filled) name)
     == filled + specPoints (specOutcome threshold fields name))%Q /\
    map (fun i => (issueField i, severity i)) extra
    = match specSeverity (specOutcome threshold fields name) with
      | Some sev => [(name, sev)]
      | None => []
      end.
Proof.
  unfold requiredFieldStep, specOutcome, isMissing, Js.lt.
  destruct (Js.get name fields) as [f|].
  - destruct (value f) as [|s|n|b|];
      [|destruct (String.eqb s "")| | |];
      try (destruct (Qle_bool threshold (confidence f)); cbn [negb]);
      cbn [fst snd specPoints specSeverity];
      first [ exists []; rewrite app_nil_r; repeat split; lra
            | eexists; split; [reflexivity|]; split; [lra|reflexivity] ].
  - cbn [fst snd specPoints specSeverity].
    eexists; split; [reflexivity|]; split; [lra|reflexivity].
Qed.

Lemma requiredFields_fold requiredFields :
  forall issues filled,
    exists extra,
      fst (fold_left (requiredFieldStep threshold fields category)
                     requiredFields (issues, filled))
      = issues ++ extra /\
      (snd (fold_left (requiredFieldStep threshold fields category)
                      requiredFields (issues, filled))
       == filled + specPointsEarned threshold fields requiredFields)%Q /\
      map (fun i => (issueField i, severity i)) extra
      = specRequiredIssues threshold fields requiredFields.
Proof.
  induction requiredFields as [|name rest IH]; intros issues filled.
  - exists []. cbn. rewrite app_nil_r. repeat split. lra.
  - cbn [fold_left].
    destruct (requiredFieldStep_outcome issues filled name) as (e1 & H1 & H2 & H3).
    destruct (requiredFieldStep threshold fields category (issues, filled) name)
      as [issues1 filled1].
    cbn [fst snd] in H1, H2. subst issues1.
    destruct (IH (issues ++ e1) filled1) as (e2 & G1 & G2 & G3).
    exists (e1 ++ e2). split; [|split].
    + rewrite G1, app_assoc. reflexivity.
    + rewrite G2, H2. cbn [specPointsEarned]. lra.
    + rewrite map_app, H3, G3. cbn [specRequiredIssues].
      destruct (specSeverity (specOutcome threshold fields name)); reflexivity.
Qed.

Lemma fieldIssues_fold (entries : list (string * ExtractedField)) :
  forall issues,
    exists own,
      fold_left fieldIssuesStep entries issues = issues ++ own /\
      Forall (fun i => severity i = SevWarning) own.
Proof.
  induction entries as [|entry rest IH]; intros issues.
  - exists []. rewrite app_nil_r. split; [reflexivity|constructor].
  - cbn [fold_left]. unfold fieldIssuesStep at 2.
    destruct (fieldIssues (snd entry)) as [own|].
    + destruct (IH (issues ++ map (fun issue =>
                                     {| issueField := fst entry; severity := SevWarning;
                                        issueMessage := issue; suggestion := None |}) own))
        as (rest' & H1 & H2).
      eexists. rewrite H1, <- app_assoc. split; [reflexivity|].
      apply Forall_app. split; [|exact H2].
      apply Forall_forall. intros i Hi. rewrite list_elem_of_In in Hi.
      apply in_map_iff in Hi as (x & <- & _). reflexivity.
    + apply IH.
Qed.

End Completeness.

(** C3.  The completeness score is [round (100 * points / count)] over the
    required fields, where a field that is present with a confidence of at
    least the threshold earns 1, a present field below the threshold earns
    one half and raises a warning, and a missing field earns nothing and
    raises an error; without required fields the score is 100.  Four
    required fields of which two are fully present, one is below the
    threshold and one is missing score 63. *)
Theorem checkCompleteness_score (threshold : Q)
    (fields : list (string * ExtractedField)) (requiredFields : list string)
    (category : DocumentCategory) :
  let result := checkCompleteness threshold fields requiredFields category in
  fst result = specScore threshold fields requiredFields /\
  (exists own,
     map (fun i => (issueField i, severity i)) (snd result)
     = specRequiredIssues threshold fields requiredFields
       ++ map (fun i => (issueField i, severity i)) own /\
     Forall (fun i => severity i = SevWarning) own) /\
  fst (checkCompleteness threshold fields [] category) = 100 /\
  fst (checkCompleteness (6 # 10) identityFields (REQUIRED_FIELDS identity) identity)
  = 63.
Proof.
  cbv zeta. split; [|split; [|split; reflexivity]].
  - unfold checkCompleteness, specScore.
    destruct (requiredFields_fold threshold fields category requiredFields [] 0)
      as (extra & _ & Hfilled & _).
    destruct (fold_left (requiredFieldStep threshold fields category) requiredFields
                        ([], 0%Q)) as [issues filled].
    cbn [fst snd] in *.
    destruct requiredFields as [|name rest]; [reflexivity|].
    replace (0 <? Js.length (name :: rest)) with true
      by (symmetry; apply Z.ltb_lt; unfold Js.length; cbn [List.length]; lia).
    unfold Js.round. apply Qfloor_comp. rewrite Hfilled.
    assert (Hlen : ~ (inject_Z (Js.length (name :: rest)) == 0)%Q).
    { unfold Js.length. cbn [List.length]. intros H.
      unfold Qeq, inject_Z in H. cbn [Qnum Qden] in H. lia. }
    field. exact Hlen.
  - unfold checkCompleteness.
    destruct (requiredFields_fold threshold fields category requiredFields [] 0)
      as (extra & Hissues & _ & Hsev).
    destruct (fold_left (requiredFieldStep threshold fields category) requiredFields
                        ([], 0%Q)) as [issues filled].
    cbn [fst snd app] in *. subst issues.
    destruct (fieldIssues_fold fields extra) as (own & Hown & Hwarn).
    exists own. rewrite Hown, map_app, Hsev. split; [reflexivity|exact Hwarn].
Qed.

(** *** Extraction failure *)

(** C8.  When the model call throws, or resolves without content,
    [extractDocument] returns the failed result for the category, with no
    fields, score 0 and the single issue on [_general] of severity error
    whose message is [Extraction failed: ] followed by the failure message;
    it returns this result instead of throwing.  A response that cannot be
    parsed ends the same way. *)
Theorem extractDocument_failure (threshold : Q)
    (parseExtraction : string -> Exc (list (string * RawValue)))
    (category : DocumentCategory) :
  (forall message,
     extractDocument threshold parseExtraction (throw (ThrownError message)) category
     = failedExtraction category ("Extraction failed: " +:+ message)) /\
  extractDocument threshold parseExtraction (throw ThrownOther) category
  = failedExtraction category "Extraction failed: Unknown error" /\
  extractDocument threshold parseExtraction (inr None) category
  = failedExtraction category "Extraction failed: No response from extraction model" /\
  extractDocument threshold parseExtraction (inr (Some "")) category
  = failedExtraction category "Extraction failed: No response from extraction model" /\
  (forall content e,
     content <> "" -> parseExtraction content = inl e ->
     extractDocument threshold parseExtraction (inr (Some content)) category
     = failedExtraction category ("Extraction failed: " +:+ errorMessage e)).
Proof.
  repeat split.
  intros content e Hne Hparse. unfold extractDocument, bindExc.
  apply String.eqb_neq in Hne. rewrite Hne, Hparse. reflexivity.
Qed.

Lemma extractDocument_failure_witness :
  extractDocument (6 # 10) (fun _ => throw (ThrownError "Unexpected token"))
                  (inr (Some "not json")) income
  = failedExtraction income "Extraction failed: Unexpected token".
Proof.
  destruct (extractDocument_failure
              (6 # 10) (fun _ => throw (ThrownError "Unexpected token")) income)
    as (_ & _ & _ & _ & Hparse).
  apply (Hparse "not json" (ThrownError "Unexpected token")).
  - discriminate.
  - reflexivity.
Defined.

(** *** Aggregation of page classifications *)

(** C2 (as stated, refuted).  On a payslip page and a passport page of
    confidence 0.5 each, the aggregation returns income, the category seen
    first, where the declaration order puts identity first. *)
Lemma aggregate_tie_not_by_declaration_order :
  resultCategory (aggregateClassifications tiedPages)
  <> winnerByDeclarationOrder tiedPages.
Proof. vm_compute. discriminate. Qed.

Lemma Map_get_set k v m c :
  Map_get c (Map_set k v m) = if decide (k = c) then Some v else Map_get c m.
Proof.
  induction m as [|[k' v'] rest IH]; cbn [Map_set Map_get].
  - reflexivity.
  - destruct (decide (k' = k)) as [->|Hne]; cbn [Map_get].
    + destruct (decide (k = c)); reflexivity.
    + rewrite IH. destruct (decide (k' = c)) as [->|]; [|reflexivity].
      rewrite decide_False by congruence. reflexivity.
Qed.

Lemma Map_set_keys k v m :
  map fst (Map_set k v m)
  = if bool_decide (k ∈ map fst m) then map fst m else map fst m ++ [k].
Proof.
  induction m as [|[k' v'] rest IH]; cbn [Map_set map fst app].
  - rewrite bool_decide_false by (apply not_elem_of_nil). reflexivity.
  - destruct (decide (k' = k)) as [->|Hne]; cbn [map fst].
    + rewrite bool_decide_true by (apply list_elem_of_here). reflexivity.
    + rewrite IH. destruct (bool_decide (k ∈ map fst rest)) eqn:E.
      * apply bool_decide_eq_true in E.
        rewrite bool_decide_true by (apply list_elem_of_further, E). reflexivity.
      * apply bool_decide_eq_false in E.
        rewrite bool_decide_false; [reflexivity|].
        rewrite elem_of_cons. intros [->|H]; [congruence|contradiction].
Qed.

Lemma Map_get_None c m : Map_get c m = None <-> c ∉ map fst m.
Proof.
  induction m as [|[k v] rest IH]; cbn [Map_get map fst].
  - split; [intros _; apply not_elem_of_nil|reflexivity].
  - rewrite not_elem_of_cons. destruct (decide (k = c)) as [->|Hne].
    + split; [discriminate|intros [H _]; congruence].
    + rewrite IH. split; [intros H; split; [congruence|exact H]|intros [_ H]; exact H].
Qed.

Lemma Map_get_In c v m : Map_get c m = Some v -> In (c, v) m.
Proof.
  induction m as [|[k v'] rest IH]; cbn [Map_get]; [discriminate|].
  destruct (decide (k = c)) as [->|Hne].
  - intros [= ->]. left. reflexivity.
  - intros H. right. apply IH, H.
Qed.

Lemma In_Map_get c v m : NoDup (map fst m) -> In (c, v) m -> Map_get c m = Some v.
Proof.
  induction m as [|[k v'] rest IH]; cbn [Map_get map fst]; intros Hnd Hin; [destruct Hin|].
  apply NoDup_cons in Hnd as [Hk Hnd].
  destruct Hin as [[= -> ->]|Hin].
  - rewrite decide_True by reflexivity. reflexivity.
  - destruct (decide (k = c)) as [->|Hne].
    + exfalso. apply Hk. rewrite list_elem_of_In.
      apply (in_map fst) in Hin. exact Hin.
    + apply IH; assumption.
Qed.

Lemma summedScore_snoc c pages r :
  summedScore c (pages ++ [r])
  = if decide (resultCategory r = c)
    then Js.add (summedScore c pages) (conf r)
    else summedScore c pages.
Proof. unfold summedScore, summedScoreFrom. rewrite fold_left_app. reflexivity. Qed.

Lemma summedScoreFrom_absent c pages start :
  (forall r, In r pages -> resultCategory r <> c) -> summedScoreFrom c pages start = start.
Proof.
  revert start. induction pages as [|r rest IH]; intros start H; [reflexivity|].
  unfold summedScoreFrom. cbn [fold_left].
  rewrite decide_False by (apply H; left; reflexivity).
  apply IH. intros r' Hr'. apply H. right. exact Hr'.
Qed.

Lemma summedScore_absent c pages :
  (forall r, In r pages -> resultCategory r <> c) -> summedScore c pages = 0%Q.
Proof. apply summedScoreFrom_absent. Qed.

Lemma summedScoreFrom_nonneg c pages :
  Forall validPage pages ->
  forall start, (0 <= start)%Q -> (0 <= summedScoreFrom c pages start)%Q.
Proof.
  induction 1 as [|r rest (q & Hq & Hr & _) _ IH]; intros start Hstart; [exact Hstart|].
  unfold summedScoreFrom. cbn [fold_left].
  destruct (decide (resultCategory r = c)); [|apply IH, Hstart].
  apply IH. apply double_nonneg. unfold conf. rewrite Hq. lra.
Qed.

Lemma summedScore_nonneg c pages :
  Forall validPage pages -> (0 <= summedScore c pages)%Q.
Proof. intros H. apply summedScoreFrom_nonneg; [exact H|lra]. Qed.

(** The sum of a category that has a page of positive confidence is
    positive: it is at least the smallest positive double. *)
Lemma summedScoreFrom_ge_min c pages :
  Forall validPage pages ->
  forall start,
    (0 <= start)%Q ->
    (minDouble <= start)%Q
    \/ (exists r, In r pages /\ resultCategory r = c /\ (0 < conf r)%Q) ->
    (minDouble <= summedScoreFrom c pages start)%Q.
Proof.
  induction 1 as [|x rest (q & Hq & Hx & Hdouble) Hrest IH]; intros start Hstart Hmin.
  - destruct Hmin as [Hmin|(r & [] & _)]. exact Hmin.
  - unfold summedScoreFrom. cbn [fold_left].
    assert (Hconf : conf x = q) by (unfold conf; rewrite Hq; reflexivity).
    destruct (decide (resultCategory x = c)) as [Hc|Hc].
    + apply IH; [apply double_nonneg; rewrite Hconf; lra|].
      destruct Hmin as [Hmin|(r & [<-|Hin] & Hcat & Hpos)].
      * left. apply add_ge_min; [exact Hstart|rewrite Hconf; lra|left; exact Hmin].
      * left. apply add_ge_min; [exact Hstart|rewrite Hconf; lra|right].
        rewrite Hconf in *. rewrite <- Hdouble. apply double_ge_min.
        rewrite Hdouble. exact Hpos.
      * right. exists r. auto.
    + apply IH; [exact Hstart|].
      destruct Hmin as [Hmin|(r & [<-|Hin] & Hcat & Hpos)];
        [left; exact Hmin|contradiction|right; exists r; auto].
Qed.

Lemma summedScore_positive r pages :
  Forall validPage pages -> In r pages -> (0 < conf r)%Q ->
  (0 < summedScore (resultCategory r) pages)%Q.
Proof.
  intros Hvalid Hin Hpos.
  pose proof (summedScoreFrom_ge_min (resultCategory r) pages Hvalid 0 ltac:(lra)
                (or_intror (ex_intro _ r (conj Hin (conj eq_refl Hpos))))) as H.
  fold (summedScore (resultCategory r) pages) in H.
  pose proof (two_power_pos (-1074)) as Hmin. unfold minDouble in H. lra.
Qed.

Lemma firstSeen_snoc pages r :
  firstSeen (pages ++ [r])
  = if bool_decide (resultCategory r ∈ firstSeen pages)
    then firstSeen pages else firstSeen pages ++ [resultCategory r].
Proof. unfold firstSeen. rewrite fold_left_app. reflexivity. Qed.

Lemma firstSeen_elem c pages :
  c ∈ firstSeen pages <-> exists r, In r pages /\ resultCategory r = c.
Proof.
  induction pages as [|r rest IH] using rev_ind.
  - cbn. split; [intros H; apply not_elem_of_nil in H; destruct H|intros (r & [] & _)].
  - rewrite firstSeen_snoc.
    assert (Hiff : c ∈ firstSeen rest ++ [resultCategory r] <->
                   exists r', In r' (rest ++ [r]) /\ resultCategory r' = c).
    { rewrite elem_of_app, list_elem_of_singleton, IH. split.
      - intros [(r' & Hr' & Hc) | ->].
        + exists r'. split; [apply in_or_app; left; exact Hr'|exact Hc].
        + exists r. split; [apply in_or_app; right; left; reflexivity|reflexivity].
      - intros (r' & Hr' & Hc). apply in_app_or in Hr' as [Hr'|[<-|[]]].
        + left. exists r'. auto.
        + right. symmetry. exact Hc. }
    destruct (bool_decide (resultCategory r ∈ firstSeen rest)) eqn:E; [|exact Hiff].
    apply bool_decide_eq_true in E. rewrite <- Hiff, elem_of_app, list_elem_of_singleton.
    split; [auto|]. intros [H| ->]; assumption.
Qed.

Lemma firstSeen_NoDup pages : NoDup (firstSeen pages).
Proof.
  induction pages as [|r rest IH] using rev_ind; [apply NoDup_nil_2|].
  rewrite firstSeen_snoc.
  destruct (bool_decide (resultCategory r ∈ firstSeen rest)) eqn:E; [exact IH|].
  apply bool_decide_eq_false in E.
  apply NoDup_app. split; [exact IH|]. split.
  - intros x Hx Hx'. apply list_elem_of_singleton in Hx'. subst x. contradiction.
  - apply NoDup_singleton.
Qed.

(** The score map after the first loop: its keys are the categories in
    the order of their first appearance, its values their summed scores. *)
Lemma categoryScoresOf_spec pages :
  Forall validPage pages ->
  map fst (categoryScoresOf pages) = firstSeen pages /\
  forall c v, Map_get c (categoryScoresOf pages) = Some v ->
              v = Fin (summedScore c pages).
Proof.
  induction pages as [|r rest IH] using rev_ind; intros Hvalid.
  - split; [reflexivity|]. intros c v H. discriminate H.
  - apply Forall_app in Hvalid as [Hrest Hr].
    apply Forall_cons_1 in Hr as [(q & Hq & Hrange) _].
    destruct (IH Hrest) as [Hkeys Hvals].
    unfold categoryScoresOf in *. rewrite fold_left_app. cbn [fold_left].
    set (M := fold_left _ rest []) in *.
    split.
    + rewrite Map_set_keys, Hkeys, firstSeen_snoc. reflexivity.
    + intros c v. rewrite Map_get_set, summedScore_snoc.
      destruct (decide (resultCategory r = c)) as [<-|Hne].
      * intros [= <-]. rewrite Hq. unfold conf. rewrite Hq.
        destruct (Map_get (resultCategory r) M) as [v0|] eqn:Hget.
        -- rewrite (Hvals _ _ Hget). reflexivity.
        -- rewrite summedScore_absent; [reflexivity|].
           intros r' Hr' Hc. apply Map_get_None in Hget. apply Hget.
           rewrite Hkeys. apply firstSeen_elem. exists r'. auto.
      * intros Hget. apply Hvals, Hget.
Qed.

Lemma Js_gt_true a b : Js.gt a b = true <-> (b < a)%Q.
Proof.
  unfold Js.gt, Js.lt. rewrite negb_true_iff. split.
  - intros H. destruct (Qlt_le_dec b a) as [Hlt|Hle]; [exact Hlt|].
    apply Qle_bool_iff in Hle. congruence.
  - intros H. destruct (Qle_bool a b) eqn:E; [|reflexivity].
    apply Qle_bool_iff in E. lra.
Qed.

Lemma Js_gt_false a b : Js.gt a b = false <-> (a <= b)%Q.
Proof.
  unfold Js.gt, Js.lt. rewrite negb_false_iff. apply Qle_bool_iff.
Qed.

(** The second loop keeps the first entry of maximal score, provided that
    some score is positive. *)
Lemma bestOf_from (M : list (DocumentCategory * Num)) :
  (forall c v, In (c, v) M -> exists q, v = Fin q) ->
  forall b q0,
    let res :=
      fold_left
        (fun best entry =>
           if Num.gt (snd entry) (snd best) then (fst entry, snd entry) else best)
        M (b, Fin q0) in
    (res = (b, Fin q0) /\ forall c q, In (c, Fin q) M -> (q <= q0)%Q) \/
    (exists M1 w q M2,
        M = M1 ++ (w, Fin q) :: M2 /\ res = (w, Fin q) /\ (q0 < q)%Q /\
        (forall c q', In (c, Fin q') M1 -> (q' < q)%Q) /\
        (forall c q', In (c, Fin q') M2 -> (q' <= q)%Q)).
Proof.
  induction M as [|[c v] rest IH]; intros Hfin b q0; cbv zeta.
  - left. split; [reflexivity|]. intros c q [].
  - destruct (Hfin c v (or_introl eq_refl)) as [qc ->].
    assert (Hrest : forall c v, In (c, v) rest -> exists q, v = Fin q)
      by (intros c' v' H; apply (Hfin c' v'); right; exact H).
    cbn [fold_left fst snd Num.gt].
    destruct (Js.gt qc q0) eqn:E.
    + apply Js_gt_true in E.
      destruct (IH Hrest c qc) as [[Hres Hle]|(M1 & w & q & M2 & HM & Hres & Hlt & H1 & H2)].
      * right. exists [], c, qc, rest. repeat split; try assumption.
        intros c' q' [].
      * right. exists ((c, Fin qc) :: M1), w, q, M2.
        split; [rewrite HM; reflexivity|]. split; [exact Hres|].
        split; [lra|]. split; [|exact H2].
        intros c' q' [[= <- <-]|Hin]; [exact Hlt|apply (H1 c'), Hin].
    + apply Js_gt_false in E.
      destruct (IH Hrest b q0) as [[Hres Hle]|(M1 & w & q & M2 & HM & Hres & Hlt & H1 & H2)].
      * left. split; [exact Hres|].
        intros c' q' [[= <- <-]|Hin]; [exact E|apply (Hle c'), Hin].
      * right. exists ((c, Fin qc) :: M1), w, q, M2.
        split; [rewrite HM; reflexivity|]. split; [exact Hres|].
        split; [exact Hlt|]. split; [|exact H2].
        intros c' q' [[= <- <-]|Hin]; [lra|apply (H1 c'), Hin].
Qed.

Section SortFacts.
Context {A : Type}.
Variable positive : A -> A -> bool.
Variable key : A -> Q.
Variable P : A -> Prop.
Hypothesis positive_key :
  forall x y, P x -> P y -> positive x y = Js.gt (key y) (key x).

Lemma insertSorted_perm x sorted : Permutation (insertSorted positive x sorted) (x :: sorted).
Proof.
  induction sorted as [|y rest IH]; cbn [insertSorted]; [reflexivity|].
  destruct (positive x y); [|reflexivity].
  rewrite IH. apply perm_swap.
Qed.

Lemma sortBy_perm xs : Permutation (sortBy positive xs) xs.
Proof.
  induction xs as [|x rest IH]; [reflexivity|].
  unfold sortBy in *. cbn [foldr]. rewrite insertSorted_perm, IH. reflexivity.
Qed.

Lemma sortBy_Forall xs : Forall P xs -> Forall P (sortBy positive xs).
Proof. intros H. rewrite sortBy_perm. exact H. Qed.

Lemma insertSorted_sorted x sorted :
  P x -> Forall P sorted ->
  StronglySorted (notBelow key) sorted ->
  StronglySorted (notBelow key) (insertSorted positive x sorted).
Proof.
  intros Hx Hall Hs. induction Hs as [|y rest Hs IH Hy]; cbn [insertSorted].
  - constructor; constructor.
  - apply Forall_cons_1 in Hall as [Py Hall].
    rewrite (positive_key x y Hx Py).
    destruct (Js.gt (key y) (key x)) eqn:E.
    + apply Js_gt_true in E. constructor; [apply IH, Hall|].
      rewrite insertSorted_perm. constructor; [unfold notBelow; lra|exact Hy].
    + apply Js_gt_false in E. constructor; [constructor; assumption|].
      constructor; [exact E|].
      eapply Forall_impl; [exact Hy|].
      intros z Hz. unfold notBelow in *. lra.
Qed.

Lemma sortBy_sorted xs : Forall P xs -> StronglySorted (notBelow key) (sortBy positive xs).
Proof.
  induction 1 as [|x rest Hx Hrest IH]; [constructor|].
  unfold sortBy in *. cbn [foldr].
  apply insertSorted_sorted; [exact Hx|apply sortBy_Forall, Hrest|exact IH].
Qed.

Lemma head_insertSorted x sorted :
  head (insertSorted positive x sorted)
  = match head sorted with
    | Some y => if positive x y then Some y else Some x
    | None => Some x
    end.
Proof. destruct sorted as [|y rest]; cbn; [reflexivity|]. destruct (positive x y); reflexivity. Qed.

(** The head of the sorted list is the first element of maximal key. *)
Lemma sortBy_head xs :
  Forall P xs -> xs <> [] ->
  exists l1 best l2,
    xs = l1 ++ best :: l2 /\ head (sortBy positive xs) = Some best /\
    (forall r, In r l1 -> (key r < key best)%Q) /\
    (forall r, In r l2 -> (key r <= key best)%Q).
Proof.
  induction 1 as [|x rest Hx Hrest IH]; intros Hne; [contradiction|].
  unfold sortBy in *. cbn [foldr]. rewrite head_insertSorted.
  destruct rest as [|y rest'].
  - exists [], x, []. cbn. repeat split; intros r [].
  - destruct IH as (l1 & best & l2 & Hsplit & Hhead & H1 & H2); [discriminate|].
    rewrite Hhead.
    assert (Pbest : P best).
    { rewrite Forall_forall in Hrest. apply Hrest. rewrite Hsplit.
      apply elem_of_app. right. apply list_elem_of_here. }
    rewrite (positive_key x best Hx Pbest).
    destruct (Js.gt (key best) (key x)) eqn:E.
    + apply Js_gt_true in E. exists (x :: l1), best, l2.
      split; [rewrite Hsplit; reflexivity|]. split; [reflexivity|].
      split; [|exact H2]. intros r [<-|Hr]; [exact E|apply H1, Hr].
    + apply Js_gt_false in E. exists [], x, (y :: rest').
      split; [reflexivity|]. split; [reflexivity|].
      split; [intros r []|]. intros r Hr. rewrite Hsplit in Hr.
      apply in_app_or in Hr as [Hr|[<-|Hr]].
      * apply H1 in Hr. lra.
      * exact E.
      * apply H2 in Hr. lra.
Qed.

End SortFacts.

Lemma StronglySorted_app_inv {A} (R : A -> A -> Prop) (l1 l2 : list A) :
  StronglySorted R (l1 ++ l2) ->
  StronglySorted R l1 /\ forall a b, In a l1 -> In b l2 -> R a b.
Proof.
  induction l1 as [|x rest IH]; cbn [app]; intros Hs.
  - split; [constructor|]. intros a b [].
  - apply StronglySorted_inv in Hs as [Hs Hx].
    destruct (IH Hs) as [Hrest Hcross]. split.
    + constructor; [exact Hrest|].
      apply Forall_app in Hx as [Hx _]. exact Hx.
    + intros a b [<-|Ha] Hb.
      * rewrite Forall_forall in Hx. apply Hx.
        apply elem_of_app. right. apply list_elem_of_In, Hb.
      * apply Hcross; assumption.
Qed.

Lemma alternatives_loop (M : list (DocumentCategory * Num)) w :
  forall acc,
    fold_left
      (fun alternatives entry =>
         if negb (bool_decide (fst entry = w)) && Num.gt (snd entry) (Fin (Js.double (3 # 10)))
         then alternatives ++ [(fst entry, Num.min (snd entry) (Fin 1))]
         else alternatives)
      M acc
    = acc ++ alternativeCandidates M w.
Proof.
  induction M as [|[c v] rest IH]; intros acc; cbn [fold_left alternativeCandidates fst snd].
  - rewrite app_nil_r. reflexivity.
  - rewrite IH.
    destruct (negb (bool_decide (c = w)) && Num.gt v (Fin (Js.double (3 # 10)))).
    + rewrite <- app_assoc. reflexivity.
    + reflexivity.
Qed.

Lemma In_alternativeCandidates (M : list (DocumentCategory * Num)) w c v' :
  In (c, v') (alternativeCandidates M w) <->
  exists v, In (c, v) M /\ c <> w /\ Num.gt v (Fin (Js.double (3 # 10))) = true /\
            v' = Num.min v (Fin 1).
Proof.
  induction M as [|[k v] rest IH]; cbn [alternativeCandidates].
  - split; [intros []|intros (v & [] & _)].
  - destruct (negb (bool_decide (k = w)) && Num.gt v (Fin (Js.double (3 # 10)))) eqn:E.
    + apply andb_true_iff in E as [Hk Hgt].
      apply negb_true_iff, bool_decide_eq_false in Hk.
      cbn [In]. rewrite IH. split.
      * intros [Heq|(v0 & Hin & Hprops)].
        -- injection Heq as <- <-. exists v. split; [left; reflexivity|]. auto.
        -- exists v0. split; [right; exact Hin|exact Hprops].
      * intros (v0 & [Heq|Hin] & Hprops).
        -- injection Heq as <- <-. left.
           destruct Hprops as (_ & _ & ->). reflexivity.
        -- right. exists v0. auto.
    + rewrite IH. split.
      * intros (v0 & Hin & Hprops). exists v0. split; [right; exact Hin|exact Hprops].
      * intros (v0 & [Heq|Hin] & Hne & Hgt & Hv).
        -- injection Heq as <- <-. exfalso. apply andb_false_iff in E as [E|E].
           ++ apply negb_false_iff, bool_decide_eq_true in E. contradiction.
           ++ congruence.
        -- exists v0. auto.
Qed.

Lemma sum_of_category w pages :
  Forall validPage pages ->
  forall a,
    fold_left (fun sum r => Num.add sum (resultConfidence r))
              (filter (fun r => resultCategory r = w) pages) (Fin a)
    = Fin (summedScoreFrom w pages a).
Proof.
  induction 1 as [|r rest (qr & Hqr & _) _ IH]; intros a; [reflexivity|].
  rewrite filter_cons. unfold summedScoreFrom. cbn [fold_left].
  destruct (decide (resultCategory r = w)) as [Hc|Hc]; [|apply IH].
  cbn [fold_left]. rewrite Hqr. cbn [Num.add]. rewrite IH.
  unfold conf. rewrite Hqr. reflexivity.
Qed.

Lemma alternativeCandidates_keys (M : list (DocumentCategory * Num)) w :
  NoDup (map fst M) -> NoDup (map fst (alternativeCandidates M w)).
Proof.
  induction M as [|[c v] rest IH]; cbn [alternativeCandidates map fst]; intros Hnd;
    [exact Hnd|].
  apply NoDup_cons in Hnd as [Hc Hnd].
  destruct (negb (bool_decide (c = w)) && Num.gt v (Fin (Js.double (3 # 10))));
    [|apply IH, Hnd].
  cbn [map fst]. apply NoDup_cons. split; [|apply IH, Hnd].
  intros Hin. apply Hc. clear - Hin.
  induction rest as [|[c' v'] rest IH]; cbn [alternativeCandidates map fst] in *;
    [exact Hin|].
  destruct (negb (bool_decide (c' = w)) && Num.gt v' (Fin (Js.double (3 # 10)))).
  - cbn [map fst] in Hin. apply elem_of_cons in Hin as [->|Hin];
      [apply list_elem_of_here|apply list_elem_of_further, IH, Hin].
  - apply list_elem_of_further, IH, Hin.
Qed.

Lemma firstSeen_extends (l : list ClassificationResult) :
  forall seen,
    exists more,
      fold_left
        (fun seen r =>
           if bool_decide (resultCategory r ∈ seen) then seen
           else seen ++ [resultCategory r])
        l seen
      = seen ++ more.
Proof.
  induction l as [|r rest IH]; intros seen; cbn [fold_left].
  - exists []. rewrite app_nil_r. reflexivity.
  - destruct (bool_decide (resultCategory r ∈ seen)); [apply IH|].
    destruct (IH (seen ++ [resultCategory r])) as [more Hmore].
    exists (resultCategory r :: more). rewrite Hmore, <- app_assoc. reflexivity.
Qed.

Lemma firstSeen_split pre r post :
  (forall r', In r' pre -> resultCategory r' <> resultCategory r) ->
  exists more,
    firstSeen (pre ++ r :: post) = firstSeen pre ++ resultCategory r :: more.
Proof.
  intros Hnew. unfold firstSeen. rewrite fold_left_app. cbn [fold_left].
  fold (firstSeen pre).
  rewrite bool_decide_false.
  - destruct (firstSeen_extends post (firstSeen pre ++ [resultCategory r]))
      as [more Hmore].
    exists more. rewrite Hmore, <- app_assoc. reflexivity.
  - rewrite firstSeen_elem. intros (r' & Hr' & Hc). apply (Hnew r' Hr' Hc).
Qed.

Lemma byConfidenceDesc_key x y :
  validPage x -> validPage y -> byConfidenceDesc x y = Js.gt (conf y) (conf x).
Proof.
  intros (qx & Hx & _) (qy & Hy & _). unfold byConfidenceDesc, conf.
  rewrite Hx, Hy. reflexivity.
Qed.

Lemma byAltConfidenceDesc_key (x y : DocumentCategory * Num) :
  (exists q, snd x = Fin q) -> (exists q, snd y = Fin q) ->
  byAltConfidenceDesc x y = Js.gt (altConf y) (altConf x).
Proof.
  intros (qx & Hx) (qy & Hy). unfold byAltConfidenceDesc, altConf.
  rewrite Hx, Hy. reflexivity.
Qed.

(** C2 (amended).  For pages whose confidences are doubles between 0 and
    1, one of them positive, with the confidences of a category added up in
    page order in double precision: the aggregated category is a category
    of maximal summed confidence, and among several such the one whose first
    page comes first; the confidence is the sum of that category divided by
    the number of its pages, a double again; the subtype is that of its
    first page of highest confidence; the alternatives are other
    categories, each at most once, whose summed confidence exceeds the
    double 0.3, each with its sum capped at 1, in descending order, two at
    most, and a qualifying category is left out only when two alternatives
    at least as good are listed. *)
Theorem aggregateClassifications_spec (pages : list ClassificationResult) :
  Forall validPage pages ->
  (exists r, In r pages /\ (0 < conf r)%Q) ->
  let result := aggregateClassifications pages in
  let w := resultCategory result in
  let ofWinner := filter (fun r => resultCategory r = w) pages in
  (exists r, In r pages /\ resultCategory r = w) /\
  (forall c, (summedScore c pages <= summedScore w pages)%Q) /\
  (forall pre r post,
     pages = pre ++ r :: post -> resultCategory r = w ->
     (forall r', In r' pre -> resultCategory r' <> w) ->
     forall r', In r' pre ->
                (summedScore (resultCategory r') pages < summedScore w pages)%Q) /\
  resultConfidence result
  = Fin (Js.div (summedScore w pages) (inject_Z (Js.length ofWinner))) /\
  (exists l1 best l2,
     ofWinner = l1 ++ best :: l2 /\ subtype result = subtype best /\
     (forall r, In r l1 -> (conf r < conf best)%Q) /\
     (forall r, In r l2 -> (conf r <= conf best)%Q)) /\
  (exists alts,
     alternativeCategories result = Some alts /\
     (List.length alts <= 2)%nat /\
     NoDup (map fst alts) /\
     StronglySorted (notBelow altConf) alts /\
     (forall c v,
        In (c, v) alts ->
        c <> w /\ (Js.double (3 # 10) < summedScore c pages)%Q /\
        v = Fin (Js.min (summedScore c pages) 1)) /\
     (forall c,
        c <> w -> (Js.double (3 # 10) < summedScore c pages)%Q ->
        In c (map fst alts) \/
        (List.length alts = 2%nat /\
         forall a, In a alts -> (Js.min (summedScore c pages) 1 <= altConf a)%Q))).
Proof.
  intros Hvalid (r0 & Hr0 & Hpos). cbv zeta.
  destruct (categoryScoresOf_spec pages Hvalid) as [Hkeys Hvals].
  unfold aggregateClassifications.
  cbn [resultCategory resultConfidence subtype alternativeCategories].
  set (M := categoryScoresOf pages) in *.
  assert (Hnd : NoDup (map fst M)) by (rewrite Hkeys; apply firstSeen_NoDup).
  assert (Hfin : forall c v, In (c, v) M -> v = Fin (summedScore c pages)).
  { intros c v Hin. apply (Hvals c v), In_Map_get; assumption. }
  assert (Hhas : forall c, c ∈ firstSeen pages -> In (c, Fin (summedScore c pages)) M).
  { intros c Hc. rewrite <- Hkeys in Hc.
    destruct (Map_get c M) as [v|] eqn:Hget.
    - rewrite <- (Hvals c v Hget). apply Map_get_In, Hget.
    - apply Map_get_None in Hget. contradiction. }
  destruct (bestOf_from M (fun c v H => ex_intro _ _ (Hfin c v H)) unknown 0)
    as [[_ Hle]|(M1 & w & q & M2 & HM & Hbest & Hqpos & HM1 & HM2)].
  { exfalso.
    pose proof (Hhas (resultCategory r0)
                  ltac:(apply firstSeen_elem; exists r0; auto)) as Hin.
    apply Hle in Hin. pose proof (summedScore_positive r0 pages Hvalid Hr0 Hpos). lra. }
  fold (bestOf M) in Hbest. rewrite Hbest. cbn [fst].
  assert (HinW : In (w, Fin q) M)
    by (rewrite HM; apply in_or_app; right; left; reflexivity).
  pose proof (Hfin w (Fin q) HinW) as Hqw. injection Hqw as Hqw.
  assert (Hwseen : w ∈ firstSeen pages).
  { rewrite <- Hkeys. apply list_elem_of_In. apply (in_map fst) in HinW. exact HinW. }
  assert (Hpage : exists r, In r pages /\ resultCategory r = w)
    by (apply firstSeen_elem, Hwseen).
  assert (Hmax : forall c, (summedScore c pages <= summedScore w pages)%Q).
  { intros c. rewrite <- Hqw. destruct (decide (c ∈ firstSeen pages)) as [Hc|Hc].
    - pose proof (Hhas c Hc) as Hin.
      rewrite HM in Hin. apply in_app_or in Hin as [Hin|[Heq|Hin]].
      + apply HM1 in Hin. lra.
      + injection Heq as _ <-. lra.
      + apply HM2 in Hin. exact Hin.
    - rewrite (summedScore_absent c); [lra|].
      intros r Hr Hcat. apply Hc, firstSeen_elem. exists r. auto. }
  split; [exact Hpage|]. split; [exact Hmax|]. split; [|split; [|split]].
  - (* the first page of the winner comes before any page of a tying category *)
    intros pre r post Hsplit Hcat Hnew r' Hr'.
    destruct (firstSeen_split pre r post) as [more Hmore].
    { intros x Hx. rewrite Hcat. apply Hnew, Hx. }
    rewrite <- Hsplit, Hcat in Hmore.
    assert (Hk : map fst M = map fst M1 ++ w :: map fst M2)
      by (rewrite HM, map_app; reflexivity).
    rewrite Hkeys, Hmore in Hk.
    apply not_elem_of_app_cons_inv_l in Hk as (Hpre & _ & _).
    + assert (Hc' : resultCategory r' ∈ map fst M1).
      { rewrite <- Hpre. apply firstSeen_elem. exists r'. auto. }
      apply list_elem_of_In, in_map_iff in Hc' as ([c' v'] & Hfst & Hin1).
      cbn [fst] in Hfst. subst c'.
      assert (HinM : In (resultCategory r', v') M)
        by (rewrite HM; apply in_or_app; left; exact Hin1).
      rewrite (Hfin _ _ HinM) in Hin1.
      apply HM1 in Hin1. rewrite <- Hqw. exact Hin1.
    + rewrite HM, map_app in Hnd. apply NoDup_app in Hnd as (_ & Hdisj & _).
      intros Hin. apply (Hdisj w Hin). apply list_elem_of_here.
    + rewrite firstSeen_elem. intros (x & Hx & Hcx). apply (Hnew x Hx Hcx).
  - (* the sum of the winner's pages over their number *)
    rewrite (sum_of_category w pages Hvalid 0).
    fold (summedScore w pages). unfold Num.divLength.
    destruct Hpage as (rw & Hrw & Hcw).
    assert (Hlen : 0 < Js.length (filter (fun r => resultCategory r = w) pages)).
    { assert (Hin : rw ∈ filter (fun r => resultCategory r = w) pages)
        by (apply list_elem_of_filter; split; [exact Hcw|apply list_elem_of_In, Hrw]).
      unfold Js.length.
      destruct (filter (fun r => resultCategory r = w) pages);
        [apply elem_of_nil in Hin; destruct Hin|cbn [List.length]; lia]. }
    replace (Js.length (filter (fun r => resultCategory r = w) pages) =? 0) with false
      by (symmetry; apply Z.eqb_neq; lia).
    reflexivity.
  - (* the subtype of the first page of highest confidence *)
    destruct Hpage as (rw & Hrw & Hcw).
    assert (HvalidW : Forall validPage (filter (fun r => resultCategory r = w) pages)).
    { apply Forall_forall. intros x Hx. apply list_elem_of_filter in Hx as [_ Hx].
      rewrite Forall_forall in Hvalid. apply Hvalid, Hx. }
    destruct (sortBy_head byConfidenceDesc conf validPage byConfidenceDesc_key
                          (filter (fun r => resultCategory r = w) pages) HvalidW)
      as (l1 & best & l2 & Hsplit & Hhead & H1 & H2).
    { intros Hnil.
      assert (Hin : rw ∈ filter (fun r => resultCategory r = w) pages)
        by (apply list_elem_of_filter; split; [exact Hcw|apply list_elem_of_In, Hrw]).
      rewrite Hnil in Hin. apply elem_of_nil in Hin. exact Hin. }
    exists l1, best, l2. rewrite Hhead. auto.
  - (* the alternatives *)
    unfold getAlternativeCategories. rewrite alternatives_loop. cbn [app].
    set (cands := alternativeCandidates M w).
    set (sorted := sortBy byAltConfidenceDesc cands).
    assert (Hcand : forall c v,
              In (c, v) cands ->
              c <> w /\ (Js.double (3 # 10) < summedScore c pages)%Q /\
              v = Fin (Js.min (summedScore c pages) 1)).
    { intros c v Hin. apply In_alternativeCandidates in Hin as (v0 & Hin & Hne & Hgt & ->).
      rewrite (Hfin c v0 Hin) in *.
      cbn [Num.gt] in Hgt. apply Js_gt_true in Hgt.
      split; [exact Hne|]. split; [exact Hgt|reflexivity]. }
    assert (HP : Forall (fun a : DocumentCategory * Num => exists qa, snd a = Fin qa) cands).
    { apply Forall_forall. intros [c v] Hin. apply list_elem_of_In in Hin.
      destruct (Hcand c v Hin) as (_ & _ & ->). eexists. reflexivity. }
    pose proof (sortBy_perm byAltConfidenceDesc cands) as Hperm. fold sorted in Hperm.
    pose proof (sortBy_sorted byAltConfidenceDesc altConf _ byAltConfidenceDesc_key
                              cands HP) as Hsorted. fold sorted in Hsorted.
    assert (Hkeysorted : NoDup (map fst sorted)).
    { apply (NoDup_ListNoDup (map fst sorted)).
      apply (Permutation_NoDup (l := map fst cands)).
      - apply Permutation_map, Permutation_sym, Hperm.
      - apply NoDup_ListNoDup. apply alternativeCandidates_keys, Hnd. }
    rewrite <- (take_drop 2 sorted) in Hsorted, Hkeysorted.
    apply StronglySorted_app_inv in Hsorted as [Hsorted Hcross].
    rewrite map_app in Hkeysorted. apply NoDup_app in Hkeysorted as (Hkeytake & _ & _).
    exists (take 2 sorted). split; [reflexivity|].
    split; [rewrite length_take; lia|]. split; [exact Hkeytake|].
    split; [exact Hsorted|]. split.
    + intros c v Hin. apply Hcand.
      apply (Permutation_in _ Hperm).
      rewrite <- (take_drop 2 sorted). apply in_or_app. left. exact Hin.
    + intros c Hne Hscore.
      assert (Hc : c ∈ firstSeen pages).
      { destruct (decide (c ∈ firstSeen pages)) as [Hc|Hc]; [exact Hc|].
        rewrite (summedScore_absent c) in Hscore.
        - exfalso. assert (H03 : (0 <= Js.double (3 # 10))%Q) by (apply double_nonneg; lra).
          lra.
        - intros r Hr Hcat. apply Hc, firstSeen_elem. exists r. auto. }
      pose proof (Hhas c Hc) as Hin.
      assert (HinC : In (c, Num.min (Fin (summedScore c pages)) (Fin 1)) cands).
      { apply In_alternativeCandidates. exists (Fin (summedScore c pages)).
        split; [exact Hin|]. split; [exact Hne|]. split; [|reflexivity].
        cbn [Num.gt]. apply Js_gt_true. exact Hscore. }
      apply (Permutation_in _ (Permutation_sym Hperm)) in HinC.
      rewrite <- (take_drop 2 sorted) in HinC.
      apply in_app_or in HinC as [Htake|Hdrop].
      * left. apply (in_map fst) in Htake. exact Htake.
      * right. split.
        -- rewrite length_take.
           assert (List.length (drop 2 sorted) <> 0%nat)
             by (destruct (drop 2 sorted); [destruct Hdrop|discriminate]).
           rewrite length_drop in H. lia.
        -- intros a Ha. specialize (Hcross a _ Ha Hdrop).
           unfold notBelow, altConf at 1 in Hcross. cbn [snd Num.min] in Hcross.
           exact Hcross.
Qed.

Lemma aggregateClassifications_spec_witness :
  resultCategory (aggregateClassifications benefitPages) = welfare_benefit /\
  resultConfidence (aggregateClassifications benefitPages) = Fin (Js.double (45 # 100)) /\
  alternativeCategories (aggregateClassifications benefitPages) = Some [].
Proof.
  assert (Hvalid : Forall validPage benefitPages).
  { repeat constructor; eexists; (split; [reflexivity|]);
      (split; [vm_compute; split; discriminate|vm_compute; reflexivity]). }
  assert (Hpos : exists r, In r benefitPages /\ (0 < conf r)%Q).
  { exists (page income (Js.double (3 # 10)) "payslip").
    split; [cbn; auto|vm_compute; reflexivity]. }
  destruct (aggregateClassifications_spec benefitPages Hvalid Hpos)
    as (_ & _ & _ & Hmean & _).
  split; [reflexivity|]. split; [|reflexivity].
  rewrite Hmean. vm_compute. reflexivity.
Defined.

(** Where the rounding of the sums decides.  Of a passport page of
    confidence 0.3 and two income pages of confidence 0.1 and 0.2 the
    aggregation returns income, whose sum is the double above 0.3; and next
    to a winning passport page of confidence 0.5 the same income pages make
    income an alternative. *)
Lemma aggregateClassifications_rounds_the_sums :
  resultCategory (aggregateClassifications roundedPages) = income /\
  option_map (map fst)
    (alternativeCategories
       (aggregateClassifications
          (page identity (1 # 2) "passport" :: tl roundedPages)))
  = Some [income].
Proof. vm_compute. split; reflexivity. Qed.

(* ===================================================================== *)
(** ** Further properties of the services

    Properties of the checklist, the classification and extraction
    services, the storage keys, the repositories and the pipeline that
    the code shows beyond the stated ones. *)
(* ===================================================================== *)

(** *** The checklist, slot by slot *)

Section A.
Context {host : DateHost}.
Variable requirements : ChecklistRequirements.
Variable now : Z.




Lemma push_loop {A} (p : Document -> bool) (f : Document -> A) documents :
  forall acc,
    fold_left (fun acc doc => if p doc then acc ++ [f doc] else acc) documents acc
    = acc ++ map f (List.filter p documents).
Proof.
  induction documents as [|d rest IH]; intros acc; cbn [fold_left List.filter].
  - cbn. rewrite app_nil_r. reflexivity.
  - rewrite IH. destruct (p d); [|reflexivity].
    cbn [map]. rewrite <- app_assoc. reflexivity.
Qed.

Lemma filter_nil_forallb {A} (p : A -> bool) (l : list A) :
  List.filter p l = [] <-> forallb (fun x => negb (p x)) l = true.
Proof.
  induction l as [|x rest IH]; cbn [List.filter forallb]; [tauto|].
  destruct (p x); cbn [negb andb]; [split; intros H; discriminate H|exact IH].
Qed.

Lemma pendingOrVerified_nil l :
  pendingOrVerified l = if bool_decide (l = []) then Verified else Pending.
Proof. destruct l; reflexivity. Qed.


Lemma itemShape_built r l ids :
  itemShape {| required := r; status := pendingOrVerified l; documentIds := ids;
               issues := issuesOrUndefined l |}.
Proof.
  unfold itemShape. destruct l; cbn; [reflexivity|].
  eexists. split; [reflexivity|discriminate].
Qed.

Lemma evaluateIdentityDocuments_shape documents :
  itemShape (evaluateIdentityDocuments requirements now documents).
Proof.
  unfold evaluateIdentityDocuments.
  destruct documents as [|d0 rest]; [reflexivity|].
  destruct (fold_left _ _ _) as [l valid].
  destruct (Js.length valid <? _); [|apply itemShape_built].
  unfold itemShape. cbn. eexists. split; [reflexivity|].
  destruct l; discriminate.
Qed.

Lemma evaluateIncomeDocuments_shape documents :
  itemShape (evaluateIncomeDocuments requirements documents).
Proof.
  unfold evaluateIncomeDocuments.
  destruct documents as [|d0 rest]; [reflexivity|apply itemShape_built].
Qed.

Lemma evaluateBankStatements_shape documents :
  itemShape (evaluateBankStatements requirements documents).
Proof.
  unfold evaluateBankStatements.
  destruct documents as [|d0 rest]; [reflexivity|apply itemShape_built].
Qed.

Lemma evaluateProofOfAddress_shape documents :
  itemShape (evaluateProofOfAddress requirements now documents).
Proof.
  unfold evaluateProofOfAddress.
  destruct documents as [|d0 rest]; [reflexivity|apply itemShape_built].
Qed.

Lemma evaluateWelfareBenefit_shape documents applicant :
  itemShape (evaluateWelfareBenefit requirements documents applicant).
Proof.
  unfold evaluateWelfareBenefit.
  destruct documents as [|d0 rest]; [reflexivity|apply itemShape_built].
Qed.

Lemma evaluateMedicalEvidence_shape documents applicant :
  itemShape (evaluateMedicalEvidence requirements documents applicant).
Proof.
  unfold evaluateMedicalEvidence.
  destruct documents as [|d0 rest]; reflexivity.
Qed.

Lemma evaluateTenancy_shape documents applicant :
  itemShape (evaluateTenancy requirements documents applicant).
Proof.
  unfold evaluateTenancy.
  destruct documents as [|d0 rest]; [reflexivity|apply itemShape_built].
Qed.

Lemma pendingOrVerified_not_missing l : pendingOrVerified l <> Missing.
Proof. destruct l; discriminate. Qed.

Lemma holdsGroup_built r l ids (d0 : Document) rest :
  ids = map id (d0 :: rest) ->
  holdsGroup {| required := r; status := pendingOrVerified l; documentIds := ids;
                issues := issuesOrUndefined l |} (d0 :: rest).
Proof.
  intros ->. split; [reflexivity|]. cbn [status].
  split; [intros H; destruct (pendingOrVerified_not_missing l H)|discriminate].
Qed.

Lemma evaluateIdentityDocuments_holds documents :
  holdsGroup (evaluateIdentityDocuments requirements now documents) documents.
Proof.
  unfold evaluateIdentityDocuments.
  destruct documents as [|d0 rest]; [split; [reflexivity|tauto]|].
  destruct (fold_left _ _ _) as [l valid].
  destruct (Js.length valid <? _); [|apply holdsGroup_built; reflexivity].
  split; [reflexivity|]. cbn [status]. split; discriminate.
Qed.

Lemma evaluateIncomeDocuments_holds documents :
  holdsGroup (evaluateIncomeDocuments requirements documents) documents.
Proof.
  unfold evaluateIncomeDocuments.
  destruct documents as [|d0 rest];
    [split; [reflexivity|tauto]|apply holdsGroup_built; reflexivity].
Qed.

Lemma evaluateBankStatements_holds documents :
  holdsGroup (evaluateBankStatements requirements documents) documents.
Proof.
  unfold evaluateBankStatements.
  destruct documents as [|d0 rest];
    [split; [reflexivity|tauto]|apply holdsGroup_built; reflexivity].
Qed.

Lemma evaluateProofOfAddress_holds documents :
  holdsGroup (evaluateProofOfAddress requirements now documents) documents.
Proof.
  unfold evaluateProofOfAddress.
  destruct documents as [|d0 rest];
    [split; [reflexivity|tauto]|apply holdsGroup_built; reflexivity].
Qed.

Lemma evaluateWelfareBenefit_holds documents applicant :
  holdsGroup (evaluateWelfareBenefit requirements documents applicant) documents.
Proof.
  unfold evaluateWelfareBenefit.
  destruct documents as [|d0 rest];
    [split; [reflexivity|tauto]|apply holdsGroup_built; reflexivity].
Qed.

Lemma evaluateMedicalEvidence_holds documents applicant :
  holdsGroup (evaluateMedicalEvidence requirements documents applicant) documents.
Proof.
  unfold evaluateMedicalEvidence.
  destruct documents as [|d0 rest]; [split; [reflexivity|tauto]|].
  split; [reflexivity|]. cbn [status]. split; discriminate.
Qed.

Lemma evaluateTenancy_holds documents applicant :
  holdsGroup (evaluateTenancy requirements documents applicant) documents.
Proof.
  unfold evaluateTenancy.
  destruct documents as [|d0 rest];
    [split; [reflexivity|tauto]|apply holdsGroup_built; reflexivity].
Qed.

End A.

(** X1.  evaluateChecklist returns its seven slots in the fixed order
    identity, income, bankStatements, proofOfAddress, welfareBenefit,
    medicalEvidence, tenancyAgreement. Each slot lists the ids of exactly
    the documents of its own category, in the order in which they were
    given, and its status is missing exactly when no document of that
    category was given. *)
Theorem checklist_slots_hold_their_category
    {host : DateHost} (requirements : ChecklistRequirements) (now : Z)
    (documents : list Document) (applicant : option ApplicantData) :
  Forall2
    (fun entry slot =>
       fst entry = fst slot /\
       exists it,
         snd entry = Some it /\
         documentIds it
         = map id (filter (fun d => category d = snd slot) documents) /\
         (status it = Missing <->
          forall d, In d documents -> category d <> snd slot))
    (Object_entries (evaluateChecklist requirements now documents applicant))
    slotCategories.
Proof.
  assert (Hnone : forall c,
             filter (fun d => category d = c) documents = [] <->
             forall d, In d documents -> category d <> c).
  { intros c. split.
    - intros H d Hd Hc.
      assert (Hin : d ∈ filter (fun d => category d = c) documents)
        by (apply list_elem_of_filter; split; [exact Hc|apply list_elem_of_In, Hd]).
      rewrite H in Hin. inversion Hin.
    - intros H. induction documents as [|d rest IH]; [reflexivity|].
      rewrite filter_cons. rewrite decide_False by (apply H; left; reflexivity).
      apply IH. intros x Hx. apply H. right. exact Hx. }
  unfold evaluateChecklist, Object_entries, slotCategories.
  cbn [cl_identity cl_income cl_bankStatements cl_proofOfAddress cl_welfareBenefit
       cl_medicalEvidence cl_tenancyAgreement].
  rewrite !groupDocumentsByCategory_filter.
  repeat constructor; cbn [fst snd]; eexists; (split; [reflexivity|]);
    rewrite <- Hnone.
  - apply evaluateIdentityDocuments_holds.
  - apply evaluateIncomeDocuments_holds.
  - apply evaluateBankStatements_holds.
  - apply evaluateProofOfAddress_holds.
  - apply evaluateWelfareBenefit_holds.
  - apply evaluateMedicalEvidence_holds.
  - apply evaluateTenancy_holds.
Qed.

Lemma needsReview_loop (entries : list (string * option ChecklistItem)) :
  (forall key it, In (key, Some it) entries -> itemShape it) ->
  forall acc,
    fold_left
      (fun needsReview entry =>
         match snd entry with
         | Some item =>
             match issues item with
             | Some own =>
                 if bool_decide (status item = Issues)
                    || bool_decide (status item = Pending)
                 then needsReview ++ [(fst entry, own)]
                 else needsReview
             | None => needsReview
             end
         | None => needsReview
         end) entries acc
    = acc ++ omap (fun entry =>
                     match snd entry with
                     | Some it =>
                         if underReview it
                         then Some (fst entry, default [] (issues it))
                         else None
                     | None => None
                     end) entries.
Proof.
  induction entries as [|[key [it|]] rest IH]; intros Hshape acc.
  - cbn. rewrite app_nil_r. reflexivity.
  - cbn [fold_left snd fst].
    rewrite IH by (intros k i Hi; apply (Hshape k), in_cons, Hi).
    change (omap ?f ((key, Some it) :: rest))
      with (match f (key, Some it) with
            | Some y => y :: omap f rest
            | None => omap f rest
            end).
    cbn [snd fst].
    pose proof (Hshape key it (or_introl eq_refl)) as Hit.
    unfold itemShape in Hit. unfold underReview.
    destruct (status it); cbn [bool_decide decide_rel] in *.
    + rewrite !bool_decide_false by discriminate. cbn [orb].
      destruct (issues it); reflexivity.
    + destruct Hit as (own & -> & _).
      rewrite (bool_decide_true (Pending = Pending)) by reflexivity.
      rewrite orb_true_r. cbn [orb default]. rewrite <- app_assoc. reflexivity.
    + rewrite !bool_decide_false by discriminate. cbn [orb].
      destruct (issues it); reflexivity.
    + destruct Hit as (own & -> & _).
      rewrite (bool_decide_true (Issues = Issues)) by reflexivity.
      rewrite orb_true_r. cbn [orb default]. rewrite <- app_assoc. reflexivity.
  - cbn [fold_left snd fst].
    rewrite IH by (intros k i Hi; apply (Hshape k), in_cons, Hi).
    reflexivity.
Qed.

Lemma evaluateChecklist_shape {host : DateHost} requirements now documents applicant :
  forall key it,
    In (key, Some it)
       (Object_entries (evaluateChecklist requirements now documents applicant)) ->
    itemShape it.
Proof.
  intros key it. unfold evaluateChecklist, Object_entries.
  cbn [cl_identity cl_income cl_bankStatements cl_proofOfAddress cl_welfareBenefit
       cl_medicalEvidence cl_tenancyAgreement In].
  intros [H|[H|[H|[H|[H|[H|[H|[]]]]]]]]; injection H as _ <-.
  - apply evaluateIdentityDocuments_shape.
  - apply evaluateIncomeDocuments_shape.
  - apply evaluateBankStatements_shape.
  - apply evaluateProofOfAddress_shape.
  - apply evaluateWelfareBenefit_shape.
  - apply evaluateMedicalEvidence_shape.
  - apply evaluateTenancy_shape.
Qed.

(** X2.  For a checklist built by evaluateChecklist, getItemsNeedingReview
    lists exactly the slots whose status is pending or issues, and each
    listed slot comes with the slot's own issue list, which is not empty. *)
Theorem review_list_is_pending_and_issues
    {host : DateHost} (requirements : ChecklistRequirements) (now : Z)
    (documents : list Document) (applicant : option ApplicantData) :
  let s := evaluateChecklist requirements now documents applicant in
  (forall key,
     In key (map fst (getItemsNeedingReview s)) <->
     exists it, In (key, Some it) (Object_entries s) /\
                (status it = Pending \/ status it = Issues)) /\
  (forall key own,
     In (key, own) (getItemsNeedingReview s) ->
     own <> [] /\
     exists it, In (key, Some it) (Object_entries s) /\ issues it = Some own).
Proof.
  cbv zeta.
  pose proof (evaluateChecklist_shape requirements now documents applicant) as Hshape.
  unfold getItemsNeedingReview.
  rewrite (needsReview_loop _ Hshape []). cbn [app].
  generalize dependent (Object_entries
                          (evaluateChecklist requirements now documents applicant)).
  intros entries Hshape.
  assert (Hin : forall key own,
             In (key, own)
                (omap (fun entry =>
                         match snd entry with
                         | Some it =>
                             if underReview it
                             then Some (fst entry, default [] (issues it))
                             else None
                         | None => None
                         end) entries) <->
             exists it, In (key, Some it) entries /\ underReview it = true /\
                        own = default [] (issues it)).
  { intros key own. rewrite <- list_elem_of_In, list_elem_of_omap. split.
    - intros ([k [it|]] & Hx & Hf); cbn [snd fst] in Hf; [|discriminate Hf].
      destruct (underReview it) eqn:E; [|discriminate Hf].
      injection Hf as <- <-. exists it.
      rewrite <- list_elem_of_In. auto.
    - intros (it & Hx & E & ->). exists (key, Some it).
      rewrite list_elem_of_In. split; [exact Hx|]. cbn [snd fst]. rewrite E.
      reflexivity. }
  assert (Hunder : forall it, underReview it = true <->
                              status it = Pending \/ status it = Issues).
  { intros it. unfold underReview.
    rewrite orb_true_iff, !bool_decide_eq_true. tauto. }
  split.
  - intros key. rewrite in_map_iff. split.
    + intros ([k own] & <- & Hx). apply Hin in Hx as (it & Hx & E & _).
      exists it. rewrite <- Hunder. auto.
    + intros (it & Hx & E). exists (key, default [] (issues it)).
      split; [reflexivity|]. apply Hin. exists it. rewrite Hunder. auto.
  - intros key own Hx. apply Hin in Hx as (it & Hx & E & ->).
    pose proof (Hshape key it Hx) as Hit. unfold itemShape in Hit.
    apply Hunder in E.
    destruct E as [E|E]; rewrite E in Hit; destruct Hit as (own & Hown & Hne);
      rewrite Hown; cbn [default]; (split; [exact Hne|]); exists it; auto.
Qed.



Lemma nil_app_map_filter {A} (l0 : list A) (p : Document -> bool) (f : Document -> A)
    documents :
  bool_decide (l0 ++ map f (List.filter p documents) = [])
  = bool_decide (l0 = []) && forallb (fun d => negb (p d)) documents.
Proof.
  destruct l0 as [|x l0]; cbn [app].
  - rewrite (bool_decide_true ([] = [])) by reflexivity. cbn [andb].
    destruct (forallb _ _) eqn:E.
    + apply filter_nil_forallb in E. rewrite E. reflexivity.
    + apply bool_decide_eq_false. intros H. apply map_eq_nil in H.
      apply filter_nil_forallb in H. congruence.
  - rewrite !bool_decide_false by discriminate. reflexivity.
Qed.

(** X4.  For a non-empty group, the income slot is verified when there are
    at least minDocuments documents, every completeness score is at least 70
    and, if minMonthsCoverage is set and not 0, there are at least that many
    documents; otherwise it is pending. The bank statement slot is verified
    when there are at least minMonthsCoverage statements and every
    completeness score is at least 60, and pending otherwise. *)
Theorem income_and_bank_statement_status
    (requirements : ChecklistRequirements) (documents : list Document) :
  documents <> [] ->
  let n := Js.length documents in
  status (evaluateIncomeDocuments requirements documents)
  = (if (inc_minDocuments (req_income requirements) <=? n)
        && forallb (fun d => 70 <=? completenessScore d) documents
        && match inc_minMonthsCoverage (req_income requirements) with
           | Some months => (months =? 0) || (months <=? n)
           | None => true
           end
     then Verified else Pending) /\
  status (evaluateBankStatements requirements documents)
  = (if (bank_minMonthsCoverage (req_bankStatements requirements) <=? n)
        && forallb (fun d => 60 <=? completenessScore d) documents
     then Verified else Pending).
Proof.
  intros Hne. cbv zeta.
  assert (Hpos : (0 <? Js.length documents) = true).
  { destruct documents; [contradiction|]. apply Z.ltb_lt. unfold Js.length.
    cbn [List.length]. lia. }
  assert (Hscore : forall t, forallb (fun d => negb (completenessScore d <? t)) documents
                             = forallb (fun d => t <=? completenessScore d) documents).
  { intros t. clear. induction documents as [|d rest IH]; [reflexivity|].
    cbn [forallb]. rewrite <- Z.leb_antisym, IH. reflexivity. }
  split.
  - unfold evaluateIncomeDocuments.
    destruct documents as [|d0 rest]; [contradiction|].
    cbn [status]. rewrite lowScoreIssues_spec, pendingOrVerified_nil.
    set (n := Js.length (d0 :: rest)) in *.
    set (req := req_income requirements).
    rewrite (Z.leb_antisym n (inc_minDocuments req)).
    assert (Hbase :
              bool_decide
                ((if n <? inc_minDocuments req
                  then ["Need at least " +:+ Js.toString (inc_minDocuments req)
                        +:+ " income document(s)"]
                  else []) ++
                 map (fun doc => originalFileName doc +:+ ": Missing key income information")
                     (List.filter (fun doc => completenessScore doc <? 70) (d0 :: rest))
                 = [])
              = negb (n <? inc_minDocuments req)
                && forallb (fun d => 70 <=? completenessScore d) (d0 :: rest)).
    { rewrite nil_app_map_filter, Hscore.
      destruct (n <? inc_minDocuments req); cbn [negb andb].
      - rewrite bool_decide_false by discriminate. reflexivity.
      - rewrite (bool_decide_true ([] = [])) by reflexivity. reflexivity. }
    destruct (inc_minMonthsCoverage req) as [months|].
    + rewrite Hpos, andb_true_r. rewrite (Z.leb_antisym n months).
      destruct (months =? 0); cbn [negb andb orb].
      * rewrite Hbase, andb_true_r. reflexivity.
      * destruct (n <? months); cbn [negb andb].
        -- rewrite andb_false_r.
           rewrite bool_decide_false; [reflexivity|].
           intros H. apply app_eq_nil in H as [_ H]. discriminate H.
        -- rewrite Hbase, andb_true_r. reflexivity.
    + rewrite Hbase, andb_true_r. reflexivity.
  - unfold evaluateBankStatements.
    destruct documents as [|d0 rest]; [contradiction|].
    cbn [status]. rewrite lowScoreIssues_spec, pendingOrVerified_nil.
    rewrite nil_app_map_filter, Hscore.
    set (n := Js.length (d0 :: rest)) in *.
    rewrite (Z.leb_antisym n).
    destruct (n <? _); cbn [negb andb].
    + rewrite bool_decide_false by discriminate. reflexivity.
    + rewrite (bool_decide_true ([] = [])) by reflexivity.
      cbn [andb]. destruct (forallb _ _); reflexivity.
Qed.

Lemma income_and_bank_statement_status_witness :
  status (evaluateIncomeDocuments DEFAULT_REQUIREMENTS
            [document "doc-4" "payslip.png" income 100 []]) = Pending.
Proof.
  destruct (income_and_bank_statement_status DEFAULT_REQUIREMENTS
              [document "doc-4" "payslip.png" income 100 []]) as [H _].
  - discriminate.
  - rewrite H. reflexivity.
Defined.

(** X5.  For a non-empty group of proof-of-address documents the slot is
    verified or pending, and it is pending exactly when some document
    carries a documentDate that parses to a time earlier than the current
    time minus maxAgeMonths months; completeness scores and confidences play
    no part. *)
Theorem proof_of_address_status
    {host : DateHost} (requirements : ChecklistRequirements) (now : Z)
    (documents : list Document) :
  documents <> [] ->
  (status (evaluateProofOfAddress requirements now documents) = Pending <->
   exists d s t,
     In d documents /\ dateString "documentDate" d = Some s /\
     Date_parse s = Some t /\
     t < Date_minusMonths now (poa_maxAgeMonths (req_proofOfAddress requirements))) /\
  (status (evaluateProofOfAddress requirements now documents) = Verified \/
   status (evaluateProofOfAddress requirements now documents) = Pending).
Proof.
  intros Hne. unfold evaluateProofOfAddress.
  destruct documents as [|d0 rest]; [contradiction|].
  cbn [status]. rewrite push_loop. cbn [app].
  rewrite pendingOrVerified_nil.
  assert (Hold : forall d,
             isTooOld requirements now d = true <->
             exists s t, dateString "documentDate" d = Some s /\
                         Date_parse s = Some t /\
                         t < Date_minusMonths now
                               (poa_maxAgeMonths (req_proofOfAddress requirements))).
  { intros d. unfold isTooOld.
    destruct (dateString "documentDate" d) as [s|].
    - destruct (Date_parse s) as [t|] eqn:Ep.
      + rewrite Z.ltb_lt. split.
        * intros H. exists s, t. split; [reflexivity|]. split; [exact Ep|exact H].
        * intros (s' & t' & H1 & H2 & H). injection H1 as <-.
          rewrite Ep in H2. injection H2 as <-. exact H.
      + split; [discriminate|]. intros (s' & t' & H1 & H & _).
        injection H1 as <-. rewrite Ep in H. discriminate H.
    - split; [discriminate|]. intros (s' & t' & H & _). discriminate H. }
  split.
  - split.
    + intros H. destruct (bool_decide _) eqn:E; [discriminate H|].
      apply bool_decide_eq_false in E.
      destruct (List.filter (isTooOld requirements now) (d0 :: rest)) as [|d l] eqn:F;
        [contradiction E; reflexivity|].
      assert (Hd : In d (List.filter (isTooOld requirements now) (d0 :: rest)))
        by (rewrite F; left; reflexivity).
      apply filter_In in Hd as [Hin Hd]. apply Hold in Hd as (s & t & Hd).
      exists d, s, t. split; [exact Hin|exact Hd].
    + intros (d & s & t & Hin & Hd).
      assert (Hf : In d (List.filter (isTooOld requirements now) (d0 :: rest))).
      { apply filter_In. split; [exact Hin|]. apply Hold. exists s, t. exact Hd. }
      rewrite bool_decide_false; [reflexivity|].
      intros H. apply map_eq_nil in H. rewrite H in Hf. destruct Hf.
  - destruct (bool_decide _); auto.
Qed.

Lemma proof_of_address_status_witness :
  status (evaluateProofOfAddress (host := UTC.host) DEFAULT_REQUIREMENTS newYear2026
            [document "doc-5" "bill.png" proof_of_address 0
                      [("documentDate", field (VString "not a date") (9 # 10))]])
  = Verified.
Proof.
  destruct (proof_of_address_status (host := UTC.host) DEFAULT_REQUIREMENTS newYear2026
              [document "doc-5" "bill.png" proof_of_address 0
                        [("documentDate", field (VString "not a date") (9 # 10))]])
    as [_ [H|H]].
  - discriminate.
  - exact H.
  - vm_compute in H. discriminate H.
Defined.

(** *** Completeness and the case status *)

Lemma specAchieved_bounds items :
  (0 <= specAchievedWeight items <= specTotalWeight items)%Q.
Proof.
  induction items as [|[k [it|]] rest IH]; cbn [specAchievedWeight specTotalWeight];
    try lra.
  destruct (specCounted it); [|exact IH].
  unfold specWeight, specCredit. destruct (required it), (status it); lra.
Qed.

Lemma specTotalWeight_le items :
  (specTotalWeight items <= 2 * inject_Z (Js.length items))%Q.
Proof.
  unfold Js.length.
  induction items as [|[k [it|]] rest IH]; cbn [specTotalWeight List.length].
  - change (inject_Z (Z.of_nat 0)) with 0%Q. lra.
  - rewrite Nat2Z.inj_succ, <- Z.add_1_r, inject_Z_plus.
    destruct (specCounted it); [|change (inject_Z 1) with 1%Q; lra].
    unfold specWeight. change (inject_Z 1) with 1%Q. destruct (required it); lra.
  - rewrite Nat2Z.inj_succ, <- Z.add_1_r, inject_Z_plus.
    change (inject_Z 1) with 1%Q. lra.
Qed.

Lemma specCounted_settled it :
  settled it <-> (specCounted it = true -> status it = Verified).
Proof.
  unfold settled, specCounted.
  destruct (required it), (status it); split; intros H; try tauto;
    try (destruct H as [H|[H1 H2]]; congruence);
    try (specialize (H eq_refl); discriminate H);
    try (intros H'; discriminate H');
    try (right; auto).
Qed.

Lemma settled_dec it : settled it \/ ~ settled it.
Proof.
  unfold settled. destruct (required it), (status it); try tauto;
    right; intros [H|[H1 H2]]; congruence.
Qed.

Lemma specAchieved_settled items :
  (forall k it, In (k, Some it) items -> settled it) ->
  (specAchievedWeight items == specTotalWeight items)%Q.
Proof.
  induction items as [|[k [it|]] rest IH]; intros H;
    cbn [specAchievedWeight specTotalWeight]; try lra.
  - assert (Hrest : (specAchievedWeight rest == specTotalWeight rest)%Q)
      by (apply IH; intros k' it' Hin; apply (H k'), in_cons, Hin).
    pose proof (proj1 (specCounted_settled it) (H k it (or_introl eq_refl))) as Hit.
    destruct (specCounted it); [|exact Hrest].
    unfold specCredit. rewrite (Hit eq_refl). lra.
  - apply IH. intros k' it' Hin. apply (H k'), in_cons, Hin.
Qed.

Lemma specAchieved_unsettled items k it :
  In (k, Some it) items -> ~ settled it ->
  (specAchievedWeight items + (1 # 2) <= specTotalWeight items)%Q.
Proof.
  induction items as [|[k' [it'|]] rest IH]; intros Hin Hns; [destruct Hin| |].
  - cbn [specAchievedWeight specTotalWeight].
    pose proof (specAchieved_bounds rest) as Hb.
    destruct Hin as [Heq|Hin].
    + injection Heq as -> ->.
      unfold settled in Hns. unfold specCounted, specWeight, specCredit.
      destruct (required it), (status it); try lra; tauto.
    + specialize (IH Hin Hns).
      destruct (specCounted it'); [|exact IH].
      unfold specWeight, specCredit. destruct (required it'), (status it'); lra.
  - cbn [specAchievedWeight specTotalWeight].
    destruct Hin as [Heq|Hin]; [discriminate Heq|]. apply IH; assumption.
Qed.

Lemma specTotal_positive items :
  (0 < specTotalWeight items)%Q <->
  exists k it, In (k, Some it) items /\ specCounted it = true.
Proof.
  induction items as [|[k [it|]] rest IH]; cbn [specTotalWeight].
  - split; [lra|]. intros (k & it & [] & _).
  - pose proof (specTotalWeight_nonneg rest) as Hnn.
    destruct (specCounted it) eqn:E.
    + split; [|unfold specWeight; destruct (required it); lra].
      intros _. exists k, it. split; [left; reflexivity|exact E].
    + rewrite IH. split.
      * intros (k' & it' & Hin & Hc). exists k', it'. split; [right; exact Hin|exact Hc].
      * intros (k' & it' & [Heq|Hin] & Hc).
        -- injection Heq as -> ->. congruence.
        -- exists k', it'. auto.
  - rewrite IH. split.
    + intros (k' & it' & Hin & Hc). exists k', it'. split; [right; exact Hin|exact Hc].
    + intros (k' & it' & [Heq|Hin] & Hc); [discriminate Heq|].
      exists k', it'. auto.
Qed.


Lemma calculateOverallCompleteness_range s :
  0 <= calculateOverallCompleteness s <= 100.
Proof.
  destruct (calculateOverallCompleteness_weights s) as (Ht & Ha & ->).
  destruct (0 <? totalOf (Object_entries s)) eqn:E; [|lia].
  apply Z.ltb_lt in E.
  assert (H := percentOf_table _ _ (conj (Zlt_le_succ _ _ E) (proj2 Ht)) Ha).
  unfold percentChecked in H.
  apply andb_true_iff in H as [H _]. apply andb_true_iff in H as [H _].
  apply andb_true_iff in H as [H0 H1].
  apply Z.leb_le in H0, H1. lia.
Qed.

(** Full weight: something counts, and every item is settled. *)
Lemma full_weight items :
  0 < totalOf items /\ achievedQuarters items = 4 * totalOf items <->
  (exists k it, In (k, Some it) items /\ specCounted it = true) /\
  (forall k it, In (k, Some it) items -> settled it).
Proof.
  destruct (totalOf_spec items) as [HT HA].
  rewrite <- specTotal_positive.
  assert (Hpos : 0 < totalOf items <-> (0 < specTotalWeight items)%Q).
  { rewrite <- HT. change 0%Q with (inject_Z 0). rewrite <- Zlt_Qlt. reflexivity. }
  assert (Hfull : achievedQuarters items = 4 * totalOf items <->
                  (specAchievedWeight items == specTotalWeight items)%Q).
  { rewrite <- HT, <- HA. unfold Qeq. cbn [Qnum Qden inject_Z]. lia. }
  rewrite Hpos, Hfull. split; intros [H0 H]; (split; [exact H0|]).
  - intros k it Hin.
    destruct (settled_dec it) as [Hs|Hns]; [exact Hs|].
    pose proof (specAchieved_unsettled items k it Hin Hns). lra.
  - apply specAchieved_settled, H.
Qed.

Lemma In_checklistItems s it :
  In it (checklistItems s) <-> exists k, In (k, Some it) (Object_entries s).
Proof.
  unfold checklistItems. rewrite <- list_elem_of_In, list_elem_of_omap. split.
  - intros ([k o] & Hin & Ho). cbn [snd] in Ho. subst o. exists k.
    apply list_elem_of_In, Hin.
  - intros (k & Hin). exists (k, Some it). split; [apply list_elem_of_In, Hin|reflexivity].
Qed.

Lemma specCounted_true it :
  specCounted it = true <-> required it = true \/ status it <> Missing.
Proof.
  unfold specCounted. destruct (required it), (status it); split; intros H;
    try reflexivity; try discriminate H; try (left; reflexivity);
    try (right; discriminate).
  destruct H as [H|H]; [discriminate H|contradiction].
Qed.

Lemma calculateOverallCompleteness_full s :
  calculateOverallCompleteness s = 100 <->
  (exists it, In it (checklistItems s) /\
              (required it = true \/ status it <> Missing)) /\
  (forall it, In it (checklistItems s) -> settled it).
Proof.
  assert (Hweights : calculateOverallCompleteness s = 100 <->
                     0 < totalOf (Object_entries s) /\
                     achievedQuarters (Object_entries s)
                     = 4 * totalOf (Object_entries s)).
  { destruct (calculateOverallCompleteness_weights s) as (Ht & Ha & ->).
    destruct (0 <? totalOf (Object_entries s)) eqn:E.
    - apply Z.ltb_lt in E.
      assert (H := percentOf_table _ _ (conj (Zlt_le_succ _ _ E) (proj2 Ht)) Ha).
      unfold percentChecked in H.
      apply andb_true_iff in H as [H _]. apply andb_true_iff in H as [_ H].
      apply Bool.eqb_prop in H.
      rewrite <- Z.eqb_eq, H, Z.eqb_eq. tauto.
    - apply Z.ltb_ge in E. split; [discriminate|lia]. }
  rewrite Hweights, full_weight.
  split; intros [(x & Hx) Hall].
  - destruct Hx as (it & Hin & Hc). split.
    + exists it. split; [apply In_checklistItems; exists x; exact Hin|].
      apply specCounted_true, Hc.
    + intros it' Hin'. apply In_checklistItems in Hin' as (k & Hin').
      apply (Hall k), Hin'.
  - destruct Hx as [Hin Hc]. apply In_checklistItems in Hin as (k & Hin). split.
    + exists k, x. split; [exact Hin|apply specCounted_true, Hc].
    + intros k' it' Hin'. apply Hall, In_checklistItems. exists k'. exact Hin'.
Qed.

(** X6.  calculateOverallCompleteness always returns an integer between 0
    and 100. It returns 100 exactly when every item is verified or is
    optional and missing, and at least one item counts at all (is required
    or not missing). *)
Theorem overall_completeness_range (s : DocumentChecklistStatus) :
  0 <= calculateOverallCompleteness s <= 100 /\
  (calculateOverallCompleteness s = 100 <->
   (exists it, In it (checklistItems s) /\
               (required it = true \/ status it <> Missing)) /\
   (forall it, In it (checklistItems s) ->
               status it = Verified \/ (required it = false /\ status it = Missing))).
Proof.
  split; [apply calculateOverallCompleteness_range|apply calculateOverallCompleteness_full].
Qed.

Lemma hasRequiredMissing_settled s :
  (forall it, In it (checklistItems s) -> settled it) -> hasRequiredMissing s = false.
Proof.
  intros Hall. unfold hasRequiredMissing.
  destruct (existsb _ _) eqn:E; [|reflexivity].
  apply existsb_exists in E as (it & Hin & E).
  apply andb_true_iff in E as [Hr Hm]. apply bool_decide_eq_true in Hm.
  destruct (Hall it Hin) as [H|[H _]]; congruence.
Qed.

Lemma statusFor_eligibility s :
  specCaseStatus s = eligibility_check <-> calculateOverallCompleteness s = 100.
Proof.
  unfold specCaseStatus.
  pose proof (calculateOverallCompleteness_range s) as Hrange.
  split.
  - destruct (hasRequiredMissing s); [discriminate|].
    destruct (calculateOverallCompleteness s <? 100) eqn:E; [discriminate|].
    apply Z.ltb_ge in E. lia.
  - intros H.
    rewrite hasRequiredMissing_settled
      by (apply calculateOverallCompleteness_full in H as [_ H]; exact H).
    rewrite H. reflexivity.
Qed.

(** X7.  When updateApplicationChecklist returns a checklist, the case it
    has written has status eligibility_check exactly when every item of that
    checklist is verified or is optional and missing. *)
Theorem eligibility_needs_every_item_settled
    {host : DateHost} (now : Z) (applicationId : string) (db db' : Database)
    (checklist : DocumentChecklistStatus) :
  updateApplicationChecklist now applicationId db = (db', inr checklist) ->
  exists application',
    ApplicationRepository.findById applicationId db' = Some application' /\
    (appStatus application' = eligibility_check <->
     forall it, In it (checklistItems checklist) ->
                status it = Verified \/ (required it = false /\ status it = Missing)).
Proof.
  intros Hrun.
  apply updateApplicationChecklist_returns in Hrun
    as (application & application' & _ & Hcl & _ & Hfind & _ & _ & Hst).
  exists application'. split; [exact Hfind|].
  rewrite Hst, statusFor_eligibility, calculateOverallCompleteness_full.
  split; [tauto|]. intros Hall. split; [|exact Hall].
  exists (cl_identity checklist). split.
  - apply In_checklistItems. exists "identity". left. reflexivity.
  - left. rewrite Hcl. unfold evaluateChecklist. cbn [cl_identity].
    unfold evaluateIdentityDocuments.
    destruct (groupDocumentsByCategory _ identity); [reflexivity|].
    destruct (fold_left _ _ _). destruct (_ <? _); reflexivity.
Qed.

Lemma eligibility_needs_every_item_settled_witness :
  exists application',
    ApplicationRepository.findById "app-1"
      (fst (updateApplicationChecklist (host := UTC.host) newYear2025 "app-1"
              exampleDatabase)) = Some application' /\
    appStatus application' <> eligibility_check.
Proof.
  destruct (eligibility_needs_every_item_settled (host := UTC.host) newYear2025 "app-1"
              exampleDatabase
              (fst (updateApplicationChecklist (host := UTC.host) newYear2025 "app-1"
                      exampleDatabase))
              (evaluateChecklist (host := UTC.host) DEFAULT_REQUIREMENTS newYear2025
                 [passport; leaflet] (Some (applicantData exampleCase))))
    as (application' & Hfind & Hiff).
  - reflexivity.
  - exists application'. split; [exact Hfind|].
    intros H.
    destruct (proj1 Hiff H (evaluateIncomeDocuments DEFAULT_REQUIREMENTS []))
      as [H'|[H' _]]; [|discriminate H'|discriminate H'].
    vm_compute. auto.
Defined.

(** *** Missing documents *)

Lemma getMissingDocuments_names s :
  getMissingDocuments s
  = reportedIf (Some (cl_identity s)) "Identity document (passport or driving licence)"
    ++ reportedIf (Some (cl_income s)) "Proof of income (payslips or employment letter)"
    ++ reportedIf (Some (cl_bankStatements s)) "Bank statements (last 3 months)"
    ++ reportedIf (Some (cl_proofOfAddress s)) "Proof of current address"
    ++ reportedIf (cl_welfareBenefit s) "Benefits letter (if applicable)"
    ++ reportedIf (cl_medicalEvidence s) "Medical evidence (if applicable)"
    ++ reportedIf (cl_tenancyAgreement s) "Current tenancy agreement (if renting)".
Proof.
  unfold getMissingDocuments, Object_entries, reportedIf.
  cbn [fold_left fst snd].
  destruct (cl_welfareBenefit s) as [w|], (cl_medicalEvidence s) as [m|],
           (cl_tenancyAgreement s) as [t|];
    repeat match goal with
           | |- context [required ?it && bool_decide (status ?it = Missing)] =>
               destruct (required it && bool_decide (status it = Missing))
           end;
    reflexivity.
Qed.

Lemma lacks_group c documents :
  lacks c documents = bool_decide (groupDocumentsByCategory documents c = []).
Proof.
  rewrite groupDocumentsByCategory_filter. unfold lacks.
  induction documents as [|d rest IH]; [reflexivity|].
  cbn [forallb]. rewrite filter_cons.
  destruct (decide (category d = c)) as [H|H].
  - rewrite bool_decide_true by exact H. cbn [negb andb].
    symmetry. apply bool_decide_eq_false. discriminate.
  - rewrite bool_decide_false by exact H. cbn [negb andb]. exact IH.
Qed.

(** X8.  With the default requirements, getMissingDocuments of an evaluated
    checklist names, in this order, the identity, income, bank statement and
    proof-of-address slots for which no document of the category was given,
    and the medical evidence slot when no medical document was given and a
    household member requires support; welfare benefit and tenancy are never
    named. *)
Theorem missing_documents_by_default
    {host : DateHost} (now : Z) (documents : list Document)
    (applicant : option ApplicantData) :
  getMissingDocuments (evaluateChecklist DEFAULT_REQUIREMENTS now documents applicant)
  = (if lacks identity documents
     then ["Identity document (passport or driving licence)"] else [])
    ++ (if lacks income documents
        then ["Proof of income (payslips or employment letter)"] else [])
    ++ (if lacks bank_statement documents
        then ["Bank statements (last 3 months)"] else [])
    ++ (if lacks proof_of_address documents
        then ["Proof of current address"] else [])
    ++ (if lacks medical documents && needsMedicalEvidence applicant
        then ["Medical evidence (if applicable)"] else []).
Proof.
  rewrite getMissingDocuments_names, !lacks_group.
  unfold evaluateChecklist.
  cbn [cl_identity cl_income cl_bankStatements cl_proofOfAddress cl_welfareBenefit
       cl_medicalEvidence cl_tenancyAgreement].
  assert (Hid : forall g,
             reportedIf (Some (evaluateIdentityDocuments DEFAULT_REQUIREMENTS now g))
                        "Identity document (passport or driving licence)"
             = if bool_decide (g = [])
               then ["Identity document (passport or driving licence)"] else []).
  { intros g. unfold reportedIf, evaluateIdentityDocuments.
    destruct g; [reflexivity|].
    destruct (fold_left _ _ _). destruct (_ <? _); [reflexivity|].
    cbn [required status DEFAULT_REQUIREMENTS req_identity id_required andb].
    rewrite bool_decide_false by apply pendingOrVerified_not_missing. reflexivity. }
  assert (Hinc : forall g,
             reportedIf (Some (evaluateIncomeDocuments DEFAULT_REQUIREMENTS g))
                        "Proof of income (payslips or employment letter)"
             = if bool_decide (g = [])
               then ["Proof of income (payslips or employment letter)"] else []).
  { intros g. unfold reportedIf, evaluateIncomeDocuments.
    destruct g; [reflexivity|].
    cbn [required status DEFAULT_REQUIREMENTS req_income inc_required andb].
    rewrite bool_decide_false by apply pendingOrVerified_not_missing. reflexivity. }
  assert (Hbank : forall g,
             reportedIf (Some (evaluateBankStatements DEFAULT_REQUIREMENTS g))
                        "Bank statements (last 3 months)"
             = if bool_decide (g = [])
               then ["Bank statements (last 3 months)"] else []).
  { intros g. unfold reportedIf, evaluateBankStatements.
    destruct g; [reflexivity|].
    cbn [required status DEFAULT_REQUIREMENTS req_bankStatements bank_required andb].
    rewrite bool_decide_false by apply pendingOrVerified_not_missing. reflexivity. }
  assert (Hpoa : forall g,
             reportedIf (Some (evaluateProofOfAddress DEFAULT_REQUIREMENTS now g))
                        "Proof of current address"
             = if bool_decide (g = []) then ["Proof of current address"] else []).
  { intros g. unfold reportedIf, evaluateProofOfAddress.
    destruct g; [reflexivity|].
    cbn [required status DEFAULT_REQUIREMENTS req_proofOfAddress poa_required andb].
    rewrite bool_decide_false by apply pendingOrVerified_not_missing. reflexivity. }
  assert (Hwel : forall g,
             reportedIf (Some (evaluateWelfareBenefit DEFAULT_REQUIREMENTS g applicant))
                        "Benefits letter (if applicable)" = []).
  { intros g. unfold reportedIf, evaluateWelfareBenefit. destruct g; reflexivity. }
  assert (Hten : forall g,
             reportedIf (Some (evaluateTenancy DEFAULT_REQUIREMENTS g applicant))
                        "Current tenancy agreement (if renting)" = []).
  { intros g. unfold reportedIf, evaluateTenancy. destruct g; reflexivity. }
  assert (Hmed : forall g,
             reportedIf (Some (evaluateMedicalEvidence DEFAULT_REQUIREMENTS g applicant))
                        "Medical evidence (if applicable)"
             = if bool_decide (g = []) && needsMedicalEvidence applicant
               then ["Medical evidence (if applicable)"] else []).
  { intros g. unfold reportedIf, evaluateMedicalEvidence.
    destruct g; [|cbn; rewrite andb_false_r; reflexivity].
    cbn [required status DEFAULT_REQUIREMENTS req_medicalEvidence cond_required orb].
    rewrite (bool_decide_true (Missing = Missing)) by reflexivity.
    rewrite (bool_decide_true ([] = [])) by reflexivity.
    rewrite andb_true_r. reflexivity. }
  rewrite Hid, Hinc, Hbank, Hpoa, Hwel, Hmed, Hten.
  rewrite app_nil_r. reflexivity.
Qed.

(** *** Validation of a classification reply *)

Lemma categoryOfName_categoryName c : categoryOfName (categoryName c) = Some c.
Proof. destruct c; reflexivity. Qed.

Lemma categoryOfName_Some name c : categoryOfName name = Some c -> name = categoryName c.
Proof.
  unfold categoryOfName. intros H. apply find_some in H as [_ H].
  apply String.eqb_eq in H. symmetry. exact H.
Qed.

Lemma clampUnit_range x :
  match clampUnit x with
  | Fin q => (0 <= q <= 1)%Q
  | NaN => x = NotANumber
  end.
Proof.
  destruct x as [q| | |]; cbn [clampUnit];
    [apply clamp_in_range|lra|lra|reflexivity].
Qed.

(** X9.  For a parsed reply whose category, subtype and reasoning are
    strings or missing and whose alternatives are an array of objects or
    missing, validateClassificationResult keeps a category that is one of
    the nine known names and replaces any other or a missing one by unknown;
    the confidence, which may be any JSON value, comes out within [0, 1] or
    as NaN, and as NaN exactly when it is missing or is a value that is no
    number and that ToNumber turns into NaN, such as the string high; a
    number comes out clamped to [0, 1] and null as 0; the reasoning is never
    empty; and every alternative that is kept comes from a raw alternative
    with a known category name, none is added, and its confidence is within
    [0, 1] or NaN. *)
Theorem validateClassificationResult_normalizes (result : RawClassification) :
  let r := validateClassificationResult result in
  (forall c, rawCategory result = Some (categoryName c) -> resultCategory r = c) /\
  ((forall c, rawCategory result <> Some (categoryName c)) ->
   resultCategory r = unknown) /\
  match resultConfidence r with
  | Fin q => (0 <= q <= 1)%Q
  | NaN => True
  end /\
  (resultConfidence r = NaN <->
   rawConfidence result = RawAbsent
   \/ rawConfidence result = RawOtherValue NotANumber) /\
  (forall q, rawConfidence result = RawNum q ->
             resultConfidence r = Fin (Js.max 0 (Js.min 1 q))) /\
  (rawConfidence result = RawNullNumber -> resultConfidence r = Fin 0) /\
  reasoning r <> "" /\
  (forall alternatives,
     alternativeCategories r = Some alternatives ->
     exists raw,
       rawAlternatives result = Some raw /\
       (List.length alternatives <= List.length raw)%nat /\
       forall c v, In (c, v) alternatives ->
                   (exists alt, In alt raw /\
                                rawAltCategory alt = Some (categoryName c)) /\
                   match v with
                   | Fin q => (0 <= q <= 1)%Q
                   | NaN => True
                   end).
Proof.
  cbv zeta. unfold validateClassificationResult.
  cbn [resultCategory resultConfidence reasoning alternativeCategories].
  split; [|split; [|split; [|split; [|split; [|split; [|split]]]]]].
  - intros c ->. cbn [acceptedCategory]. rewrite categoryOfName_categoryName.
    reflexivity.
  - intros Hnone. destruct (rawCategory result) as [name|]; [|reflexivity].
    cbn [acceptedCategory].
    destruct (categoryOfName name) as [c|] eqn:E; [|reflexivity].
    apply categoryOfName_Some in E. subst name. destruct (Hnone c eq_refl).
  - pose proof (clampUnit_range (toNumber (rawConfidence result))) as H.
    destruct (clampUnit (toNumber (rawConfidence result))); [exact H|exact I].
  - destruct (rawConfidence result) as [q| | |[q| | |]]; cbn [toNumber clampUnit];
      split; intros H; try discriminate H; try (destruct H as [H|H]; discriminate H);
      auto.
  - intros q ->. reflexivity.
  - intros ->. reflexivity.
  - destruct (rawReasoning result) as [text|]; [|discriminate].
    destruct (String.eqb text "") eqn:E; [discriminate|].
    apply String.eqb_neq in E. exact E.
  - intros alternatives Halt.
    destruct (rawAlternatives result) as [raw|]; [|discriminate Halt].
    injection Halt as <-. exists raw. split; [reflexivity|]. split.
    + clear. induction raw as [|alt rest IH]; [reflexivity|].
      change (omap ?f (alt :: rest))
        with (match f alt with
              | Some y => y :: omap f rest
              | None => omap f rest
              end).
      cbv beta.
      destruct (acceptedCategory (rawAltCategory alt)); cbn [List.length]; lia.
    + intros c v Hin. apply list_elem_of_In, list_elem_of_omap in Hin
        as (alt & Hin & Halt).
      destruct (rawAltCategory alt) as [name|] eqn:Hname; [|discriminate Halt].
      cbn [acceptedCategory] in Halt.
      destruct (categoryOfName name) as [c'|] eqn:E; [|discriminate Halt].
      injection Halt as -> <-. apply categoryOfName_Some in E. subst name.
      split.
      * exists alt. split; [apply list_elem_of_In, Hin|exact Hname].
      * pose proof (clampUnit_range (toNumber (rawAltConfidence alt))) as H.
        destruct (clampUnit _); [exact H|exact I].
Qed.

(** *** Multi-page documents *)



(** *** Aggregation when no page carries any confidence *)

Lemma double_of_zero q : (q == 0)%Q -> Js.double q = 0%Q.
Proof. intros H. rewrite (double_comp q 0 H). reflexivity. Qed.

Lemma zeroPage_valid r : zeroPage r -> validPage r.
Proof.
  intros (q & Hq & H0). exists q. split; [exact Hq|].
  rewrite (double_of_zero q H0). lra.
Qed.

Lemma summedScoreFrom_zero c pages :
  Forall zeroPage pages ->
  forall start, (start == 0)%Q -> (summedScoreFrom c pages start == 0)%Q.
Proof.
  induction 1 as [|r rest (q & Hq & H0) _ IH]; intros start Hstart; [exact Hstart|].
  unfold summedScoreFrom. cbn [fold_left].
  destruct (decide (resultCategory r = c)); [|apply IH, Hstart].
  apply IH. unfold conf, Js.add. rewrite Hq.
  rewrite double_of_zero; [reflexivity|]. rewrite Hstart, H0. reflexivity.
Qed.

Lemma summedScore_zero c pages :
  Forall zeroPage pages -> (summedScore c pages == 0)%Q.
Proof. intros H. apply summedScoreFrom_zero; [exact H|reflexivity]. Qed.

Lemma sum_zero pages :
  Forall zeroPage pages ->
  forall q0, (q0 == 0)%Q -> exists q,
    fold_left (fun sum r => Num.add sum (resultConfidence r)) pages (Fin q0) = Fin q /\
    (q == 0)%Q.
Proof.
  induction 1 as [|r rest (q & Hq & H0) _ IH]; intros q0 Hq0; cbn [fold_left].
  - exists q0. split; [reflexivity|exact Hq0].
  - rewrite Hq. cbn [Num.add]. apply IH. unfold Js.add.
    rewrite double_of_zero; [reflexivity|]. rewrite Hq0, H0. reflexivity.
Qed.

(** X11.  When every page has confidence 0, as the pages of a failed
    classification have, aggregateClassifications returns category unknown
    with an empty list of alternatives; if no page was itself classified
    unknown the returned confidence is NaN (0/0) and the subtype is
    undefined, and if some page was, the returned confidence is 0. *)
Theorem aggregateClassifications_without_confidence
    (pages : list ClassificationResult) :
  Forall zeroPage pages ->
  let result := aggregateClassifications pages in
  resultCategory result = unknown /\
  alternativeCategories result = Some [] /\
  ((forall r, In r pages -> resultCategory r <> unknown) ->
   resultConfidence result = NaN /\ subtype result = None) /\
  ((exists r, In r pages /\ resultCategory r = unknown) ->
   zeroPage result).
Proof.
  intros Hzero. cbv zeta.
  assert (Hvalid : Forall validPage pages)
    by (eapply Forall_impl; [exact Hzero|exact zeroPage_valid]).
  destruct (categoryScoresOf_spec pages Hvalid) as [Hkeys Hvals].
  assert (Hentries : forall c v, In (c, v) (categoryScoresOf pages) ->
                                 exists q, v = Fin q /\ (q == 0)%Q).
  { intros c v Hin.
    assert (Hget : Map_get c (categoryScoresOf pages) = Some v).
    { apply In_Map_get; [|exact Hin]. rewrite Hkeys. apply firstSeen_NoDup. }
    rewrite (Hvals c v Hget). eexists. split; [reflexivity|].
    apply summedScore_zero, Hzero. }
  assert (Hbest : bestOf (categoryScoresOf pages) = (unknown, Fin 0)).
  { unfold bestOf.
    destruct (bestOf_from (categoryScoresOf pages)
                (fun c v Hin => match Hentries c v Hin with
                                | ex_intro _ q (conj Hq _) => ex_intro _ q Hq
                                end) unknown 0)
      as [[Hres _]|(M1 & w & q & M2 & HM & _ & Hlt & _)]; [exact Hres|].
    exfalso.
    destruct (Hentries w (Fin q)) as (q' & Hq' & H0).
    - rewrite HM. apply in_or_app. right. left. reflexivity.
    - injection Hq' as <-. lra. }
  unfold aggregateClassifications.
  cbn [resultCategory resultConfidence alternativeCategories subtype].
  rewrite Hbest. cbn [fst].
  split; [reflexivity|]. split; [|split].
  - unfold getAlternativeCategories. rewrite alternatives_loop. cbn [app].
    assert (Hnone : alternativeCandidates (categoryScoresOf pages) unknown = []).
    { generalize Hentries. generalize (categoryScoresOf pages). clear.
      induction l as [|[c v] rest IH]; intros H; [reflexivity|].
      cbn [alternativeCandidates].
      destruct (H c v (or_introl eq_refl)) as (q & -> & H0).
      replace (Num.gt (Fin q) (Fin (Js.double (3 # 10)))) with false.
      - rewrite andb_false_r. apply IH. intros c' v' Hin. apply (H c'). right. exact Hin.
      - symmetry. cbn [Num.gt]. apply Js_gt_false.
        assert (H03 : (0 <= Js.double (3 # 10))%Q) by (apply double_nonneg; lra).
        lra. }
    rewrite Hnone. reflexivity.
  - intros Hnone.
    assert (Hrel : filter (fun r => resultCategory r = unknown) pages = []).
    { clear - Hnone. induction pages as [|r rest IH]; [reflexivity|].
      rewrite filter_cons, decide_False by (apply Hnone; left; reflexivity).
      apply IH. intros r' Hr'. apply Hnone. right. exact Hr'. }
    rewrite Hrel. split; reflexivity.
  - intros (r & Hin & Hr).
    set (relevant := filter (fun r => resultCategory r = unknown) pages).
    assert (Hrz : Forall zeroPage relevant).
    { apply Forall_forall. intros x Hx. apply list_elem_of_filter in Hx as [_ Hx].
      rewrite Forall_forall in Hzero. apply Hzero, Hx. }
    assert (Hne : relevant <> []).
    { intros H.
      assert (Hx : r ∈ relevant)
        by (apply list_elem_of_filter; split; [exact Hr|apply list_elem_of_In, Hin]).
      rewrite H in Hx. inversion Hx. }
    destruct (sum_zero relevant Hrz 0 ltac:(reflexivity)) as (s & -> & Hs).
    unfold zeroPage. cbn [resultConfidence Num.divLength].
    replace (Js.length relevant =? 0) with false.
    + eexists. split; [reflexivity|]. unfold Js.div.
      rewrite double_of_zero; [reflexivity|]. rewrite Hs. unfold Qdiv. lra.
    + symmetry. apply Z.eqb_neq. unfold Js.length.
      destruct relevant; [contradiction|]. cbn [List.length]. lia.
Qed.

Lemma aggregateClassifications_without_confidence_witness :
  resultCategory
    (aggregateClassifications [page identity 0 "passport"; page income 0 "payslip"])
  = unknown.
Proof.
  apply (aggregateClassifications_without_confidence
           [page identity 0 "passport"; page income 0 "payslip"]).
  repeat constructor; exists 0%Q; (split; [reflexivity|lra]).
Defined.

(** *** The range of the completeness score *)











(** *** File names *)

Lemma isSafe_toLower c : isSafe c = true -> isStored (toLower c) = true.
Proof.
  destruct c as [b0 b1 b2 b3 b4 b5 b6 b7].
  destruct b0, b1, b2, b3, b4, b5, b6, b7; vm_compute; intros H;
    first [reflexivity | discriminate H].
Qed.

Lemma toLower_underscore c :
  Ascii.eqb (toLower c) "_" = Ascii.eqb c "_".
Proof.
  destruct c as [b0 b1 b2 b3 b4 b5 b6 b7].
  destruct b0, b1, b2, b3, b4, b5, b6, b7; vm_compute; reflexivity.
Qed.

Lemma isStored_fixed c :
  isStored c = true -> isSafe c = true /\ toLower c = c.
Proof.
  destruct c as [b0 b1 b2 b3 b4 b5 b6 b7].
  destruct b0, b1, b2, b3, b4, b5, b6, b7; vm_compute; intros H;
    first [split; reflexivity | discriminate H].
Qed.

Lemma replaceUnsafe_safe s : allChars isSafe (replaceUnsafe s) = true.
Proof.
  induction s as [|c rest IH]; [reflexivity|].
  cbn [replaceUnsafe allChars]. rewrite IH, andb_true_r.
  destruct (isSafe c) eqn:E; [exact E|reflexivity].
Qed.

Lemma replaceUnsafe_id s : allChars isSafe s = true -> replaceUnsafe s = s.
Proof.
  induction s as [|c rest IH]; [reflexivity|].
  cbn [replaceUnsafe allChars]. intros H. apply andb_true_iff in H as [Hc Hrest].
  rewrite Hc, (IH Hrest). reflexivity.
Qed.

Lemma collapseUnderscores_head s c rest :
  collapseUnderscores s = String c rest ->
  exists rest0, s = String c rest0.
Proof.
  destruct s as [|c0 rest0]; [discriminate|].
  cbn [collapseUnderscores].
  destruct (Ascii.eqb c0 "_") eqn:E.
  - apply Ascii.eqb_eq in E. subst c0.
    destruct (collapseUnderscores rest0) as [|c' r'] eqn:Er.
    + intros [= <- _]. eauto.
    + destruct (Ascii.eqb c' "_") eqn:E'.
      * apply Ascii.eqb_eq in E'. subst c'. intros [= <- _]. eauto.
      * intros [= <- _]. eauto.
  - intros [= <- _]. eauto.
Qed.

Lemma collapseUnderscores_all p s :
  allChars p s = true -> allChars p (collapseUnderscores s) = true.
Proof.
  induction s as [|c rest IH]; [reflexivity|].
  cbn [collapseUnderscores allChars]. intros H.
  apply andb_true_iff in H as [Hc Hrest]. specialize (IH Hrest).
  destruct (Ascii.eqb c "_").
  - destruct (collapseUnderscores rest) as [|c' r'] eqn:Er.
    + cbn [allChars]. rewrite Hc. reflexivity.
    + destruct (Ascii.eqb c' "_"); [exact IH|].
      cbn [allChars] in *. rewrite Hc. exact IH.
  - cbn [allChars]. rewrite Hc. exact IH.
Qed.

Lemma singleUnderscores_cons c t :
  singleUnderscores (String c t)
  = match t with
    | String c' _ => negb (Ascii.eqb c "_" && Ascii.eqb c' "_")
    | EmptyString => true
    end && singleUnderscores t.
Proof. reflexivity. Qed.

Lemma collapseUnderscores_single s : singleUnderscores (collapseUnderscores s) = true.
Proof.
  induction s as [|c rest IH]; [reflexivity|].
  cbn [collapseUnderscores].
  destruct (Ascii.eqb c "_") eqn:E.
  - destruct (collapseUnderscores rest) as [|c' r'] eqn:Er; [reflexivity|].
    destruct (Ascii.eqb c' "_") eqn:E'; [exact IH|].
    rewrite singleUnderscores_cons, IH, E, E'. reflexivity.
  - rewrite singleUnderscores_cons, IH, E.
    destruct (collapseUnderscores rest); reflexivity.
Qed.

Lemma collapseUnderscores_id s :
  singleUnderscores s = true -> collapseUnderscores s = s.
Proof.
  induction s as [|c rest IH]; [reflexivity|].
  rewrite singleUnderscores_cons. cbn [collapseUnderscores]. intros H.
  apply andb_true_iff in H as [Hc Hrest]. rewrite (IH Hrest).
  destruct (Ascii.eqb c "_"); [|reflexivity].
  destruct rest as [|c' r']; [reflexivity|].
  cbn [andb] in Hc. apply negb_true_iff in Hc. rewrite Hc. reflexivity.
Qed.

Lemma toLowerCase_stored s :
  allChars isSafe s = true -> allChars isStored (toLowerCase s) = true.
Proof.
  induction s as [|c rest IH]; [reflexivity|].
  cbn [toLowerCase allChars]. intros H. apply andb_true_iff in H as [Hc Hrest].
  rewrite (isSafe_toLower c Hc), (IH Hrest). reflexivity.
Qed.

Lemma toLowerCase_single s :
  singleUnderscores (toLowerCase s) = singleUnderscores s.
Proof.
  induction s as [|c rest IH]; [reflexivity|].
  cbn [toLowerCase]. rewrite !singleUnderscores_cons, IH.
  destruct rest as [|c' r']; [reflexivity|].
  cbn [toLowerCase]. rewrite !toLower_underscore. reflexivity.
Qed.

Lemma toLowerCase_id s : allChars isStored s = true -> toLowerCase s = s.
Proof.
  induction s as [|c rest IH]; [reflexivity|].
  cbn [toLowerCase allChars]. intros H. apply andb_true_iff in H as [Hc Hrest].
  rewrite (proj2 (isStored_fixed c Hc)), (IH Hrest). reflexivity.
Qed.

Lemma allChars_impl (p q : ascii -> bool) s :
  (forall c, p c = true -> q c = true) -> allChars p s = true -> allChars q s = true.
Proof.
  intros Hpq. induction s as [|c rest IH]; [reflexivity|].
  cbn [allChars]. intros H. apply andb_true_iff in H as [Hc Hrest].
  rewrite (Hpq c Hc), (IH Hrest). reflexivity.
Qed.

Lemma sanitizeFileName_stored fileName :
  allChars isStored (sanitizeFileName fileName) = true /\
  singleUnderscores (sanitizeFileName fileName) = true.
Proof.
  unfold sanitizeFileName. split.
  - apply toLowerCase_stored, collapseUnderscores_all, replaceUnsafe_safe.
  - rewrite toLowerCase_single. apply collapseUnderscores_single.
Qed.

Lemma sanitizeFileName_fixed name :
  allChars isStored name = true -> singleUnderscores name = true ->
  sanitizeFileName name = name.
Proof.
  intros Hall Hsingle. unfold sanitizeFileName.
  rewrite replaceUnsafe_id
    by (apply (allChars_impl isStored); [intros c Hc; apply isStored_fixed, Hc|exact Hall]).
  rewrite collapseUnderscores_id by exact Hsingle.
  apply toLowerCase_id, Hall.
Qed.

Lemma collapseUnderscores_length s :
  (String.length (collapseUnderscores s) <= String.length s)%nat.
Proof.
  induction s as [|c rest IH]; [reflexivity|].
  cbn [collapseUnderscores].
  destruct (Ascii.eqb c "_").
  - destruct (collapseUnderscores rest) as [|c' r']; cbn [String.length] in *; [lia|].
    destruct (Ascii.eqb c' "_"); cbn [String.length]; lia.
  - cbn [String.length]. lia.
Qed.

Lemma replaceUnsafe_length s : String.length (replaceUnsafe s) = String.length s.
Proof.
  induction s as [|c rest IH]; [reflexivity|].
  cbn [replaceUnsafe String.length]. rewrite IH. reflexivity.
Qed.

Lemma toLowerCase_length s : String.length (toLowerCase s) = String.length s.
Proof.
  induction s as [|c rest IH]; [reflexivity|].
  cbn [toLowerCase String.length]. rewrite IH. reflexivity.
Qed.

(** X14.  sanitizeFileName of the storage service returns a name made only
    of lower-case letters, digits, '.', '_' and '-', with no two underscores
    in a row, and no longer than its input. Applying it twice is the same as
    applying it once, and a name that already has this form is returned
    unchanged. *)
Theorem sanitizeFileName_normal_form (fileName : string) :
  allChars isStored (sanitizeFileName fileName) = true /\
  singleUnderscores (sanitizeFileName fileName) = true /\
  (String.length (sanitizeFileName fileName) <= String.length fileName)%nat /\
  sanitizeFileName (sanitizeFileName fileName) = sanitizeFileName fileName /\
  (allChars isStored fileName = true -> singleUnderscores fileName = true ->
   sanitizeFileName fileName = fileName).
Proof.
  destruct (sanitizeFileName_stored fileName) as [Hall Hsingle].
  split; [exact Hall|]. split; [exact Hsingle|]. split; [|split].
  - unfold sanitizeFileName.
    rewrite toLowerCase_length, <- (replaceUnsafe_length fileName).
    apply collapseUnderscores_length.
  - apply sanitizeFileName_fixed; assumption.
  - apply sanitizeFileName_fixed.
Qed.

Lemma sanitizeFileName_normal_form_witness :
  sanitizeFileName "council_tax-2025.pdf" = "council_tax-2025.pdf".
Proof.
  apply (sanitizeFileName_normal_form "council_tax-2025.pdf"); reflexivity.
Defined.

(** *** Storage keys *)

Lemma append_length (a b : string) :
  String.length (a +:+ b) = (String.length a + String.length b)%nat.
Proof.
  induction a as [|c a IH]; [reflexivity|].
  change (String c a +:+ b) with (String c (a +:+ b)).
  cbn [String.length Nat.add]. rewrite IH. reflexivity.
Qed.

Lemma append_cancel_r (a b t : string) : a +:+ t = b +:+ t -> a = b.
Proof.
  revert b. induction a as [|c a IH]; intros [|c' b] H.
  - reflexivity.
  - exfalso. apply (f_equal String.length) in H.
    change ("" +:+ t) with t in H. rewrite append_length in H.
    cbn [String.length] in H. lia.
  - exfalso. apply (f_equal String.length) in H.
    change ("" +:+ t) with t in H. rewrite append_length in H.
    cbn [String.length] in H. lia.
  - change (String c (a +:+ t) = String c' (b +:+ t)) in H.
    injection H as -> H. rewrite (IH b H). reflexivity.
Qed.

Lemma append_assoc (a b c : string) : (a +:+ b) +:+ c = a +:+ (b +:+ c).
Proof.
  induction a as [|x a IH]; [reflexivity|].
  change (String x ((a +:+ b) +:+ c) = String x (a +:+ (b +:+ c))).
  rewrite IH. reflexivity.
Qed.

Lemma toString_inj (m n : Z) : Js.toString m = Js.toString n -> m = n.
Proof.
  unfold Js.toString. intros H.
  assert (Hnorm : forall z, Z.to_int z <> Decimal.Pos Decimal.Nil /\
                            Z.to_int z <> Decimal.Neg Decimal.Nil).
  { intros z. pose proof (DecimalZ.to_of (Z.to_int z)) as Hz.
    rewrite DecimalZ.of_to in Hz.
    split; intros E; rewrite E in Hz; discriminate Hz. }
  apply DecimalZ.to_int_inj.
  assert (Hm : NilZero.int_of_string (NilZero.string_of_int (Z.to_int m))
               = Some (Z.to_int m)) by (apply NilZero.isi; apply Hnorm).
  assert (Hn : NilZero.int_of_string (NilZero.string_of_int (Z.to_int n))
               = Some (Z.to_int n)) by (apply NilZero.isi; apply Hnorm).
  rewrite H, Hn in Hm. injection Hm as Hm. symmetry. exact Hm.
Qed.

(** X15.  Two document keys, and two extraction keys, built for the same
    client, case and name are different whenever their version numbers are
    different; two document keys for the same client, case and version are
    equal exactly when the two file names sanitize to the same name. *)
Theorem storage_keys_tell_versions_apart
    (clientId application_id name : string) (v1 v2 : Z) :
  (generateDocumentKey clientId application_id name v1
   = generateDocumentKey clientId application_id name v2 -> v1 = v2) /\
  (generateExtractionKey clientId application_id name v1
   = generateExtractionKey clientId application_id name v2 -> v1 = v2) /\
  (forall other,
     generateDocumentKey clientId application_id name v1
     = generateDocumentKey clientId application_id other v1 <->
     sanitizeFileName name = sanitizeFileName other).
Proof.
  unfold generateDocumentKey, generateExtractionKey.
  split; [|split].
  - intros H. do 4 apply append_cancel_l in H.
    apply append_cancel_r in H. apply toString_inj, H.
  - intros H. do 6 apply append_cancel_l in H.
    apply append_cancel_r in H. apply toString_inj, H.
  - intros other. split.
    + intros H. do 6 apply append_cancel_l in H. exact H.
    + intros ->. reflexivity.
Qed.

Lemma storage_keys_tell_versions_apart_witness :
  generateDocumentKey "client-1" "app-1" "Council Tax.PDF" 1
  = generateDocumentKey "client-1" "app-1" "council_tax.pdf" 1.
Proof.
  apply (proj2 (proj2 (storage_keys_tell_versions_apart
                         "client-1" "app-1" "Council Tax.PDF" 1 1))).
  reflexivity.
Defined.

Lemma splitPop_no_slash current s :
  allChars (fun c => negb (Ascii.eqb c "/")) s = true ->
  splitPop current s = current +:+ s.
Proof.
  revert current. induction s as [|c rest IH]; intros current H.
  - cbn [splitPop]. clear. induction current as [|x a IH]; [reflexivity|].
    change (String x a = String x (a +:+ "")). rewrite <- IH. reflexivity.
  - cbn [allChars] in H. apply andb_true_iff in H as [Hc Hrest].
    apply negb_true_iff in Hc. cbn [splitPop]. rewrite Hc, (IH _ Hrest).
    rewrite append_assoc. reflexivity.
Qed.

Lemma splitPop_after_slash (prefix s : string) current :
  allChars (fun c => negb (Ascii.eqb c "/")) s = true ->
  splitPop current (prefix +:+ "/" +:+ s) = s.
Proof.
  revert current. induction prefix as [|c rest IH]; intros current H.
  - change ("" +:+ "/" +:+ s) with (String "/" s).
    cbn [splitPop]. rewrite Ascii.eqb_refl.
    rewrite splitPop_no_slash by exact H. reflexivity.
  - change (String c rest +:+ "/" +:+ s) with (String c (rest +:+ "/" +:+ s)).
    cbn [splitPop]. destruct (Ascii.eqb c "/"); apply IH, H.
Qed.

Lemma isStored_no_slash c : isStored c = true -> negb (Ascii.eqb c "/") = true.
Proof.
  destruct c as [b0 b1 b2 b3 b4 b5 b6 b7].
  destruct b0, b1, b2, b3, b4, b5, b6, b7; vm_compute; intros H;
    first [reflexivity | discriminate H].
Qed.

(** X16.  Given a source key that generateDocumentKey built from a file name
    whose sanitized form is not empty, createDocumentVersion copies the
    object to the key that generateDocumentKey builds for the same file name
    and the new version, and returns that key; an error of the copy is
    passed on. *)
Theorem createDocumentVersion_keeps_the_file_name
    (copyObject : string -> string -> Exc unit)
    (clientId application_id fileName : string) (version newVersion : Z) :
  let sourceKey := generateDocumentKey clientId application_id fileName version in
  let newKey := generateDocumentKey clientId application_id fileName newVersion in
  sanitizeFileName fileName <> "" ->
  createDocumentVersion copyObject clientId application_id sourceKey newVersion
  = match copyObject sourceKey newKey with
    | inl e => inl e
    | inr _ => inr newKey
    end.
Proof.
  cbv zeta. intros Hne. unfold createDocumentVersion.
  assert (Hpop : splitPop "" (generateDocumentKey clientId application_id fileName version)
                 = sanitizeFileName fileName).
  { unfold generateDocumentKey.
    rewrite <- (append_assoc clientId), <- (append_assoc _ application_id),
            <- (append_assoc _ "/documents/v"), <- (append_assoc _ (Js.toString version)).
    apply splitPop_after_slash.
    apply (allChars_impl isStored); [exact isStored_no_slash|].
    apply sanitizeFileName_stored. }
  rewrite Hpop.
  destruct (sanitizeFileName fileName) as [|c rest] eqn:E; [contradiction|].
  assert (Hsame : generateDocumentKey clientId application_id (String c rest) newVersion
                  = generateDocumentKey clientId application_id fileName newVersion).
  { unfold generateDocumentKey. rewrite <- E.
    rewrite sanitizeFileName_fixed by apply sanitizeFileName_stored. reflexivity. }
  rewrite Hsame. unfold bindExc. reflexivity.
Qed.

Lemma createDocumentVersion_keeps_the_file_name_witness :
  createDocumentVersion (fun _ _ => inr tt) "client-1" "app-1"
    (generateDocumentKey "client-1" "app-1" "Council Tax.PDF" 1) 2
  = inr "client-1/app-1/documents/v2/council_tax.pdf".
Proof.
  rewrite (createDocumentVersion_keeps_the_file_name
             (fun _ _ => inr tt) "client-1" "app-1" "Council Tax.PDF" 1 2).
  - reflexivity.
  - discriminate.
Defined.

(** *** Rows of the documents table *)


Lemma find_map_id (j : string) (f : Document -> Document) (l : list Document) :
  (forall d, id (f d) = id d) ->
  find (fun d => String.eqb (id d) j) (map f l)
  = option_map f (find (fun d => String.eqb (id d) j) l).
Proof.
  intros Hid. induction l as [|d rest IH]; [reflexivity|].
  cbn [map find]. rewrite Hid. destruct (String.eqb (id d) j); [reflexivity|exact IH].
Qed.

Lemma findById_updateWhereId i j set db :
  (forall d, id (set d) = id d) ->
  DocumentRepository.findById j (DocumentRepository.updateWhereId i set db)
  = option_map (fun d => if String.eqb (id d) i then set d else d)
               (DocumentRepository.findById j db).
Proof.
  intros Hid. unfold DocumentRepository.findById, DocumentRepository.updateWhereId,
                     withDocuments.
  cbn [documents]. apply find_map_id. intros d.
  destruct (String.eqb (id d) i); [apply Hid|reflexivity].
Qed.

Lemma findById_id j db d : DocumentRepository.findById j db = Some d -> id d = j.
Proof.
  unfold DocumentRepository.findById. intros H. apply find_some in H as [_ H].
  apply String.eqb_eq, H.
Qed.

Lemma findById_In j db d : DocumentRepository.findById j db = Some d -> In d (documents db).
Proof.
  unfold DocumentRepository.findById. intros H. apply find_some in H as [H _]. exact H.
Qed.

Lemma findById_updated i set db d :
  (forall d, id (set d) = id d) ->
  DocumentRepository.findById i db = Some d ->
  DocumentRepository.findById i (DocumentRepository.updateWhereId i set db)
  = Some (set d).
Proof.
  intros Hid Hfind. rewrite findById_updateWhereId by exact Hid.
  rewrite Hfind. cbn [option_map].
  rewrite (findById_id _ _ _ Hfind), String.eqb_refl. reflexivity.
Qed.

Lemma findById_other i j set db :
  (forall d, id (set d) = id d) -> j <> i ->
  DocumentRepository.findById j (DocumentRepository.updateWhereId i set db)
  = DocumentRepository.findById j db.
Proof.
  intros Hid Hne. rewrite findById_updateWhereId by exact Hid.
  destruct (DocumentRepository.findById j db) as [d|] eqn:E; [|reflexivity].
  cbn [option_map]. rewrite (findById_id _ _ _ E).
  apply String.eqb_neq in Hne. rewrite Hne. reflexivity.
Qed.

Lemma updateWhereId_twice i set1 set2 db :
  (forall d, id (set1 d) = id d) ->
  DocumentRepository.updateWhereId i set2 (DocumentRepository.updateWhereId i set1 db)
  = DocumentRepository.updateWhereId i (fun d => set2 (set1 d)) db.
Proof.
  intros Hid. unfold DocumentRepository.updateWhereId, withDocuments.
  cbn [documents applications documentVersions extractionVersions processingLog
       sequences].
  rewrite map_map. f_equal. apply map_ext. intros d.
  destruct (String.eqb (id d) i) eqn:E; [|rewrite E; reflexivity].
  rewrite Hid, E. reflexivity.
Qed.

Lemma updateProcessingStatus_overwrites i s s' db :
  DocumentRepository.updateProcessingStatus i s
    (DocumentRepository.updateProcessingStatus i s' db)
  = DocumentRepository.updateProcessingStatus i s db.
Proof.
  unfold DocumentRepository.updateProcessingStatus.
  rewrite updateWhereId_twice by reflexivity. reflexivity.
Qed.

Lemma findById_log j entry db :
  DocumentRepository.findById j (ProcessingLogRepository.log entry db)
  = DocumentRepository.findById j db.
Proof. reflexivity. Qed.

Lemma findById_updateStatus j a s db :
  DocumentRepository.findById j (ApplicationRepository.updateStatus a s db)
  = DocumentRepository.findById j db.
Proof. reflexivity. Qed.

Lemma findById_updateChecklistStatus j a s db :
  DocumentRepository.findById j (ApplicationRepository.updateChecklistStatus a s db)
  = DocumentRepository.findById j db.
Proof. reflexivity. Qed.

(** *** Runs of the pipeline *)

Ltac rows :=
  unfold DocumentRepository.updateProcessingStatus,
         DocumentRepository.updateClassification,
         DocumentRepository.updateExtraction;
  repeat (rewrite ?findById_log, ?findById_updateStatus,
                  ?findById_updateChecklistStatus;
          rewrite ?findById_updateWhereId by reflexivity).

Ltac other_rows Hj :=
  unfold DocumentRepository.updateProcessingStatus,
         DocumentRepository.updateClassification,
         DocumentRepository.updateExtraction;
  repeat (rewrite ?findById_log, ?findById_updateStatus,
                  ?findById_updateChecklistStatus;
          rewrite ?findById_other by (reflexivity || exact Hj)).

Ltac this_row Heq :=
  repeat (cbn [option_map DocumentRepository.setProcessingStatus id]; rewrite ?Heq).

Section Runs.
Context {host : DateHost}.
Variable now : Z.
Variable getDocumentAsBase64 : string -> Exc (string * string).
Variable uploadExtraction :
  string -> string -> string -> ExtractedDocumentData -> Z -> Exc unit.
Variable classifyDocument : string -> string -> ClassificationResult.
Variable extractionModelCall :
  string -> string -> DocumentCategory -> Exc (option string).
Variable parseExtraction : string -> Exc (list (string * RawValue)).
Variable classificationThreshold : Q.
Variable extractionThreshold : Q.
Variable openaiModel : string.
Variable isoNow : string.
Variable numberToString : Num -> string.

Local Notation "'runClassifyAndExtract'" :=
  (classifyAndExtract getDocumentAsBase64 uploadExtraction classifyDocument
                      extractionModelCall parseExtraction classificationThreshold
                      extractionThreshold openaiModel isoNow numberToString).
Local Notation "'runProcessDocument'" :=
  (processDocument now getDocumentAsBase64 uploadExtraction classifyDocument
                   extractionModelCall parseExtraction classificationThreshold
                   extractionThreshold openaiModel isoNow numberToString).
Local Notation "'runReprocessDocument'" :=
  (reprocessDocument now getDocumentAsBase64 uploadExtraction classifyDocument
                     extractionModelCall parseExtraction classificationThreshold
                     extractionThreshold openaiModel isoNow numberToString).

(** The first write of a run makes the processing status that the run
    found irrelevant. *)
Lemma classifyAndExtract_forgets_status documentId document s db errs :
  runClassifyAndExtract documentId (DocumentRepository.setProcessingStatus s document)
    (DocumentRepository.updateProcessingStatus documentId s db, errs)
  = match getDocumentAsBase64 (s3Key document) with
    | inl e => ((DocumentRepository.updateProcessingStatus documentId s db, errs), inl e)
    | inr _ => runClassifyAndExtract documentId document (db, errs)
    end.
Proof.
  unfold classifyAndExtract, stepBind, await, write.
  change (s3Key (DocumentRepository.setProcessingStatus s document))
    with (s3Key document).
  destruct (getDocumentAsBase64 (s3Key document)) as [e|[base64 mimeType]];
    [reflexivity|].
  cbn [fst snd]. rewrite updateProcessingStatus_overwrites. reflexivity.
Qed.

Lemma reprocessDocument_is_processDocument documentId db :
  runReprocessDocument documentId db = runProcessDocument documentId db.
Proof.
  unfold reprocessDocument, processDocument.
  destruct (DocumentRepository.findById documentId db) as [document|] eqn:Hfind;
    [|reflexivity].
  unfold DocumentRepository.updateProcessingStatus at 1.
  rewrite (findById_updated documentId _ db document) by (reflexivity || exact Hfind).
  fold (DocumentRepository.updateProcessingStatus documentId uploaded db).
  unfold processSteps, stepBind.
  rewrite classifyAndExtract_forgets_status.
  destruct (getDocumentAsBase64 (s3Key document)) as [e|blob] eqn:Hblob.
  - unfold processFailed. cbn [fst snd].
    rewrite updateProcessingStatus_overwrites.
    assert (Hfail : runClassifyAndExtract documentId document (db, [])
                    = ((db, []), inl e)).
    { unfold classifyAndExtract, stepBind, await. rewrite Hblob. reflexivity. }
    rewrite Hfail. reflexivity.
  - reflexivity.
Qed.


(** What the run leaves when the blob cannot be fetched. *)
Lemma processDocument_fetch_failed documentId db document e :
  DocumentRepository.findById documentId db = Some document ->
  getDocumentAsBase64 (s3Key document) = inl e ->
  runProcessDocument documentId db
  = (ProcessingLogRepository.log
       {| logDocumentId := documentId; logApplicationId := applicationId document;
          action := "processing"; logStatus := LogFailed; details := None;
          logErrorMessage := Some (errorMessage e) |}
       (DocumentRepository.updateProcessingStatus documentId error db),
     {| processed := false; processedDocumentId := documentId;
        classification := None; extraction := None; checklistStatus := None;
        errors := Some [errorMessage e] |}).
Proof.
  intros Hfind Hblob. unfold processDocument. rewrite Hfind.
  unfold processSteps, stepBind, classifyAndExtract, await. rewrite Hblob.
  reflexivity.
Qed.








End Runs.

(** X17.  reprocessDocument leaves the same database and returns the same
    result as processDocument called on the same document: the reset of the
    status to uploaded is overwritten by the run before anything reads it,
    whether the run succeeds, fails or does not find the document. *)
Theorem reprocessDocument_runs_processDocument
    {host : DateHost} (now : Z)
    (getDocumentAsBase64 : string -> Exc (string * string))
    (uploadExtraction :
       string -> string -> string -> ExtractedDocumentData -> Z -> Exc unit)
    (classifyDocument : string -> string -> ClassificationResult)
    (extractionModelCall : string -> string -> DocumentCategory -> Exc (option string))
    (parseExtraction : string -> Exc (list (string * RawValue)))
    (classificationThreshold extractionThreshold : Q)
    (openaiModel isoNow : string) (numberToString : Num -> string)
    (documentId : string) (db : Database) :
  reprocessDocument now getDocumentAsBase64 uploadExtraction classifyDocument
                    extractionModelCall parseExtraction classificationThreshold
                    extractionThreshold openaiModel isoNow numberToString
                    documentId db
  = processDocument now getDocumentAsBase64 uploadExtraction classifyDocument
                    extractionModelCall parseExtraction classificationThreshold
                    extractionThreshold openaiModel isoNow numberToString
                    documentId db.
Proof. apply reprocessDocument_is_processDocument. Qed.

(** X18.  When the stored file of an existing document cannot be fetched,
    processDocument returns success false with the message of the storage
    error as its only error, sets the status of the document to error,
    appends one failed entry with that message to the processing log, and
    changes no other document, no case and no extraction version. *)
Theorem storage_failure_marks_the_document_error
    {host : DateHost} (now : Z)
    (getDocumentAsBase64 : string -> Exc (string * string))
    (uploadExtraction :
       string -> string -> string -> ExtractedDocumentData -> Z -> Exc unit)
    (classifyDocument : string -> string -> ClassificationResult)
    (extractionModelCall : string -> string -> DocumentCategory -> Exc (option string))
    (parseExtraction : string -> Exc (list (string * RawValue)))
    (classificationThreshold extractionThreshold : Q)
    (openaiModel isoNow : string) (numberToString : Num -> string)
    (documentId : string) (db : Database) (document : Document) (e : Thrown) :
  DocumentRepository.findById documentId db = Some document ->
  getDocumentAsBase64 (s3Key document) = inl e ->
  let run :=
    processDocument now getDocumentAsBase64 uploadExtraction classifyDocument
                    extractionModelCall parseExtraction classificationThreshold
                    extractionThreshold openaiModel isoNow numberToString
                    documentId db in
  snd run = failedRun documentId (errorMessage e) /\
  DocumentRepository.findById documentId (fst run)
  = Some (DocumentRepository.setProcessingStatus error document) /\
  (forall j, j <> documentId ->
             DocumentRepository.findById j (fst run) = DocumentRepository.findById j db) /\
  applications (fst run) = applications db /\
  extractionVersions (fst run) = extractionVersions db /\
  exists entry,
    processingLog (fst run) = processingLog db ++ [entry] /\
    logStatus entry = LogFailed /\ logErrorMessage entry = Some (errorMessage e).
Proof.
  intros Hfind Hblob. cbv zeta.
  rewrite (processDocument_fetch_failed now getDocumentAsBase64 uploadExtraction
             classifyDocument extractionModelCall parseExtraction
             classificationThreshold extractionThreshold openaiModel isoNow
             numberToString documentId db document e Hfind Hblob).
  cbn [fst snd].
  assert (Heq : String.eqb (id document) documentId = true)
    by (rewrite (findById_id _ _ _ Hfind); apply String.eqb_refl).
  split; [reflexivity|]. split; [|split; [|split; [reflexivity|split; [reflexivity|]]]].
  - rows. rewrite Hfind. this_row Heq. reflexivity.
  - intros j Hj. other_rows Hj. reflexivity.
  - eexists. split; [reflexivity|]. split; reflexivity.
Qed.

Lemma storage_failure_marks_the_document_error_witness :
  snd (processDocument (host := UTC.host) newYear2025
         (fun _ => throw (ThrownError "NoSuchKey"))
         (fun _ _ _ _ _ => inr tt)
         (fun _ _ => page identity (95 # 100) "passport")
         (fun _ _ _ => inr None) (fun _ => inr [])
         (7 # 10) (6 # 10) "gpt-4o" "2025-01-01T00:00:00.000Z" (fun _ => "0.95")
         "doc-1" exampleDatabase)
  = failedRun "doc-1" "NoSuchKey".
Proof.
  apply (storage_failure_marks_the_document_error (host := UTC.host) newYear2025
           (fun _ => throw (ThrownError "NoSuchKey"))
           (fun _ _ _ _ _ => inr tt)
           (fun _ _ => page identity (95 # 100) "passport")
           (fun _ _ _ => inr None) (fun _ => inr [])
           (7 # 10) (6 # 10) "gpt-4o" "2025-01-01T00:00:00.000Z" (fun _ => "0.95")
           "doc-1" exampleDatabase passport (ThrownError "NoSuchKey"));
    reflexivity.
Defined.



(** *** Extraction versions *)

Lemma byVersionDesc_key (x y : ExtractionVersion) :
  ExtractionVersionRepository.byVersionDesc x y
  = Js.gt (inject_Z (evVersion y)) (inject_Z (evVersion x)).
Proof.
  unfold ExtractionVersionRepository.byVersionDesc.
  destruct (evVersion x <? evVersion y) eqn:E; symmetry.
  - apply Js_gt_true. rewrite <- Zlt_Qlt. apply Z.ltb_lt, E.
  - apply Js_gt_false. rewrite <- Zle_Qle. apply Z.ltb_ge, E.
Qed.



(** X20.  findByDocumentId of the extraction-version repository returns
    exactly the version rows of the document, sorted by version number
    descending. getLatestVersion returns the first of them, a row of the
    document whose version no other row of the document exceeds, and it
    returns null exactly when the document has no version row. *)
Theorem getLatestVersion_is_the_highest_version (documentId : string) (db : Database) :
  let rows := ExtractionVersionRepository.findByDocumentId documentId db in
  Permutation rows
    (List.filter (fun v => String.eqb (evDocumentId v) documentId)
                 (extractionVersions db)) /\
  StronglySorted (fun a b => evVersion b <= evVersion a) rows /\
  ExtractionVersionRepository.getLatestVersion documentId db = head rows /\
  (forall latest,
     ExtractionVersionRepository.getLatestVersion documentId db = Some latest ->
     In latest (extractionVersions db) /\ evDocumentId latest = documentId /\
     forall v, In v (extractionVersions db) -> evDocumentId v = documentId ->
               evVersion v <= evVersion latest) /\
  (ExtractionVersionRepository.getLatestVersion documentId db = None <->
   forall v, In v (extractionVersions db) -> evDocumentId v <> documentId).
Proof.
  cbv zeta.
  set (mine := List.filter (fun v => String.eqb (evDocumentId v) documentId)
                           (extractionVersions db)).
  assert (Hmine : forall v, In v mine <->
                            In v (extractionVersions db) /\ evDocumentId v = documentId).
  { intros v. subst mine. rewrite filter_In, String.eqb_eq. reflexivity. }
  assert (Hperm : Permutation (ExtractionVersionRepository.findByDocumentId documentId db)
                              mine)
    by apply sortBy_perm.
  assert (Hsorted : StronglySorted (fun a b => evVersion b <= evVersion a)
                      (ExtractionVersionRepository.findByDocumentId documentId db)).
  { pose proof (sortBy_sorted ExtractionVersionRepository.byVersionDesc
                  (fun v => inject_Z (evVersion v)) (fun _ => True)
                  (fun x y _ _ => byVersionDesc_key x y) mine) as H.
    unfold ExtractionVersionRepository.findByDocumentId. fold mine.
    assert (Hall : Forall (fun _ : ExtractionVersion => True) mine)
      by (apply Forall_forall; intros; exact I).
    specialize (H Hall). clear Hall.
    induction H as [|a l Hl IH Ha]; constructor; [exact IH|].
    eapply Forall_impl; [exact Ha|].
    intros b Hb. unfold notBelow in Hb. rewrite <- Zle_Qle in Hb. exact Hb. }
  split; [exact Hperm|]. split; [exact Hsorted|]. split; [reflexivity|]. split.
  - intros latest Hlatest.
    unfold ExtractionVersionRepository.getLatestVersion in Hlatest.
    destruct (ExtractionVersionRepository.findByDocumentId documentId db)
      as [|first rest] eqn:Hrows; [discriminate Hlatest|].
    injection Hlatest as ->.
    assert (Hin : In latest mine).
    { apply (Permutation_in latest Hperm). left. reflexivity. }
    apply Hmine in Hin as [Hin Hid]. split; [exact Hin|]. split; [exact Hid|].
    intros v Hv Hvid.
    assert (Hvm : In v mine) by (apply Hmine; auto).
    apply (Permutation_in v (Permutation_sym Hperm)) in Hvm.
    destruct Hvm as [<-|Hvm]; [lia|].
    apply StronglySorted_inv in Hsorted as [_ Hfirst].
    rewrite Forall_forall in Hfirst. apply Hfirst, list_elem_of_In, Hvm.
  - unfold ExtractionVersionRepository.getLatestVersion.
    destruct (ExtractionVersionRepository.findByDocumentId documentId db)
      as [|first rest] eqn:Hrows.
    + split; [|reflexivity]. intros _ v Hv Hid.
      assert (Hvm : In v mine) by (apply Hmine; auto).
      apply (Permutation_in v (Permutation_sym Hperm)) in Hvm. destruct Hvm.
    + split; [discriminate|]. intros Hnone. exfalso.
      assert (Hin : In first mine)
        by (apply (Permutation_in first Hperm); left; reflexivity).
      apply Hmine in Hin as [Hin Hid]. apply (Hnone first Hin Hid).
Qed.







(** *** Integrity of the tables *)

Lemma consistent_same db db' :
  documents db' = documents db -> extractionVersions db' = extractionVersions db ->
  (forall a, is_Some (applications db !! a) -> is_Some (applications db' !! a)) ->
  consistent db -> consistent db'.
Proof.
  intros Hdocs Hev Happs (Hnd & Hcases & Hbound).
  split; [rewrite Hdocs; exact Hnd|]. split.
  - intros d Hd. rewrite Hdocs in Hd. destruct (Hcases d Hd) as (a & Ha).
    unfold ApplicationRepository.findById in *.
    destruct (Happs (applicationId d)) as (a' & Ha'); [rewrite Ha; eauto|].
    exists a'. exact Ha'.
  - intros v d Hv Hd. rewrite Hev in Hv. rewrite Hdocs in Hd. apply Hbound; assumption.
Qed.

Lemma consistent_log entry db :
  consistent db -> consistent (ProcessingLogRepository.log entry db).
Proof. apply consistent_same; [reflexivity|reflexivity|auto]. Qed.

Lemma consistent_updateStatus a s db :
  consistent db -> consistent (ApplicationRepository.updateStatus a s db).
Proof.
  apply consistent_same; [reflexivity|reflexivity|].
  intros k [x Hx]. unfold ApplicationRepository.updateStatus, withApplications.
  cbn [applications]. destruct (decide (a = k)) as [->|Hne].
  - rewrite lookup_alter_eq, Hx. cbn. eauto.
  - rewrite lookup_alter_ne by exact Hne. eauto.
Qed.

Lemma consistent_updateChecklistStatus a s db :
  consistent db -> consistent (ApplicationRepository.updateChecklistStatus a s db).
Proof.
  apply consistent_same; [reflexivity|reflexivity|].
  intros k [x Hx]. unfold ApplicationRepository.updateChecklistStatus, withApplications.
  cbn [applications]. destruct (decide (a = k)) as [->|Hne].
  - rewrite lookup_alter_eq, Hx. cbn. eauto.
  - rewrite lookup_alter_ne by exact Hne. eauto.
Qed.

Lemma consistent_updateWhereId i set db :
  (forall d, In d (documents db) -> id d = i ->
             id (set d) = id d /\ applicationId (set d) = applicationId d /\
             extractionVersion d <= extractionVersion (set d)) ->
  consistent db -> consistent (DocumentRepository.updateWhereId i set db).
Proof.
  intros Hset (Hnd & Hcases & Hbound).
  assert (Hrow : forall d, In d (documents db) ->
                           let d' := if String.eqb (id d) i then set d else d in
                           id d' = id d /\ applicationId d' = applicationId d /\
                           extractionVersion d <= extractionVersion d').
  { intros d Hd. cbv zeta. destruct (String.eqb (id d) i) eqn:E.
    - apply String.eqb_eq in E. apply Hset; assumption.
    - repeat split. lia. }
  unfold DocumentRepository.updateWhereId, withDocuments.
  split; [|split]; cbn [documents applications extractionVersions].
  - rewrite map_map.
    erewrite map_ext_in; [exact Hnd|].
    intros d Hd. apply (Hrow d Hd).
  - intros d' Hd'. cbn [documents] in Hd'. apply in_map_iff in Hd' as (d & <- & Hd).
    destruct (Hcases d Hd) as (a & Ha). exists a.
    unfold ApplicationRepository.findById in *. cbn [applications].
    destruct (Hrow d Hd) as (_ & -> & _). exact Ha.
  - intros v d' Hv Hd' Hid. cbn [documents extractionVersions] in *.
    apply in_map_iff in Hd' as (d & <- & Hd).
    destruct (Hrow d Hd) as (Hi & _ & Hle). rewrite Hi in Hid.
    specialize (Hbound v d Hv Hd Hid). lia.
Qed.

Lemma consistent_updateProcessingStatus i s db :
  consistent db -> consistent (DocumentRepository.updateProcessingStatus i s db).
Proof.
  apply consistent_updateWhereId. intros d _ _. cbn. repeat split. lia.
Qed.

Lemma consistent_updateClassification i c confidence db :
  consistent db -> consistent (DocumentRepository.updateClassification i c confidence db).
Proof.
  apply consistent_updateWhereId. intros d _ _. cbn. repeat split. lia.
Qed.

Lemma NoDup_id_unique (l : list Document) d d' :
  NoDup (map id l) -> In d l -> In d' l -> id d = id d' -> d = d'.
Proof.
  induction l as [|x rest IH]; intros Hnd Hd Hd' Hid; [destruct Hd|].
  cbn [map] in Hnd. apply NoDup_cons in Hnd as [Hx Hnd].
  destruct Hd as [->|Hd], Hd' as [->|Hd'].
  - reflexivity.
  - exfalso. apply Hx. rewrite Hid. apply list_elem_of_In, in_map, Hd'.
  - exfalso. apply Hx. rewrite <- Hid. apply list_elem_of_In, in_map, Hd.
  - apply IH; assumption.
Qed.

Lemma findById_unique j db d d' :
  NoDup (map id (documents db)) ->
  DocumentRepository.findById j db = Some d -> In d' (documents db) -> id d' = j ->
  d' = d.
Proof.
  intros Hnd Hfind Hd' Hid.
  apply (NoDup_id_unique (documents db)); [exact Hnd|exact Hd'| |].
  - apply (findById_In _ _ _ Hfind).
  - rewrite Hid. symmetry. apply (findById_id _ _ _ Hfind).
Qed.

Lemma consistent_updateExtraction i data score issues db :
  consistent db -> consistent (DocumentRepository.updateExtraction i data score issues db).
Proof.
  intros Hc. unfold DocumentRepository.updateExtraction.
  apply consistent_updateWhereId; [|exact Hc].
  intros d Hd Hid. cbn [id applicationId extractionVersion].
  split; [reflexivity|]. split; [reflexivity|].
  destruct (DocumentRepository.findById i db) as [found|] eqn:Hfind.
  - destruct Hc as (Hnd & _).
    rewrite (findById_unique i db found d Hnd Hfind Hd Hid). lia.
  - exfalso. unfold DocumentRepository.findById in Hfind.
    apply (find_none _ _ Hfind) in Hd. apply String.eqb_neq in Hd. contradiction.
Qed.

Lemma consistent_create row db db' r d :
  ExtractionVersionRepository.create row db = (db', r) ->
  DocumentRepository.findById (evDocumentId row) db = Some d ->
  evVersion row <= extractionVersion d ->
  consistent db -> consistent db'.
Proof.
  unfold ExtractionVersionRepository.create. intros Hcreate Hfind Hle Hc.
  destruct (existsb _ _); injection Hcreate as <- _; [exact Hc|].
  destruct Hc as (Hnd & Hcases & Hbound).
  split; [exact Hnd|]. split; [exact Hcases|].
  intros v d' Hv Hd' Hid. cbn [extractionVersions documents] in *.
  apply in_app_or in Hv as [Hv|[<-|[]]]; [apply Hbound; assumption|].
  rewrite (findById_unique _ db d d' Hnd Hfind Hd' (eq_sym Hid)). exact Hle.
Qed.

Lemma consistent_delete i db :
  consistent db -> consistent (DocumentRepository.delete i db).
Proof.
  intros (Hnd & Hcases & Hbound). unfold DocumentRepository.delete.
  split; [|split]; cbn [documents applications extractionVersions].
  - clear - Hnd. induction (documents db) as [|d rest IH]; [exact Hnd|].
    cbn [map] in Hnd. apply NoDup_cons in Hnd as [Hd Hnd].
    cbn [List.filter]. destruct (negb (String.eqb (id d) i)); [|apply IH, Hnd].
    cbn [map]. apply NoDup_cons. split; [|apply IH, Hnd].
    intros Hin. apply Hd. apply list_elem_of_In in Hin. apply list_elem_of_In.
    apply in_map_iff in Hin as (x & Hx & Hin). apply filter_In in Hin as [Hin _].
    rewrite <- Hx. apply in_map, Hin.
  - intros d Hd. cbn [documents] in Hd. apply filter_In in Hd as [Hd _].
    destruct (Hcases d Hd) as (a & Ha). exists a. exact Ha.
  - intros v d Hv Hd. cbn [documents extractionVersions] in *.
    apply filter_In in Hv as [Hv _]. apply filter_In in Hd as [Hd _].
    apply Hbound; assumption.
Qed.

Section Keeps.
Context {host : DateHost}.
Variable now : Z.
Variable getDocumentAsBase64 : string -> Exc (string * string).
Variable uploadExtraction :
  string -> string -> string -> ExtractedDocumentData -> Z -> Exc unit.
Variable storageDelete : string -> Exc unit.
Variable classifyDocument : string -> string -> ClassificationResult.
Variable extractionModelCall :
  string -> string -> DocumentCategory -> Exc (option string).
Variable parseExtraction : string -> Exc (list (string * RawValue)).
Variable classificationThreshold : Q.
Variable extractionThreshold : Q.
Variable openaiModel : string.
Variable isoNow : string.
Variable numberToString : Num -> string.

Lemma consistent_updateApplicationChecklist a db :
  consistent db -> consistent (fst (updateApplicationChecklist now a db)).
Proof.
  intros Hc. unfold updateApplicationChecklist.
  destruct (ApplicationRepository.findById a db); [|exact Hc].
  cbn [fst]. apply consistent_updateStatus, consistent_updateChecklistStatus, Hc.
Qed.

Lemma consistent_classifyAndExtract documentId document st :
  consistent (fst st) ->
  consistent
    (fst (fst (classifyAndExtract getDocumentAsBase64 uploadExtraction classifyDocument
                 extractionModelCall parseExtraction classificationThreshold
                 extractionThreshold openaiModel isoNow numberToString
                 documentId document st))).
Proof.
  intros Hc.
  unfold classifyAndExtract, stepBind, await, write, read, attempt, stepReturn, pushError.
  destruct (getDocumentAsBase64 (s3Key document)) as [e|[base64 mimeType]];
    [exact Hc|].
  cbn [fst snd].
  set (c := classifyDocument base64 mimeType).
  set (db0 := ProcessingLogRepository.log _ _).
  assert (Hc0 : consistent db0).
  { subst db0. apply consistent_log, consistent_updateClassification,
                 consistent_updateProcessingStatus, Hc. }
  clearbody db0.
  destruct (negb (bool_decide (resultCategory c = unknown))
            && confidentEnough classificationThreshold (resultConfidence c)).
  - cbn [fst snd].
    pose proof (consistent_updateProcessingStatus documentId extracting db0 Hc0) as HcE.
    set (dbE := DocumentRepository.updateProcessingStatus documentId extracting db0) in *.
    clearbody dbE.
    destruct (success _).
    + cbn [fst snd].
      set (db1 := DocumentRepository.updateExtraction _ _ _ _ _).
      assert (Hc1 : consistent db1).
      { subst db1. apply consistent_updateExtraction, HcE. }
      clearbody db1.
      destruct (DocumentRepository.findById documentId db1) as [updatedDoc|] eqn:Hrow;
        [|exact Hc1].
      cbn [fst snd].
      destruct (ExtractionVersionRepository.create _ db1) as [db2 r] eqn:Hcreate.
      assert (Hc2 : consistent db2).
      { apply (consistent_create _ db1 db2 r updatedDoc Hcreate); [exact Hrow| |exact Hc1].
        cbn [evVersion]. lia. }
      cbn [fst snd]. destruct r as [e|[]]; [exact Hc2|].
      destruct (uploadExtraction _ _ _ _ _) as [e|[]]; [exact Hc2|].
      cbn [fst]. apply consistent_log, Hc2.
    + cbn [fst snd]. apply consistent_log, consistent_updateProcessingStatus, HcE.
  - cbn [fst snd]. apply consistent_log, consistent_updateProcessingStatus, Hc0.
Qed.

Lemma consistent_refreshAndComplete documentId document st :
  consistent (fst st) ->
  consistent (fst (fst (refreshAndComplete now documentId document st))).
Proof.
  intros Hc. unfold refreshAndComplete, stepBind, attempt, read, write, stepReturn.
  pose proof (consistent_updateApplicationChecklist (applicationId document) (fst st) Hc)
    as Hc1.
  destruct (updateApplicationChecklist now (applicationId document) (fst st))
    as [db1 [e|checklist]]; cbn [fst snd] in *; [exact Hc1|].
  destruct (match DocumentRepository.findById documentId db1 with
            | Some d => bool_decide (processingStatus d = validation_failed)
            | None => false
            end); cbn [fst snd]; [exact Hc1|].
  apply consistent_updateProcessingStatus, Hc1.
Qed.

Lemma consistent_processDocument documentId db :
  consistent db ->
  consistent
    (fst (processDocument now getDocumentAsBase64 uploadExtraction classifyDocument
            extractionModelCall parseExtraction classificationThreshold
            extractionThreshold openaiModel isoNow numberToString documentId db)).
Proof.
  intros Hc. unfold processDocument.
  destruct (DocumentRepository.findById documentId db) as [document|]; [|exact Hc].
  unfold processSteps, stepBind.
  pose proof (consistent_classifyAndExtract documentId document (db, []) Hc) as H1.
  destruct (classifyAndExtract _ _ _ _ _ _ _ _ _ _ _ _ _) as [st1 [e|found]];
    cbn [fst snd] in H1.
  - unfold processFailed. cbn [fst].
    apply consistent_log, consistent_updateProcessingStatus, H1.
  - pose proof (consistent_refreshAndComplete documentId document st1 H1) as H2.
    destruct (refreshAndComplete now documentId document st1) as [st2 [e|checklist]];
      cbn [fst snd] in H2.
    + unfold processFailed. cbn [fst].
      apply consistent_log, consistent_updateProcessingStatus, H2.
    + cbn [fst]. exact H2.
Qed.

Lemma consistent_deleteDocument documentId db :
  consistent db ->
  consistent (fst (deleteDocument now storageDelete documentId db)).
Proof.
  intros Hc. unfold deleteDocument.
  destruct (DocumentRepository.findById documentId db) as [document|]; [|exact Hc].
  destruct (bindExc _ _) as [e|u]; [exact Hc|].
  pose proof (consistent_updateApplicationChecklist (applicationId document)
                (DocumentRepository.delete documentId db)
                (consistent_delete documentId db Hc)) as H.
  destruct (updateApplicationChecklist now (applicationId document)
              (DocumentRepository.delete documentId db)) as [db2 [e|cl]];
    exact H.
Qed.

End Keeps.

Lemma exampleDatabase_consistent : consistent exampleDatabase.
Proof.
  split; [|split].
  - apply NoDup_ListNoDup. cbn. repeat constructor; cbn; intuition discriminate.
  - intros d [<-|[<-|[]]]; exists exampleCase; reflexivity.
  - intros v d [].
Qed.

(** X24.  If document ids are unique, every document belongs to an existing
    case and no extraction-version row has a version above the
    extractionVersion of its document, then the same holds after
    processDocument, whatever the storage, the classifier and the extraction
    model do and also when the run fails, after deleteDocument and after
    updateApplicationChecklist. *)
Theorem document_service_keeps_the_tables_consistent
    {host : DateHost} (now : Z)
    (getDocumentAsBase64 : string -> Exc (string * string))
    (uploadExtraction :
       string -> string -> string -> ExtractedDocumentData -> Z -> Exc unit)
    (storageDelete : string -> Exc unit)
    (classifyDocument : string -> string -> ClassificationResult)
    (extractionModelCall : string -> string -> DocumentCategory -> Exc (option string))
    (parseExtraction : string -> Exc (list (string * RawValue)))
    (classificationThreshold extractionThreshold : Q)
    (openaiModel isoNow : string) (numberToString : Num -> string)
    (documentId applicationId : string) (db : Database) :
  consistent db ->
  consistent
    (fst (processDocument now getDocumentAsBase64 uploadExtraction classifyDocument
            extractionModelCall parseExtraction classificationThreshold
            extractionThreshold openaiModel isoNow numberToString documentId db)) /\
  consistent (fst (deleteDocument now storageDelete documentId db)) /\
  consistent (fst (updateApplicationChecklist now applicationId db)).
Proof.
  intros Hc. split; [|split].
  - apply consistent_processDocument, Hc.
  - apply consistent_deleteDocument, Hc.
  - apply consistent_updateApplicationChecklist, Hc.
Qed.

Lemma document_service_keeps_the_tables_consistent_witness :
  consistent
    (fst (processDocument (host := UTC.host) newYear2025
            (fun _ => inr ("aGVsbG8=", "image/png"))
            (fun _ _ _ _ _ => inr tt)
            (fun _ _ => page identity (95 # 100) "passport")
            (fun _ _ _ => inr (Some "{}")) (fun _ => inr [])
            (7 # 10) (6 # 10) "gpt-4o" "2025-01-01T00:00:00.000Z" (fun _ => "0.95")
            "doc-1" exampleDatabase)).
Proof.
  apply (document_service_keeps_the_tables_consistent (host := UTC.host) newYear2025
           (fun _ => inr ("aGVsbG8=", "image/png"))
           (fun _ _ _ _ _ => inr tt) (fun _ => inr tt)
           (fun _ _ => page identity (95 # 100) "passport")
           (fun _ _ _ => inr (Some "{}")) (fun _ => inr [])
           (7 # 10) (6 # 10) "gpt-4o" "2025-01-01T00:00:00.000Z" (fun _ => "0.95")
           "doc-1" "app-1" exampleDatabase exampleDatabase_consistent).
Defined.

(** *** Deleting a document *)

Lemma find_filter_other (j documentId : string) (l : list Document) :
  j <> documentId ->
  find (fun d => String.eqb (id d) j)
       (List.filter (fun d => negb (String.eqb (id d) documentId)) l)
  = find (fun d => String.eqb (id d) j) l.
Proof.
  intros Hne. induction l as [|d rest IH]; [reflexivity|].
  cbn [List.filter find]. destruct (String.eqb (id d) documentId) eqn:E; cbn [negb].
  - apply String.eqb_eq in E.
    destruct (String.eqb (id d) j) eqn:Ej; [|exact IH].
    apply String.eqb_eq in Ej. congruence.
  - cbn [find]. rewrite IH. reflexivity.
Qed.

(** The refresh of a checklist writes to the table of applications only. *)
Lemma updateApplicationChecklist_tables {host : DateHost} (now : Z)
    (applicationId : string) (db : Database) :
  let db' := fst (updateApplicationChecklist now applicationId db) in
  documents db' = documents db /\
  documentVersions db' = documentVersions db /\
  extractionVersions db' = extractionVersions db.
Proof.
  cbv zeta. unfold updateApplicationChecklist.
  destruct (ApplicationRepository.findById applicationId db); repeat split.
Qed.

(** X26.  deleteDocument has three outcomes.  It throws and leaves the
    database exactly as it was when the document is unknown or the storage
    refuses to delete the object of one of its version rows or its current
    object, and that error is the one thrown.  Otherwise the storage has
    deleted every one of these objects and the row of the document, its
    version rows and its extraction-version rows are gone, the rows of
    every other document being as before; the call then returns when the
    refresh of the checklist of the case returns, and throws the error of
    that refresh when it throws, the rows staying deleted. *)
Theorem deleteDocument_removes_the_document_or_nothing
    {host : DateHost} (now : Z) (storageDelete : string -> Exc unit)
    (documentId : string) (db : Database) :
  let keys :=
    map snd (List.filter (fun v => String.eqb (fst v) documentId) (documentVersions db)) in
  let run := deleteDocument now storageDelete documentId db in
  (fst run = db /\
   exists e,
     snd run = inl e /\
     (DocumentRepository.findById documentId db = None /\
      e = ThrownError "Document not found"
      \/ exists document key,
           DocumentRepository.findById documentId db = Some document /\
           In key (keys ++ [s3Key document]) /\ storageDelete key = inl e))
  \/
  (exists document,
     DocumentRepository.findById documentId db = Some document /\
     (forall key, In key (keys ++ [s3Key document]) -> storageDelete key = inr tt) /\
     DocumentRepository.findById documentId (fst run) = None /\
     (forall j, j <> documentId ->
                DocumentRepository.findById j (fst run) = DocumentRepository.findById j db) /\
     (forall v, In v (extractionVersions (fst run)) <->
                In v (extractionVersions db) /\ evDocumentId v <> documentId) /\
     (forall v, In v (documentVersions (fst run)) <->
                In v (documentVersions db) /\ fst v <> documentId) /\
     snd run
     = match snd (updateApplicationChecklist now (applicationId document)
                    (DocumentRepository.delete documentId db)) with
       | inr _ => inr tt
       | inl e => inl e
       end).
Proof.
  cbv zeta. unfold deleteDocument.
  destruct (DocumentRepository.findById documentId db) as [document|] eqn:Hfind.
  2:{ left. split; [reflexivity|]. eexists. split; [reflexivity|].
      left. split; reflexivity. }
  pose proof (deleteDocument_storage storageDelete documentId document db) as Hkeys.
  cbv zeta in Hkeys.
  destruct (bindExc _ _) as [e|u].
  { left. split; [reflexivity|]. exists e. split; [reflexivity|]. right.
    destruct Hkeys as (key & Hin & Hkey). exists document, key. auto. }
  right. exists document. split; [reflexivity|]. split; [exact Hkeys|].
  destruct (updateApplicationChecklist_tables now (applicationId document)
              (DocumentRepository.delete documentId db)) as (Hdocs & Hversions & Hextractions).
  assert (Hfst : forall db2 : Database,
             db2 = fst (updateApplicationChecklist now (applicationId document)
                          (DocumentRepository.delete documentId db)) ->
             DocumentRepository.findById documentId db2 = None /\
             (forall j, j <> documentId ->
                        DocumentRepository.findById j db2
                        = DocumentRepository.findById j db) /\
             (forall v, In v (extractionVersions db2) <->
                        In v (extractionVersions db) /\ evDocumentId v <> documentId) /\
             (forall v, In v (documentVersions db2) <->
                        In v (documentVersions db) /\ fst v <> documentId)).
  { intros db2 ->. unfold DocumentRepository.findById.
    rewrite Hdocs, Hversions, Hextractions.
    unfold DocumentRepository.delete.
    cbn [documents documentVersions extractionVersions].
    split; [apply find_after_delete|]. split; [|split].
    - intros j Hj. apply find_filter_other, Hj.
    - intros v. rewrite filter_In, negb_true_iff, String.eqb_neq. reflexivity.
    - intros v. rewrite filter_In, negb_true_iff, String.eqb_neq. reflexivity. }
  destruct (updateApplicationChecklist now (applicationId document)
              (DocumentRepository.delete documentId db)) as [db2 [e|cl]];
    cbn [fst snd] in *;
    destruct (Hfst db2 eq_refl) as (H1 & H2 & H3 & H4);
    (split; [exact H1|]); (split; [exact H2|]); (split; [exact H3|]);
    (split; [exact H4|reflexivity]).
Qed.

(** *** Overriding a classification *)

Lemma updateClassification_overwritten i c k c' k' s db :
  DocumentRepository.updateClassification i c' k'
    (DocumentRepository.updateProcessingStatus i s
       (DocumentRepository.updateClassification i c k db))
  = DocumentRepository.updateClassification i c' k'
      (DocumentRepository.updateProcessingStatus i s db).
Proof.
  unfold DocumentRepository.updateClassification,
         DocumentRepository.updateProcessingStatus.
  rewrite !updateWhereId_twice by reflexivity. reflexivity.
Qed.

Section Override.
Context {host : DateHost}.
Variable now : Z.
Variable getDocumentAsBase64 : string -> Exc (string * string).
Variable uploadExtraction :
  string -> string -> string -> ExtractedDocumentData -> Z -> Exc unit.
Variable classifyDocument : string -> string -> ClassificationResult.
Variable extractionModelCall :
  string -> string -> DocumentCategory -> Exc (option string).
Variable parseExtraction : string -> Exc (list (string * RawValue)).
Variable classificationThreshold : Q.
Variable extractionThreshold : Q.
Variable openaiModel : string.
Variable isoNow : string.
Variable numberToString : Num -> string.

Local Notation "'runProcessDocument'" :=
  (processDocument now getDocumentAsBase64 uploadExtraction classifyDocument
                   extractionModelCall parseExtraction classificationThreshold
                   extractionThreshold openaiModel isoNow numberToString).

(** A run that can fetch the blob overwrites what [updateClassification]
    wrote before it. *)
Lemma processDocument_forgets_classification documentId c k db document blob :
  DocumentRepository.findById documentId db = Some document ->
  getDocumentAsBase64 (s3Key document) = inr blob ->
  runProcessDocument documentId (DocumentRepository.updateClassification documentId c k db)
  = runProcessDocument documentId db.
Proof.
  intros Hfind Hblob. unfold processDocument.
  unfold DocumentRepository.updateClassification at 1.
  rewrite (findById_updated documentId _ db document) by (reflexivity || exact Hfind).
  fold (DocumentRepository.updateClassification documentId c k db).
  rewrite Hfind.
  unfold processSteps, classifyAndExtract, stepBind, await, write.
  cbn [s3Key]. rewrite Hblob. destruct blob as [base64 mimeType].
  cbn [fst snd]. rewrite updateClassification_overwritten. reflexivity.
Qed.

Lemma processDocument_fetch_failed_row documentId db document e :
  DocumentRepository.findById documentId db = Some document ->
  getDocumentAsBase64 (s3Key document) = inl e ->
  DocumentRepository.findById documentId (fst (runProcessDocument documentId db))
  = Some (DocumentRepository.setProcessingStatus error document).
Proof.
  intros Hfind Hblob. unfold processDocument. rewrite Hfind.
  unfold processSteps, classifyAndExtract, stepBind, await. rewrite Hblob.
  unfold processFailed. cbn [fst snd].
  assert (Heq : String.eqb (id document) documentId = true)
    by (rewrite (findById_id _ _ _ Hfind); apply String.eqb_refl).
  rows. rewrite Hfind. this_row Heq. reflexivity.
Qed.

End Override.

(** X27.  For an existing document, overrideClassification without
    reprocessing stores the given category with confidence 1 and status
    classified and answers with that row. With reprocessing, which is the
    default, and a file that can be fetched, the database and the answer are
    exactly those of processDocument run without any override, so the manual
    category is overwritten by the model's; when the file cannot be fetched
    the override stays, with status error. *)
Theorem overrideClassification_keeps_the_override_only_without_a_rerun
    {host : DateHost} (now : Z)
    (getDocumentAsBase64 : string -> Exc (string * string))
    (uploadExtraction :
       string -> string -> string -> ExtractedDocumentData -> Z -> Exc unit)
    (classifyDocument : string -> string -> ClassificationResult)
    (extractionModelCall : string -> string -> DocumentCategory -> Exc (option string))
    (parseExtraction : string -> Exc (list (string * RawValue)))
    (classificationThreshold extractionThreshold : Q)
    (openaiModel isoNow : string) (numberToString : Num -> string)
    (documentId : string) (c : DocumentCategory) (db : Database) (document : Document) :
  DocumentRepository.findById documentId db = Some document ->
  let override :=
    overrideClassification now getDocumentAsBase64 uploadExtraction classifyDocument
                           extractionModelCall parseExtraction classificationThreshold
                           extractionThreshold openaiModel isoNow numberToString
                           documentId c in
  let rerun :=
    processDocument now getDocumentAsBase64 uploadExtraction classifyDocument
                    extractionModelCall parseExtraction classificationThreshold
                    extractionThreshold openaiModel isoNow numberToString
                    documentId db in
  override false db
  = (DocumentRepository.updateClassification documentId c (Fin 1) db,
     ApiSuccess (Some (classifiedAs c (Fin 1) classified document))) /\
  (forall blob,
      getDocumentAsBase64 (s3Key document) = inr blob ->
      override true db
      = (fst rerun, ApiSuccess (DocumentRepository.findById documentId (fst rerun)))) /\
  (forall e,
      getDocumentAsBase64 (s3Key document) = inl e ->
      snd (override true db)
      = ApiSuccess (Some (classifiedAs c (Fin 1) error document))).
Proof.
  intros Hfind. cbv zeta. unfold overrideClassification. rewrite Hfind.
  assert (Heq : String.eqb (id document) documentId = true)
    by (rewrite (findById_id _ _ _ Hfind); apply String.eqb_refl).
  assert (Hrow : DocumentRepository.findById documentId
                   (DocumentRepository.updateClassification documentId c (Fin 1) db)
                 = Some (classifiedAs c (Fin 1) classified document)).
  { rows. rewrite Hfind. this_row Heq. reflexivity. }
  split; [|split].
  - rewrite Hrow. reflexivity.
  - intros blob Hblob. rewrite reprocessDocument_is_processDocument.
    rewrite (processDocument_forgets_classification now getDocumentAsBase64
               uploadExtraction classifyDocument extractionModelCall parseExtraction
               classificationThreshold extractionThreshold openaiModel isoNow
               numberToString documentId c (Fin 1) db document blob Hfind Hblob).
    reflexivity.
  - intros e Hblob. cbn [snd]. rewrite reprocessDocument_is_processDocument.
    rewrite (processDocument_fetch_failed_row now getDocumentAsBase64
               uploadExtraction classifyDocument extractionModelCall parseExtraction
               classificationThreshold extractionThreshold openaiModel isoNow
               numberToString documentId _ _ e Hrow Hblob).
    reflexivity.
Qed.

Lemma overrideClassification_keeps_the_override_only_without_a_rerun_witness :
  overrideClassification (host := UTC.host) newYear2025
    (fun _ => inr ("aGVsbG8=", "image/png"))
    (fun _ _ _ _ _ => inr tt)
    (fun _ _ => page identity (95 # 100) "passport")
    (fun _ _ _ => inr None) (fun _ => inr [])
    (7 # 10) (6 # 10) "gpt-4o" "2025-01-01T00:00:00.000Z" (fun _ => "0.95")
    "doc-1" income false exampleDatabase
  = (DocumentRepository.updateClassification "doc-1" income (Fin 1) exampleDatabase,
     ApiSuccess (Some (classifiedAs income (Fin 1) classified passport))).
Proof.
  apply (overrideClassification_keeps_the_override_only_without_a_rerun
           (host := UTC.host) newYear2025
           (fun _ => inr ("aGVsbG8=", "image/png"))
           (fun _ _ _ _ _ => inr tt)
           (fun _ _ => page identity (95 # 100) "passport")
           (fun _ _ _ => inr None) (fun _ => inr [])
           (7 # 10) (6 # 10) "gpt-4o" "2025-01-01T00:00:00.000Z" (fun _ => "0.95")
           "doc-1" income exampleDatabase passport).
  reflexivity.
Defined.

(** *** The summary of a case *)

Lemma countWhere_partition (documents : list Document) :
  countWhere (fun d => bool_decide (processingStatus d = uploaded)) documents
  + countWhere (fun d => bool_decide (processingStatus d = classifying)
                         || bool_decide (processingStatus d = extracting)) documents
  + countWhere (fun d => bool_decide (processingStatus d = completed)) documents
  + countWhere (fun d => bool_decide (processingStatus d = error)
                         || bool_decide (processingStatus d = validation_failed)) documents
  + countWhere (fun d => bool_decide (processingStatus d = classified)
                         || bool_decide (processingStatus d = extracted)) documents
  = Js.length documents.
Proof.
  unfold countWhere, Js.length.
  induction documents as [|d rest IH]; [reflexivity|].
  cbn [List.filter]. destruct (processingStatus d);
    repeat match goal with
           | |- context [bool_decide ?P] =>
               let b := eval vm_compute in (bool_decide P) in
               change (bool_decide P) with b
           end;
    cbn [orb length]; rewrite ?Nat2Z.inj_succ; lia.
Qed.

(** X28.  In the summary of a case the counters uploaded, processing,
    completed and errors add up to the total number of documents less the
    documents in status classified or extracted, which no counter includes;
    the completeness percentage is between 0 and 100. *)
Theorem summary_counters_leave_out_classified_and_extracted
    {host : DateHost} (now : Z) (applicationId : string) (db : Database)
    (s : ApplicationDocumentSummary) :
  getApplicationDocumentSummary now applicationId db = Some s ->
  countUploaded s + countProcessing s + countCompleted s + countErrors s
  = totalDocuments s
    - countWhere (fun d => bool_decide (processingStatus d = classified)
                           || bool_decide (processingStatus d = extracted))
                 (summaryDocuments s) /\
  0 <= completenessPercentage s <= 100.
Proof.
  unfold getApplicationDocumentSummary.
  destruct (ApplicationRepository.findById applicationId db) as [application|];
    [|discriminate].
  intros H. injection H as <-.
  cbn [countUploaded countProcessing countCompleted countErrors totalDocuments
       summaryDocuments completenessPercentage].
  split.
  - pose proof (countWhere_partition
                  (DocumentRepository.findByApplicationId applicationId db)). lia.
  - apply calculateOverallCompleteness_range.
Qed.

Lemma summary_counters_leave_out_classified_and_extracted_witness :
  exists s,
    getApplicationDocumentSummary (host := UTC.host) newYear2025 "app-1" exampleDatabase
    = Some s /\
    0 <= completenessPercentage s <= 100.
Proof.
  eexists. split; [reflexivity|].
  apply (summary_counters_leave_out_classified_and_extracted (host := UTC.host)
           newYear2025 "app-1" exampleDatabase).
  reflexivity.
Defined.

(** X29.  Right after updateApplicationChecklist has returned a checklist,
    getApplicationDocumentSummary of the same case reports that checklist,
    the documents it was evaluated on, its completeness and its missing
    documents, and the case has status eligibility_check exactly when the
    reported completeness is 100. *)
Theorem summary_reports_the_refreshed_checklist
    {host : DateHost} (now : Z) (applicationId : string) (db db' : Database)
    (checklist : DocumentChecklistStatus) :
  updateApplicationChecklist now applicationId db = (db', inr checklist) ->
  exists s,
    getApplicationDocumentSummary now applicationId db' = Some s /\
    summaryChecklist s = checklist /\
    summaryDocuments s = DocumentRepository.findByApplicationId applicationId db /\
    completenessPercentage s = calculateOverallCompleteness checklist /\
    missingDocuments s = getMissingDocuments checklist /\
    (appStatus (summaryApplication s) = eligibility_check <->
     completenessPercentage s = 100).
Proof.
  intros Hrun.
  apply updateApplicationChecklist_returns in Hrun
    as (application & application' & _ & _ & Hdocs & Hfind & _ & Hstored & Hst).
  unfold getApplicationDocumentSummary. rewrite Hfind, Hstored.
  eexists. split; [reflexivity|].
  cbn [summaryChecklist summaryDocuments completenessPercentage missingDocuments
       summaryApplication].
  split; [reflexivity|]. split.
  { unfold DocumentRepository.findByApplicationId. rewrite Hdocs. reflexivity. }
  split; [reflexivity|]. split; [reflexivity|].
  rewrite Hst. apply statusFor_eligibility.
Qed.

Lemma summary_reports_the_refreshed_checklist_witness :
  exists s,
    getApplicationDocumentSummary (host := UTC.host) newYear2025 "app-1"
      (fst (updateApplicationChecklist (host := UTC.host) newYear2025 "app-1"
              exampleDatabase))
    = Some s /\
    summaryDocuments s
    = DocumentRepository.findByApplicationId "app-1" exampleDatabase.
Proof.
  destruct (summary_reports_the_refreshed_checklist (host := UTC.host) newYear2025
              "app-1" exampleDatabase
              (fst (updateApplicationChecklist (host := UTC.host) newYear2025 "app-1"
                      exampleDatabase))
              _ eq_refl) as (s & Hs & _ & Hdocs & _).
  exists s. split; [exact Hs|exact Hdocs].
Defined.
